(** * Lake statistics from gridded rasters: a model of the two preprocessing
      scripts and the properties their specification states.

    The development follows [ilw_daily_5_great_lakes_preprocess.py] (the index
    pipeline: cyanobacteria index per lake and day) and
    [daymet_daily_5_great_lakes_preprocess.py] (the climate pipeline).

    Conventions of the model.
    - A Python/numpy float is [NaN], an infinity, or a finite number; every
      finite double is a rational, so a finite value is a [Q] and the four
      comparisons are exact.  Comparisons with [NaN] are false, as in IEEE 754.
      Rounding arithmetic (mean, quantile) is not modelled: the two numpy
      reductions are parameters of the reducer.
    - A 2-D array is a list of rows.
    - A pandas timestamp is a number of nanoseconds since the epoch ([Z]).
    - A Python [dict] and a table row are finite maps from column names.
    - Code that can raise returns a [result]; [try]/[except Exception] is a
      match on it.  Console output and the calls to the decoding engines are
      collected in a trace of events. *)

From Stdlib Require Import ZArith QArith Qminmax Qround Lqa Lia List Bool String Ascii.
From stdpp Require Import gmap strings list sorting.
Import ListNotations.
Open Scope string_scope.
Open Scope list_scope.

(* ===================================================================== *)
(** * Part I. Definitions                                                  *)
(* ===================================================================== *)

(** ** Floats

    Cells and attributes are taken as double precision values, which numpy
    compares exactly. *)

Inductive float : Type :=
  | NaN
  | NegInf
  | Num (q : Q)
  | PosInf.

(** [None] stands for "unordered" (one side is NaN). *)
Definition fcompare (a b : float) : option comparison :=
  match a, b with
  | NaN, _ | _, NaN => None
  | NegInf, NegInf => Some Eq
  | NegInf, _ => Some Lt
  | _, NegInf => Some Gt
  | PosInf, PosInf => Some Eq
  | PosInf, _ => Some Gt
  | _, PosInf => Some Lt
  | Num p, Num q => Some (p ?= q)%Q
  end.

Definition flt (a b : float) : bool :=
  match fcompare a b with Some Lt => true | _ => false end.
Definition fle (a b : float) : bool :=
  match fcompare a b with Some Lt | Some Eq => true | _ => false end.
Definition fgt (a b : float) : bool :=
  match fcompare a b with Some Gt => true | _ => false end.
Definition fge (a b : float) : bool :=
  match fcompare a b with Some Gt | Some Eq => true | _ => false end.

(** [np.isfinite] *)
Definition isfinite (a : float) : bool :=
  match a with Num _ => true | _ => false end.

(** Python's builtin [max(a, b)]: the first argument unless the second is
    strictly greater. *)
Definition py_max (a b : float) : float := if fgt b a then b else a.

(** The literal [5e-5], exactly as the double nearest to it. *)
Definition noise_floor : float := Num (7378697629483821 # 147573952589676412928).

(** ** Arrays *)

Abbreviation grid A := (list (list A)) (only parsing).

Definition grid_map {A B} (f : A → B) (g : grid A) : grid B :=
  fmap (M:=list) (fmap (M:=list) f) g.

Definition grid_zip_with {A B C} (f : A → B → C) (g : grid A) (h : grid B) : grid C :=
  zip_with (zip_with f) g h.

(** Cell [(i, j)] of a 2-D array. *)
Definition cell_at {A} (g : grid A) (i j : nat) : option A :=
  match g !! i with Some row => row !! j | None => None end.

(** [arr.shape] of a rectangular array given as rows. *)
Definition shape {A} (g : grid A) : nat * nat :=
  (length g, match g with r :: _ => length r | [] => 0%nat end).

(** A variable of a dataset: its numeric attributes and its values. *)
Record DataArray : Type := mkDataArray {
  da_attrs : gmap string float;
  da_values : grid float;
}.

(** [da.where(cond)]: keep the value where [cond] holds, NaN elsewhere. *)
Definition where_ (vals : grid float) (cond : grid bool) : grid float :=
  grid_zip_with (λ v (c : bool), if c then v else NaN) vals cond.

Definition da_where (da : DataArray) (cond : grid bool) : DataArray :=
  {| da_attrs := da_attrs da; da_values := where_ (da_values da) cond |}.

(** [da >= x], [da <= x], [da > x] against a scalar. *)
Definition da_ge (da : DataArray) (x : float) : grid bool :=
  grid_map (λ v, fge v x) (da_values da).
Definition da_le (da : DataArray) (x : float) : grid bool :=
  grid_map (λ v, fle v x) (da_values da).
Definition da_gt (da : DataArray) (x : float) : grid bool :=
  grid_map (λ v, fgt v x) (da_values da).

(** ** [clean_ci] *)

Definition clean_ci (da : DataArray) : DataArray :=
  let vmin := default NaN (da_attrs da !! "valid_min") in
  let vmax := default NaN (da_attrs da !! "valid_max") in
  let da := if isfinite vmin then da_where da (da_ge da vmin) else da in
  let da := if isfinite vmax then da_where da (da_le da vmax) else da in
  let thr := if isfinite vmin then py_max vmin noise_floor else noise_floor in
  da_where da (da_gt da thr).

(** What [clean_ci] does to one value. *)
Definition clean_cell (valid_min valid_max : option float) (v : float) : float :=
  let vmin := default NaN valid_min in
  let vmax := default NaN valid_max in
  let v := if isfinite vmin then (if fge v vmin then v else NaN) else v in
  let v := if isfinite vmax then (if fle v vmax then v else NaN) else v in
  let thr := if isfinite vmin then py_max vmin noise_floor else noise_floor in
  if fgt v thr then v else NaN.

(** The masking law in the words of the specification. *)

Definition finite_attr (a : option float) : option float :=
  match a with
  | Some m => if isfinite m then Some m else None
  | None => None
  end.

Definition fmax (a b : float) : float := if flt a b then b else a.

Definition threshold (valid_min : option float) : float :=
  match finite_attr valid_min with
  | Some m => fmax m noise_floor
  | None => noise_floor
  end.

Definition excluded (valid_min valid_max : option float) (v : float) : bool :=
  match finite_attr valid_min with Some m => flt v m | None => false end
  || match finite_attr valid_max with Some m => fgt v m | None => false end
  || fle v (threshold valid_min).

(** ** Lake geometries

    The geometry of a lake comes from shapely.  A ring is its list of
    vertices [(x, y) = (lon, lat)], closed by the edge from the last vertex
    back to the first; a polygon is an exterior ring with holes; a geometry
    (Polygon or MultiPolygon) is a list of polygons.  Containment is the
    even-odd rule on the crossings of a ray with the ring, decided by the
    sign of exact orientation determinants; no validity of the rings is
    assumed. *)

Definition point : Type := Q * Q.

Record polygon : Type := mkPolygon {
  exterior : list point;
  holes : list (list point);
}.

Definition geometry : Type := list polygon.

Definition Qltb (x y : Q) : bool :=
  match (x ?= y)%Q with Lt => true | _ => false end.
Definition Qleb (x y : Q) : bool := negb (Qltb y x).

(** The edges of a ring, in order, the closing edge last. *)
Definition edges (r : list point) : list (point * point) :=
  match r with
  | [] => []
  | p :: ps => zip r (ps ++ [p])
  end.

(** Twice the signed area of the triangle [a b p]: positive when [p] is to
    the left of the directed line from [a] to [b]. *)
Definition orient (a b p : point) : Q :=
  ((b.1 - a.1) * (p.2 - a.2) - (b.2 - a.2) * (p.1 - a.1))%Q.

(** The edge [a b] goes from one side of the horizontal line through [p] to
    the other (the line itself counts as below). *)
Definition straddles (p a b : point) : bool :=
  (Qltb p.2 a.2 && Qleb b.2 p.2) || (Qltb p.2 b.2 && Qleb a.2 p.2).

(** The ray from [p] towards +x crosses the edge [a b]. *)
Definition crosses (p a b : point) : bool :=
  straddles p a b
  && (if Qltb b.2 a.2 then Qltb (orient a b p) 0 else Qltb 0 (orient a b p)).

Definition on_segment (p a b : point) : bool :=
  Qeq_bool (orient a b p) 0
  && Qleb (Qmin a.1 b.1) p.1 && Qleb p.1 (Qmax a.1 b.1)
  && Qleb (Qmin a.2 b.2) p.2 && Qleb p.2 (Qmax a.2 b.2).

Definition on_ring (r : list point) (p : point) : bool :=
  existsb (λ e, on_segment p e.1 e.2) (edges r).

(** Even-odd rule: [p] is enclosed by the ring when the ray crosses it an odd
    number of times. *)
Definition crossing_parity (r : list point) (p : point) : bool :=
  foldr xorb false ((λ e, crosses p e.1 e.2) <$> edges r).

Definition inside_ring (r : list point) (p : point) : bool :=
  negb (on_ring r p) && crossing_parity r p.

(** True containment: in the interior of a polygon (inside the exterior ring,
    not inside or on any hole); [covers] also accepts the boundary. *)
Definition polygon_contains (pg : polygon) (p : point) : bool :=
  inside_ring (exterior pg) p
  && forallb (λ h, negb (inside_ring h p || on_ring h p)) (holes pg).

Definition polygon_covers (pg : polygon) (p : point) : bool :=
  (inside_ring (exterior pg) p || on_ring (exterior pg) p)
  && forallb (λ h, negb (inside_ring h p)) (holes pg).

Definition contains (g : geometry) (p : point) : bool :=
  existsb (λ pg, polygon_contains pg p) g.
Definition covers (g : geometry) (p : point) : bool :=
  existsb (λ pg, polygon_covers pg p) g.

(** [geom.bounds]: the envelope [(minx, miny, maxx, maxy)] of the exterior
    rings; four NaN for an empty geometry. *)
Definition shell_points (g : geometry) : list point := g ≫= exterior.

Definition bounds (g : geometry) : float * float * float * float :=
  match shell_points g with
  | [] => (NaN, NaN, NaN, NaN)
  | p :: ps =>
      (Num (foldr Qmin p.1 ps.*1), Num (foldr Qmin p.2 ps.*2),
       Num (foldr Qmax p.1 ps.*1), Num (foldr Qmax p.2 ps.*2))
  end.

(** The point lies in the box [lox, hix] x [loy, hiy]. *)
Definition in_box (lox loy hix hiy : Q) (q : point) : Prop :=
  (lox <= q.1 ∧ q.1 <= hix ∧ loy <= q.2 ∧ q.2 <= hiy)%Q.

(** ** The bounding-box selector (lines 111-117 of the index pipeline) *)

Definition grid_and (g h : grid bool) : grid bool := grid_zip_with andb g h.

Definition bbox_mask (lon lat : grid float) (b : float * float * float * float)
  : grid bool :=
  let '(minx, miny, maxx, maxy) := b in
  grid_and
    (grid_and
       (grid_and (grid_map (λ v, fge v minx) lon) (grid_map (λ v, fle v maxx) lon))
       (grid_map (λ v, fge v miny) lat))
    (grid_map (λ v, fle v maxy) lat).

(** ** Exceptions *)

Inductive exn : Type :=
  | ValueError (msg : string)
  | KeyError (msg : string)
  | IndexError (msg : string)
  | AttributeError (msg : string)
  | OSError (msg : string).

Inductive result (A : Type) : Type :=
  | Ok (a : A)
  | Raise (e : exn).
Arguments Ok {A} a.
Arguments Raise {A} e.

Global Instance result_ret : MRet result := λ A a, Ok a.
Global Instance result_bind : MBind result := λ A B f m,
  match m with Ok a => f a | Raise e => Raise e end.

(** [try: m except Exception: h] *)
Definition try_except {A} (m : result A) (h : exn → result A) : result A :=
  match m with Ok a => Ok a | Raise e => h e end.

(** [try: return m  except Exception: pass]: [None] when control falls
    through to the code after the [try]. *)
Definition attempt {A} (m : result A) : option A :=
  match m with Ok a => Some a | Raise _ => None end.

(** A lookup that raises when there is nothing to find. *)
Definition from_some {A} (o : option A) (e : exn) : result A :=
  match o with Some a => Ok a | None => Raise e end.

(** ** Timestamps

    A timestamp is a number of nanoseconds since 1970-01-01T00:00:00. *)

Definition Timestamp : Type := Z.

Definition ns_per_day : Z := 86400 * 1000000000.

Definition is_leap (y : Z) : bool :=
  (y mod 4 =? 0)%Z && (negb (y mod 100 =? 0)%Z || (y mod 400 =? 0)%Z).

Definition days_in_month (y m : Z) : Z :=
  if (m =? 2)%Z then (if is_leap y then 29 else 28)
  else if ((m =? 4) || (m =? 6) || (m =? 9) || (m =? 11))%Z then 30
  else 31.

(** Days from 1970-01-01 to the civil date [y-m-d] (proleptic Gregorian). *)
Definition days_from_civil (y m d : Z) : Z :=
  let y' := (if (m <=? 2)%Z then y - 1 else y)%Z in
  let era := (y' / 400)%Z in
  let yoe := (y' - era * 400)%Z in
  let mp := ((m + 9) mod 12)%Z in
  let doy := ((153 * mp + 2) / 5 + d - 1)%Z in
  let doe := (yoe * 365 + yoe / 4 - yoe / 100 + doy)%Z in
  (era * 146097 + doe - 719468)%Z.

Definition is_digit (c : ascii) : bool :=
  (48 <=? nat_of_ascii c)%nat && (nat_of_ascii c <=? 57)%nat.

Definition digit_value (c : ascii) : Z := Z.of_nat (nat_of_ascii c) - 48.

Definition digits_value (cs : list ascii) : Z :=
  fold_left (λ acc c, acc * 10 + digit_value c)%Z cs 0%Z.

(** The bounds of a nanosecond timestamp ([Timestamp.min], [Timestamp.max]). *)
Definition in_timestamp_bounds (ns : Z) : bool :=
  (- (2 ^ 63 - 1) <=? ns)%Z && (ns <=? 2 ^ 63 - 1)%Z.

(** [pd.to_datetime(s, format="%Y%m%d")] on a string of eight digits: [None]
    when pandas raises (no such calendar day, or out of bounds). *)
Definition to_datetime_ymd (s : string) : option Timestamp :=
  let cs := list_ascii_of_string s in
  if (length cs =? 8)%nat && forallb is_digit cs then
    let y := digits_value (take 4 cs) in
    let m := digits_value (take 2 (drop 4 cs)) in
    let d := digits_value (drop 6 cs) in
    let ns := (days_from_civil y m d * ns_per_day)%Z in
    if (1 <=? m)%Z && (m <=? 12)%Z && (1 <=? d)%Z && (d <=? days_in_month y m)%Z
       && in_timestamp_bounds ns
    then Some ns else None
  else None.

(** [Timedelta / 2]: the quotient is truncated to whole nanoseconds (pandas
    divides through a double, which is exact for spans below 2^53 ns, about
    104 days). *)
Definition timedelta_half (d : Z) : Z := Z.quot d 2.

(** [ts + (te - ts) / 2] *)
Definition midpoint (ts te : Timestamp) : Timestamp :=
  (ts + timedelta_half (te - ts))%Z.

(** ** File names and the two filename patterns *)

(** [nc_path.split("/")[-1]] *)
Fixpoint last_component_aux (cs acc : list ascii) : list ascii :=
  match cs with
  | [] => acc
  | c :: cs' =>
      if Ascii.eqb c "/"%char then last_component_aux cs' []
      else last_component_aux cs' (acc ++ [c])
  end.

Definition last_component (path : string) : string :=
  string_of_list_ascii (last_component_aux (list_ascii_of_string path) []).

(** One position of a pattern: the class [\d] (here the ten ASCII digits)
    or a literal character. *)
Inductive pat : Type :=
  | PDigit
  | PLit (c : ascii).

Definition pat_matches (p : pat) (c : ascii) : bool :=
  match p with
  | PDigit => is_digit c
  | PLit c' => Ascii.eqb c c'
  end.

(** The pattern matches a prefix of the text. *)
Fixpoint match_here (ps : list pat) (cs : list ascii) : bool :=
  match ps, cs with
  | [], _ => true
  | p :: ps', c :: cs' => pat_matches p c && match_here ps' cs'
  | _ :: _, [] => false
  end.

(** [re.search]: the text from the leftmost position where the pattern
    matches. *)
Fixpoint re_search (ps : list pat) (cs : list ascii) : option (list ascii) :=
  if match_here ps cs then Some cs
  else match cs with
       | [] => None
       | _ :: cs' => re_search ps cs'
       end.

Definition lits (s : string) : list pat := PLit <$> list_ascii_of_string s.

(** [r"\.(\d{8})_(\d{8})\.L3m\.MO\."] *)
Definition monthly_pattern : list pat :=
  lits "." ++ replicate 8 PDigit ++ lits "_" ++ replicate 8 PDigit ++ lits ".L3m.MO.".

(** [r"\.(\d{8})\.L3m\.DAY\."] *)
Definition daily_pattern : list pat :=
  lits "." ++ replicate 8 PDigit ++ lits ".L3m.DAY.".

(** The two groups of the monthly pattern, the group of the daily one. *)
Definition monthly_groups (fn : string) : option (string * string) :=
  m ← re_search monthly_pattern (list_ascii_of_string fn);
  Some (string_of_list_ascii (take 8 (drop 1 m)),
        string_of_list_ascii (take 8 (drop 10 m))).

Definition daily_group (fn : string) : option string :=
  m ← re_search daily_pattern (list_ascii_of_string fn);
  Some (string_of_list_ascii (take 8 (drop 1 m))).

(** ** Datasets *)

(** A value of the [time] variable: already a datetime, or text. *)
Inductive tvalue : Type :=
  | TDatetime (ns : Timestamp)
  | TText (s : string).

Record Dataset : Type := mkDataset {
  ds_attrs : gmap string string;          (* global attributes *)
  ds_time : option (list tvalue);         (* [ds["time"].values], when [time]
                                             is a coordinate or a variable *)
  ds_data_vars : gmap string DataArray;   (* [ds.data_vars] *)
  ds_coords : gmap string DataArray;      (* the other variables *)
}.

(** [name in ds.variables] and [ds[name]] *)
Definition ds_variable (ds : Dataset) (name : string) : option DataArray :=
  match ds_data_vars ds !! name with
  | Some da => Some da
  | None => ds_coords ds !! name
  end.

(** [a or b] on two optional attribute strings: the first when it is truthy
    (present and not empty), otherwise the second. *)
Definition truthy (o : option string) : bool :=
  match o with Some s => negb (String.eqb s "") | None => false end.

Definition py_or (a b : option string) : option string :=
  if truthy a then a else b.

Section timestamp_inference.
(** [pd.to_datetime] on free text, owned by pandas: [None] when it raises. *)
Variable parse_datetime : string → option Timestamp.

Definition to_datetime_value (v : tvalue) : result Timestamp :=
  match v with
  | TDatetime ns => Ok ns
  | TText s => from_some (parse_datetime s) (ValueError ("Unknown datetime string format: " +:+ s))
  end.

(** [pd.to_datetime(array)]: every element is converted, the first failure
    raises. *)
Definition to_datetime_array (vs : list tvalue) : result (list Timestamp) :=
  mapM to_datetime_value vs.

(** [np.array(tt).reshape(-1)[0]] *)
Definition first_value (tt : list Timestamp) : result Timestamp :=
  from_some (head tt) (IndexError "index 0 is out of bounds for axis 0 with size 0").

(** Method 1: the explicit time coordinate. *)
Definition time_from_coordinate (ds : Dataset) : option Timestamp :=
  match ds_time ds with
  | Some vs => attempt (tt ← to_datetime_array vs; first_value tt)
  | None => None
  end.

(** Method 2: the coverage attributes. *)
Definition coverage_start (ds : Dataset) : option string :=
  py_or (ds_attrs ds !! "time_coverage_start") (ds_attrs ds !! "start_time").
Definition coverage_end (ds : Dataset) : option string :=
  py_or (ds_attrs ds !! "time_coverage_end") (ds_attrs ds !! "end_time").

Definition to_datetime_attr (a : option string) : result Timestamp :=
  from_some (a ≫= parse_datetime) (ValueError "Unknown datetime string format").

Definition time_from_coverage (ds : Dataset) (product : string) : option Timestamp :=
  let start := coverage_start ds in
  let end_ := coverage_end ds in
  if truthy start && truthy end_ then
    attempt (ts ← to_datetime_attr start;
             te ← to_datetime_attr end_;
             if String.eqb product "monthly" then Ok (midpoint ts te) else Ok ts)
  else None.

(** Method 3: the file name.  The conversions of the matched digits are
    outside any [try]: a match that is not a calendar date raises. *)
Definition to_datetime_digits (s : string) : result Timestamp :=
  from_some (to_datetime_ymd s)
    (ValueError ("time data " +:+ s +:+ " does not match format %Y%m%d")).

Definition time_from_filename (fn : string) (product : string) : result Timestamp :=
  let cannot := ValueError ("Cannot infer time from dataset or filename: " +:+ fn) in
  if String.eqb product "monthly" then
    match monthly_groups fn with
    | Some (b, e) =>
        ts ← to_datetime_digits b;
        te ← to_datetime_digits e;
        Ok (midpoint ts te)
    | None => Raise cannot
    end
  else
    match daily_group fn with
    | Some d => to_datetime_digits d
    | None => Raise cannot
    end.

Definition infer_time_label (nc_path : string) (ds : Dataset) (product : string)
  : result Timestamp :=
  match time_from_coordinate ds with
  | Some t => Ok t
  | None =>
      match time_from_coverage ds product with
      | Some t => Ok t
      | None => time_from_filename (last_component nc_path) product
      end
  end.
End timestamp_inference.


(** ** Tables *)

(** A cell of a table. *)
Inductive value : Type :=
  | VNone
  | VInt (z : Z)
  | VStr (s : string)
  | VFloat (f : float)
  | VTime (t : Timestamp).

(** [pd.isna] *)
Definition is_null (v : value) : bool :=
  match v with
  | VNone | VFloat NaN => true
  | _ => false
  end.

(** A table: the column labels in order, and the rows as maps from labels. *)
Record DataFrame : Type := mkDataFrame {
  df_columns : list string;
  df_rows : list (gmap string value);
}.

(** [pd.DataFrame(rows)] for dicts that all have the keys [keys], in this
    order; no rows, no columns. *)
Definition pd_DataFrame (keys : list string) (rows : list (gmap string value))
  : DataFrame :=
  {| df_columns := match rows with [] => [] | _ => keys end; df_rows := rows |}.

Definition has_column (df : DataFrame) (c : string) : bool :=
  bool_decide (c ∈ df_columns df).

(** [df.rename(columns={old: new})] *)
Definition rename_key (old new : string) (r : gmap string value) : gmap string value :=
  match r !! old with
  | Some v => <[new := v]> (delete old r)
  | None => r
  end.

Definition df_rename (old new : string) (df : DataFrame) : DataFrame :=
  {| df_columns := (λ c, if String.eqb c old then new else c) <$> df_columns df;
     df_rows := rename_key old new <$> df_rows df |}.

(** [df[c] = v] for a scalar [v] *)
Definition df_assign (c : string) (v : value) (df : DataFrame) : DataFrame :=
  {| df_columns := if has_column df c then df_columns df
                   else (df_columns df ++ [c])%list;
     df_rows := <[c := v]> <$> df_rows df |}.

(** The labels of several tables, each once, in order of first appearance. *)
Definition union_columns (cols : list string) : list string :=
  fold_left (λ (acc : list string) c,
               if bool_decide (c ∈ acc) then acc else (acc ++ [c])%list) cols [].

(** A row on the labels [cols]; a cell the row does not have is NaN. *)
Definition reindex (cols : list string) (r : gmap string value) : gmap string value :=
  list_to_map ((λ c, (c, default (VFloat NaN) (r !! c))) <$> cols).

(** [pd.concat(dfs, ignore_index=True)] *)
Definition pd_concat (dfs : list DataFrame) : DataFrame :=
  let cols := union_columns (dfs ≫= df_columns) in
  {| df_columns := cols;
     df_rows := dfs ≫= (λ df, reindex cols <$> df_rows df) |}.

(** [df[cols]] for labels that the table has. *)
Definition df_select (cols : list string) (df : DataFrame) : DataFrame :=
  {| df_columns := cols; df_rows := reindex cols <$> df_rows df |}.

(** *** Sorting

    [sort_values] on several columns is a stable lexicographic sort; numbers
    come before text, nulls last. *)

Definition sort_key (v : value) : Z * Q * string :=
  match v with
  | VInt z => (0%Z, inject_Z z, "")
  | VFloat NegInf => ((-1)%Z, 0%Q, "")
  | VFloat (Num q) => (0%Z, q, "")
  | VFloat PosInf => (1%Z, 0%Q, "")
  | VTime t => (2%Z, inject_Z t, "")
  | VStr s => (3%Z, 0%Q, s)
  | VNone | VFloat NaN => (4%Z, 0%Q, "")
  end.

Definition lex (c1 c2 : comparison) : comparison :=
  match c1 with Eq => c2 | _ => c1 end.

Definition value_compare (a b : value) : comparison :=
  let '(r1, q1, s1) := sort_key a in
  let '(r2, q2, s2) := sort_key b in
  lex (r1 ?= r2)%Z (lex (q1 ?= q2)%Q (String.compare s1 s2)).

Definition cell (r : gmap string value) (c : string) : value :=
  default (VFloat NaN) (r !! c).

Fixpoint row_compare (by_ : list string) (r1 r2 : gmap string value) : comparison :=
  match by_ with
  | [] => Eq
  | c :: cs => lex (value_compare (cell r1 c) (cell r2 c)) (row_compare cs r1 r2)
  end.

Definition row_leb (by_ : list string) (r1 r2 : gmap string value) : bool :=
  match row_compare by_ r1 r2 with Gt => false | _ => true end.

Fixpoint insert_sorted {A} (leb : A → A → bool) (x : A) (l : list A) : list A :=
  match l with
  | [] => [x]
  | y :: l' => if leb x y then x :: l else y :: insert_sorted leb x l'
  end.

Definition stable_sort {A} (leb : A → A → bool) (l : list A) : list A :=
  foldr (insert_sorted leb) [] l.

(** The order relation of a boolean comparison. *)
Definition le_of {A} (leb : A → A → bool) : relation A := λ a b, leb a b = true.

(** A comparison composes along a chain: from [a] not above [b] and [b] not
    above [c], [a] compares to [c] as the two steps say. *)
Definition composes {A} (cmp : A → A → comparison) : Prop :=
  ∀ a b c, cmp a b ≠ Gt → cmp b c ≠ Gt → cmp a c = lex (cmp a b) (cmp b c).

(** [df.sort_values(by).reset_index(drop=True)] *)
Definition sort_values (by_ : list string) (df : DataFrame) : DataFrame :=
  {| df_columns := df_columns df;
     df_rows := stable_sort (row_leb by_) (df_rows df) |}.

(** ** The lake layer *)

(** A feature of the vector layer: its attribute cells and its geometry, in
    geographic coordinates (the reprojection [to_crs(4326)] is geopandas'
    work and leaves a layer that is already geographic as it is). *)
Record Feature : Type := mkFeature {
  ft_attrs : gmap string value;
  ft_geometry : option geometry;
}.

Record GeoDataFrame : Type := mkGeoDataFrame {
  gdf_crs : option string;
  gdf_columns : list string;      (* the attribute columns *)
  gdf_features : list Feature;
}.

(** ** The per-time-step reducer of the index pipeline *)

Inductive engine : Type := netcdf4 | h5netcdf.

Definition engine_name (e : engine) : string :=
  match e with netcdf4 => "netcdf4" | h5netcdf => "h5netcdf" end.

(** The literal [0.9] as a double. *)
Definition q90 : float := Num (8106479329266893 # 9007199254740992).

(** [arr[np.isfinite(arr)].ravel()]: the finite cells in row-major order. *)
Definition finite_values (arr : grid float) : list float :=
  List.filter isfinite (concat arr).

Definition core_columns : list string :=
  ["lake_id"; "time"; "product"; "CI_mean"; "CI_p90"; "n_valid"; "src"; "engine"].

Section reducer.
(** [np.nanmean] and [np.nanquantile] on a 1-D array. *)
Variable np_nanmean : list float → float.
Variable np_nanquantile : list float → float → float.

(** The statistics of one lake: [(mean_val, p90, n_valid)]. *)
Definition lake_stats (da : DataArray) (lon lat : grid float) (geom : geometry)
  : float * float * nat :=
  let mask := bbox_mask lon lat (bounds geom) in
  let sub := where_ (da_values da) mask in
  let vals := finite_values sub in
  let n_valid := length vals in
  if (0 <? n_valid)%nat
  then (np_nanmean vals, np_nanquantile vals q90, n_valid)
  else (NaN, NaN, n_valid).

(** What the row of a lake says, given the cells that remain for it. *)
Definition row_reports (cells : list float) (row : gmap string value) : Prop :=
  row !! "n_valid" = Some (VInt (Z.of_nat (length cells)))
  ∧ (cells = [] →
     row !! "CI_mean" = Some (VFloat NaN) ∧ row !! "CI_p90" = Some (VFloat NaN)
     ∧ row !! "n_valid" = Some (VInt 0))
  ∧ (cells ≠ [] →
     row !! "CI_mean" = Some (VFloat (np_nanmean cells))
     ∧ row !! "CI_p90" = Some (VFloat (np_nanquantile cells q90))).

(** The body of the loop over the lakes: one row. *)
Definition lake_row (da : DataArray) (lon lat : grid float)
    (nc_path lake_id_col product : string) (time_label : Timestamp)
    (engine : string) (r : Feature) : result (gmap string value) :=
  lid ← from_some (ft_attrs r !! lake_id_col) (KeyError lake_id_col);
  geom ← from_some (ft_geometry r)
           (AttributeError "'NoneType' object has no attribute 'bounds'");
  let '(mean_val, p90, n_valid) := lake_stats da lon lat geom in
  Ok (<["lake_id" := lid]> (
      <["time" := VTime time_label]> (
      <["product" := VStr product]> (
      <["CI_mean" := VFloat mean_val]> (
      <["CI_p90" := VFloat p90]> (
      <["n_valid" := VInt (Z.of_nat n_valid)]> (
      <["src" := VStr (last_component nc_path)]> (
      <["engine" := VStr engine]> ∅)))))))).

Definition _extract_lakes_core_from_ds (ds : Dataset) (nc_path : string)
    (lakes_gdf : list Feature) (lake_id_col product : string)
    (time_label : Timestamp) (engine : string) : result DataFrame :=
  da ← from_some (ds_data_vars ds !! "CI_cyano")
         (KeyError "CI_cyano not found in dataset data_vars");
  let da := clean_ci da in
  lat ← from_some (ds_variable ds "lat") (KeyError "lat / lon not found in dataset");
  lon ← from_some (ds_variable ds "lon") (KeyError "lat / lon not found in dataset");
  if bool_decide (shape (da_values lat) = shape (da_values da)
                  ∧ shape (da_values lon) = shape (da_values da))
  then
    rows ← mapM (lake_row da (da_values lon) (da_values lat) nc_path
                   lake_id_col product time_label engine) lakes_gdf;
    Ok (pd_DataFrame core_columns rows)
  else Raise (ValueError "lat/lon shape not matching CI_cyano").
End reducer.


(** ** Raster files and the events of a run *)

(** A raster file as the run sees it: its name, its bytes ([None] when it
    cannot be opened or read), and what [xr.open_dataset] gives with each
    engine ([None] when the engine raises). *)
Record RasterFile : Type := mkRasterFile {
  f_name : string;
  f_bytes : option (list Byte.byte);
  f_decode : engine → option Dataset;
}.

Inductive event : Type :=
  | EvWarnNoFiles                                   (* [WARN] No daily files found *)
  | EvFound (n : nat)                               (* [daily] found n files *)
  | EvStart (name : string)                         (* [daily] start name *)
  | EvSkipHeader (name : string)                    (* [WARN] Skip (not HDF5/NetCDF header) *)
  | EvOpenDataset (e : engine) (name : string)      (* a call of xr.open_dataset *)
  | EvEngineFailed (e : engine) (name : string) (err : exn)
                                                    (* [WARN] netcdf4 failed on / [SKIP] h5netcdf fallback failed *)
  | EvDone (name : string) (e : engine) (rows : nat)    (* [daily] done name ... engine=e *)
  | EvNoValidRows                                   (* No valid daily rows produced. *)
  | EvToParquet (path : string) (df : DataFrame)    (* df_all.to_parquet(out_parquet) *)
  | EvSaved (path : string) (rows files : nat).     (* [daily] saved *)

(** A computation that leaves a trace of events and returns or raises. *)
Record io (A : Type) : Type := IO {
  trace : list event;
  outcome : result A;
}.
Arguments IO {A} trace outcome.
Arguments trace {A} _.
Arguments outcome {A} _.

Global Instance io_ret : MRet io := λ A a, IO [] (Ok a).
Global Instance io_bind : MBind io := λ A B f m,
  match outcome m with
  | Ok a => IO (trace m ++ trace (f a)) (outcome (f a))
  | Raise e => IO (trace m) (Raise e)
  end.

Definition emit (e : event) : io unit := IO [e] (Ok tt).
Definition lift {A} (r : result A) : io A := IO [] r.

(** [try: m except Exception as e: h e] *)
Definition io_try {A} (m : io A) (h : exn → io A) : io A :=
  match outcome m with
  | Ok _ => m
  | Raise e => IO (trace m ++ trace (h e)) (outcome (h e))
  end.

(** ** [looks_like_hdf5] *)

Definition hdf5_magic : list Byte.byte := [Byte.x89; Byte.x48; Byte.x44; Byte.x46].
Definition cdf_magic : list Byte.byte := [Byte.x43; Byte.x44; Byte.x46].

(** [bytes.startswith] *)
Fixpoint startswith (s prefix : list Byte.byte) : bool :=
  match prefix, s with
  | [], _ => true
  | p :: prefix', b :: s' => Byte.eqb b p && startswith s' prefix'
  | _ :: _, [] => false
  end.

(** [open(path, "rb")] and [f.read(n)] *)
Definition read_prefix (f : RasterFile) (n : nat) : result (list Byte.byte) :=
  bs ← from_some (f_bytes f) (OSError (f_name f));
  Ok (take n bs).

Definition looks_like_hdf5 (path : RasterFile) : result bool :=
  try_except
    (sig ← read_prefix path 8;
     Ok (startswith sig hdf5_magic || startswith sig cdf_magic))
    (λ _, Ok false).

(** ** The index pipeline: [run_daily] *)

Definition keep_cols : list string :=
  ["lake_id"; "date"; "product"; "CI_mean"; "CI_p90"; "n_valid"; "src"; "engine"].

(** The null marker of a missing column: [None] for the four label columns,
    NaN for the others. *)
Definition null_marker (c : string) : value :=
  if bool_decide (c ∈ ["lake_id"; "product"; "src"; "engine"]) then VNone
  else VFloat NaN.

(** [for c in keep_cols: if c not in df_all.columns: df_all[c] = ...] *)
Definition fill_missing (df_all : DataFrame) : DataFrame :=
  fold_left (λ df c, if has_column df c then df else df_assign c (null_marker c) df)
    keep_cols df_all.

(** One turn of that loop. *)
Definition fill_step (df : DataFrame) (c : string) : DataFrame :=
  if has_column df c then df else df_assign c (null_marker c) df.

(** From [pd.concat] to the table that is written. *)
Definition assemble (out_rows : list DataFrame) : DataFrame :=
  let df_all := pd_concat out_rows in
  let df_all := fill_missing df_all in
  sort_values ["lake_id"; "date"] (df_select keep_cols df_all).

(** [gdf.to_crs(4326)[[lake_id_col, "geometry"]].dropna()] *)
Definition select_dropna (gdf : GeoDataFrame) (lake_id_col : string)
  : result (list Feature) :=
  if bool_decide (lake_id_col ∈ gdf_columns gdf) then
    Ok (List.filter
          (λ r, match ft_attrs r !! lake_id_col, ft_geometry r with
                | Some v, Some _ => negb (is_null v)
                | _, _ => false
                end)
          ((λ r, {| ft_attrs := filter (λ kv, kv.1 = lake_id_col) (ft_attrs r);
                    ft_geometry := ft_geometry r |}) <$> gdf_features gdf))
  else Raise (KeyError lake_id_col).

(** What the run reads: the lake layer ([gpd.read_file(lakes_fp)]) and the
    files of [sorted(daily_dir.glob("S3M_OLCI_EFRNT.*.L3m.DAY.*.nc"))]. *)
Record World : Type := mkWorld {
  w_lakes : result GeoDataFrame;
  w_files : list RasterFile;
}.

Section index_pipeline.
Variable parse_datetime : string → option Timestamp.
Variable np_nanmean : list float → float.
Variable np_nanquantile : list float → float → float.

Definition open_dataset (fp : RasterFile) (e : engine) : io Dataset :=
  _ ← emit (EvOpenDataset e (f_name fp));
  lift (from_some (f_decode fp e) (OSError (f_name fp))).

(** [extract_lakes_from_nc] (engine netcdf4) and [_extract_one_with_h5netcdf]
    differ in the engine only. *)
Definition extract_with (e : engine) (daily_dir : string) (fp : RasterFile)
    (lakes_gdf : list Feature) (lake_id_col product : string) : io DataFrame :=
  let nc_path := daily_dir +:+ "/" +:+ f_name fp in
  ds ← open_dataset fp e;
  lift (t ← infer_time_label parse_datetime nc_path ds product;
        _extract_lakes_core_from_ds np_nanmean np_nanquantile ds nc_path
          lakes_gdf lake_id_col product t (engine_name e)).

Definition extract_lakes_from_nc := extract_with netcdf4.
Definition _extract_one_with_h5netcdf := extract_with h5netcdf.

Definition _log_one_file (df_one : DataFrame) (fp_name : string) (e : engine)
  : io unit :=
  emit (EvDone fp_name e (length (df_rows df_one))).

(** The lines between the extraction and [out_rows.append]. *)
Definition label_rows (fp_name : string) (e : engine) (df_one : DataFrame)
  : DataFrame :=
  let df_one :=
    if has_column df_one "time" && negb (has_column df_one "date")
    then df_rename "time" "date" df_one else df_one in
  let df_one := df_assign "src" (VStr fp_name) df_one in
  df_assign "engine" (VStr (engine_name e)) df_one.

(** The body of the loop over the files; the result is [out_rows] after it. *)
Definition process_file (daily_dir : string) (gdf : list Feature)
    (lake_id_col : string) (out_rows : list DataFrame) (fp : RasterFile)
  : io (list DataFrame) :=
  _ ← emit (EvStart (f_name fp));
  ok ← lift (looks_like_hdf5 fp);
  if negb ok then
    _ ← emit (EvSkipHeader (f_name fp));
    mret out_rows
  else
    first ←
      io_try
        (df_one ← extract_lakes_from_nc daily_dir fp gdf lake_id_col "daily";
         let df_one := label_rows (f_name fp) netcdf4 df_one in
         _ ← _log_one_file df_one (f_name fp) netcdf4;
         mret (Some (out_rows ++ [df_one])%list))
        (λ e1, _ ← emit (EvEngineFailed netcdf4 (f_name fp) e1); mret None);
    match first with
    | Some out_rows' => mret out_rows'
    | None =>
        io_try
          (df_one ← _extract_one_with_h5netcdf daily_dir fp gdf lake_id_col "daily";
           let df_one := label_rows (f_name fp) h5netcdf df_one in
           _ ← _log_one_file df_one (f_name fp) h5netcdf;
           mret (out_rows ++ [df_one])%list)
          (λ e2, _ ← emit (EvEngineFailed h5netcdf (f_name fp) e2); mret out_rows)
    end.

Fixpoint file_loop (daily_dir : string) (gdf : list Feature)
    (lake_id_col : string) (files : list RasterFile) (out_rows : list DataFrame)
  : io (list DataFrame) :=
  match files with
  | [] => mret out_rows
  | fp :: files' =>
      out_rows' ← process_file daily_dir gdf lake_id_col out_rows fp;
      file_loop daily_dir gdf lake_id_col files' out_rows'
  end.

Definition run_daily (w : World) (daily_dir lake_id_col out_parquet : string)
  : io unit :=
  gdf ← lift (w_lakes w);
  match gdf_crs gdf with
  | None =>
      lift (Raise (ValueError
        "The lake file is missing CRS, please ensure it is EPSG:4326"))
  | Some _ =>
      gdf ← lift (select_dropna gdf lake_id_col);
      let files := w_files w in
      match files with
      | [] => emit EvWarnNoFiles
      | _ :: _ =>
          _ ← emit (EvFound (length files));
          out_rows ← file_loop daily_dir gdf lake_id_col files [];
          match out_rows with
          | [] => emit EvNoValidRows
          | _ :: _ =>
              let df_all := assemble out_rows in
              _ ← emit (EvToParquet out_parquet df_all);
              emit (EvSaved out_parquet (length (df_rows df_all)) (length files))
          end
      end
  end.
End index_pipeline.


(** ** The climate pipeline *)

Global Instance Q_eq_dec : EqDecision Q.
Proof. solve_decision. Defined.
Global Instance float_eq_dec : EqDecision float.
Proof. solve_decision. Defined.
Global Instance value_eq_dec : EqDecision value.
Proof. solve_decision. Defined.

(** *** The name column (lines 22-35) *)

Definition name_candidates : list string := ["lake_name"; "Lake_name"; "name"; "Name"].

(** [for cand in [...]: if cand in lakes.columns: name_col = cand; break] *)
Definition find_name_col (columns : list string) : option string :=
  head (List.filter (λ cand, bool_decide (cand ∈ columns)) name_candidates).

(** [lakes[new] = lakes[old]] *)
Definition copy_column (old new : string) (lakes : GeoDataFrame) : GeoDataFrame :=
  {| gdf_crs := gdf_crs lakes;
     gdf_columns := if bool_decide (new ∈ gdf_columns lakes) then gdf_columns lakes
                    else (gdf_columns lakes ++ [new])%list;
     gdf_features :=
       (λ r, {| ft_attrs := match ft_attrs r !! old with
                            | Some v => <[new := v]> (ft_attrs r)
                            | None => ft_attrs r
                            end;
                ft_geometry := ft_geometry r |}) <$> gdf_features lakes |}.

(** [lakes[cols + ["geometry"]]] *)
Definition select_columns (cols : list string) (lakes : GeoDataFrame) : GeoDataFrame :=
  {| gdf_crs := gdf_crs lakes;
     gdf_columns := cols;
     gdf_features :=
       (λ r, {| ft_attrs := filter (λ kv, kv.1 ∈ cols) (ft_attrs r);
                ft_geometry := ft_geometry r |}) <$> gdf_features lakes |}.

(** The layer and the name column after lines 22-35. *)
Definition prepare_lakes (lakes : GeoDataFrame) : result (GeoDataFrame * string) :=
  if bool_decide ("lake_id" ∈ gdf_columns lakes) then
    let '(lakes, name_col) :=
      match find_name_col (gdf_columns lakes) with
      | Some cand => (lakes, cand)
      | None => (copy_column "lake_id" "lake_name" lakes, "lake_name")
      end in
    Ok (select_columns ["lake_id"; name_col] lakes, name_col)
  else Raise (ValueError "Expect 'lake_id' in lakes_greatlakes_5poly.gpkg").

(** *** Masks *)

(** [vectorized.contains(geom, lon, lat)]: exact containment, cell by cell. *)
Definition contains_cell (geom : geometry) (lo la : float) : bool :=
  match lo, la with
  | Num x, Num y => contains geom (x, y)
  | _, _ => false
  end.

Definition contains_mask (geom : geometry) (lon lat : grid float) : grid bool :=
  grid_zip_with (contains_cell geom) lon lat.

(** A Python [dict] keyed by lake ids: the last binding of a key wins; NaN is
    equal to no key. *)
Definition dict_set {V} (k : value) (v : V) (d : list (value * V)) : list (value * V) :=
  (d ++ [(k, v)])%list.

Definition key_eqb (a b : value) : bool :=
  negb (bool_decide (a = VFloat NaN)) && bool_decide (a = b).

Definition dict_get {V} (k : value) (d : list (value * V)) : result V :=
  from_some (snd <$> head (List.filter (λ kv, key_eqb k kv.1) (reverse d)))
    (KeyError "lake_id").

(** *** [pd.merge(left, right, on=..., how="outer")]

    Every row of either side is kept; rows with equal keys are paired; a row
    without partner gets NaN in the other side's columns; the result is
    sorted by the keys.  The value columns of the two sides are disjoint
    here (one variable each), so no column is renamed. *)

Definition row_key (on : list string) (r : gmap string value) : list value :=
  cell r <$> on.

Definition fill_nan (cols : list string) (r : gmap string value) : gmap string value :=
  foldr (λ c acc, <[c := VFloat NaN]> acc) r cols.

Definition value_columns (on : list string) (df : DataFrame) : list string :=
  List.filter (λ c, negb (bool_decide (c ∈ on))) (df_columns df).

Definition partners (on : list string) (r : gmap string value)
    (rows : list (gmap string value)) : list (gmap string value) :=
  List.filter (λ r', bool_decide (row_key on r' = row_key on r)) rows.

Definition merge_outer (on : list string) (left right : DataFrame) : DataFrame :=
  let paired :=
    df_rows left ≫= (λ l,
      match partners on l (df_rows right) with
      | [] => [fill_nan (value_columns on right) l]
      | rs => (λ r, l ∪ r) <$> rs
      end) in
  let right_only :=
    fill_nan (value_columns on left)
      <$> List.filter (λ r, match partners on r (df_rows left) with
                            | [] => true
                            | _ => false
                            end) (df_rows right) in
  {| df_columns := (df_columns left ++ value_columns on right)%list;
     df_rows := stable_sort (row_leb on) (paired ++ right_only) |}.

(** The table has a row with the key [k]. *)
Definition has_key (on : list string) (df : DataFrame) (k : list value) : Prop :=
  ∃ r, r ∈ df_rows df ∧ row_key on r = k.

(** [functools.reduce(f, dfs)] *)
Definition reduce {A} (f : A → A → A) (l : list A) : result A :=
  match l with
  | [] => Raise (ValueError "reduce() of empty iterable with no initial value")
  | x :: l' => Ok (fold_left f l' x)
  end.

Definition merge_keys : list string := ["lake_id"; "lake_name"; "date"].

(** *** The script *)

(** One Daymet file: the shared grid, the time axis and the cube of each
    variable, a 2-D slice per time step. *)
Record DaymetFile : Type := mkDaymetFile {
  dm_lat : option (grid float);
  dm_lon : option (grid float);
  dm_time : list Timestamp;
  dm_vars : gmap string (list (grid float));
}.

Definition VAR_FILES : list (string * string) :=
  [("tmin", "daymet_v4_daily_na_tmin_2024.nc");
   ("tmax", "daymet_v4_daily_na_tmax_2024.nc");
   ("prcp", "daymet_v4_daily_na_prcp_2024.nc");
   ("srad", "daymet_v4_daily_na_srad_2024.nc");
   ("vp", "daymet_v4_daily_na_vp_2024.nc");
   ("dayl", "daymet_v4_daily_na_dayl_2024.nc")].

Section climate_pipeline.
(** [np.nanmean], shapely's [buffer(0)], and the files of [DAYMET_DIR]. *)
Variable np_nanmean : list float → float.
Variable buffer0 : geometry → geometry.
Variable open_daymet : string → result DaymetFile.

(** The loop of lines 61-83. *)
Fixpoint build_masks (rows : list Feature) (lon lat : grid float)
    (lake_masks : list (value * grid bool)) : result (list (value * grid bool)) :=
  match rows with
  | [] => Ok lake_masks
  | row :: rows' =>
      lake_id ← from_some (ft_attrs row !! "lake_id") (KeyError "lake_id");
      geom ← from_some (ft_geometry row) (AttributeError "geometry");
      let geom := buffer0 geom in
      build_masks rows' lon lat
        (dict_set lake_id (contains_mask geom lon lat) lake_masks)
  end.

(** The rows of one lake in [compute_lake_daily_for_var]: one per time
    step, the mean over the cells of the mask. *)
Definition lake_series (var_name : string) (times : list Timestamp)
    (cube : list (grid float)) (mask : grid bool) (lake_id lake_name : value)
  : list (gmap string value) :=
  zip_with (λ t slice,
      <["lake_id" := lake_id]> (
      <["lake_name" := lake_name]> (
      <["date" := VTime t]> (
      <[var_name := VFloat (np_nanmean (concat (where_ slice mask)))]> ∅))))
    times cube.

Definition compute_lake_daily_for_var (lakes : GeoDataFrame) (name_col : string)
    (lake_masks : list (value * grid bool)) (var_name : string)
  : result DataFrame :=
  fname ← from_some (snd <$> head (List.filter (λ kv, String.eqb kv.1 var_name) VAR_FILES))
            (KeyError var_name);
  ds ← open_daymet fname;
  da ← from_some (dm_vars ds !! var_name) (KeyError var_name);
  rows ← mapM (λ row,
      lake_id ← from_some (ft_attrs row !! "lake_id") (KeyError "lake_id");
      lake_name ← from_some (ft_attrs row !! name_col) (KeyError name_col);
      mask_da ← dict_get lake_id lake_masks;
      Ok (lake_series var_name (dm_time ds) da mask_da lake_id lake_name))
    (gdf_features lakes);
  match rows with
  | [] => Raise (ValueError "No objects to concatenate")
  | _ => Ok {| df_columns := ["lake_id"; "lake_name"; "date"; var_name];
               df_rows := concat rows |}
  end.

(** The whole script: the table [df_daymet] that is written. *)
Definition daymet_main (lakes : GeoDataFrame) : result DataFrame :=
  '(lakes, name_col) ← prepare_lakes lakes;
  ds_grid ← open_daymet "daymet_v4_daily_na_tmin_2024.nc";
  lat ← from_some (dm_lat ds_grid) (KeyError "lat");
  lon ← from_some (dm_lon ds_grid) (KeyError "lon");
  lake_masks ← build_masks (gdf_features lakes) lon lat [];
  dfs ← mapM (compute_lake_daily_for_var lakes name_col lake_masks) (fst <$> VAR_FILES);
  df_daymet ← reduce (merge_outer merge_keys) dfs;
  Ok (sort_values ["lake_id"; "date"] df_daymet).
End climate_pipeline.


(** ** The reducer in the words of the specification *)

(** The cells of a slice that a selector keeps, in row-major order. *)
Definition selected_cells (vals : grid float) (mask : grid bool) : list float :=
  fst <$> List.filter snd (concat (grid_zip_with pair vals mask)).

(** The cells that remain for a lake: selected, not masked by the validity
    filter, and finite. *)
Definition remaining_cells (da : DataArray) (mask : grid bool) : list float :=
  List.filter
    (λ v, negb (excluded (da_attrs da !! "valid_min") (da_attrs da !! "valid_max") v)
          && isfinite v)
    (selected_cells (da_values da) mask).

(** ** Reading a trace *)

(** The engines that a trace shows opening the file [name], and those it
    shows completing its extraction. *)
Definition opened_engines (name : string) (t : list event) : list engine :=
  t ≫= (λ ev, match ev with
              | EvOpenDataset e n => if String.eqb n name then [e] else []
              | _ => []
              end).

Definition done_engines (name : string) (t : list event) : list engine :=
  t ≫= (λ ev, match ev with
              | EvDone n e _ => if String.eqb n name then [e] else []
              | _ => []
              end).

(** The events of the loop over the files. *)
Definition is_file_event (ev : event) : bool :=
  match ev with
  | EvStart _ | EvSkipHeader _ | EvOpenDataset _ _
  | EvEngineFailed _ _ _ | EvDone _ _ _ => true
  | _ => false
  end.

(** The bytes begin with one of the two magic numbers. *)
Definition has_magic (bs : list Byte.byte) : bool :=
  startswith bs hdf5_magic || startswith bs cdf_magic.

(** [df.values]: the cells of a table, row by row, in the order of its
    columns. *)
Definition df_values (df : DataFrame) : list (list (option value)) :=
  (λ r : gmap string value, (λ c, r !! c) <$> df_columns df) <$> df_rows df.

(** ** Example data

    Exact-arithmetic stand-ins for the two numpy reductions, a parser for the
    pandas conversion of free text that reads eight digits, and a small
    world: a 3 x 3 grid, a lake around its centre cell, raster files and a
    Daymet directory. *)

Definition finite_part (vals : list float) : list Q :=
  omap (λ v, match v with Num q => Some q | _ => None end) vals.

Definition exact_mean (vals : list float) : float :=
  match finite_part vals with
  | [] => NaN
  | qs => Num (Qred (foldr Qplus 0%Q qs / inject_Z (Z.of_nat (length qs))))
  end.

(** Linear interpolation between the two order statistics around
    [q * (n - 1)]. *)
Definition exact_quantile (vals : list float) (q : float) : float :=
  match stable_sort Qle_bool (finite_part vals), q with
  | [], _ => NaN
  | x :: xs, Num q =>
      let h := (q * inject_Z (Z.of_nat (length xs)))%Q in
      let i := Z.to_nat (Qfloor h) in
      let lo := nth i (x :: xs) x in
      let hi := nth (S i) (x :: xs) lo in
      Num (Qred (lo + (h - inject_Z (Qfloor h)) * (hi - lo)))
  | _, _ => NaN
  end.

Definition nums (zs : grid Z) : grid float := grid_map (λ z, Num (inject_Z z)) zs.

Definition lon3 : grid float := nums [[0; 1; 2]; [0; 1; 2]; [0; 1; 2]]%Z.
Definition lat3 : grid float := nums [[0; 0; 0]; [1; 1; 1]; [2; 2; 2]]%Z.

(** A square lake around the point (1, 1). *)
Definition centre_lake : geometry :=
  [mkPolygon [(1 # 2, 1 # 2); (3 # 2, 1 # 2); (3 # 2, 3 # 2); (1 # 2, 3 # 2)]%Q []].

Definition coord (g : grid float) : DataArray := mkDataArray ∅ g.

(** Scenario A of the specification: nine distinct values. *)
Definition ds_A : Dataset :=
  mkDataset ∅ None
    {[ "CI_cyano" := mkDataArray ∅ (nums [[1; 2; 3]; [4; 5; 6]; [7; 8; 9]]%Z) ]}
    (<["lat" := coord lat3]> {[ "lon" := coord lon3 ]}).

(** Scenario B: [valid_min = 0.001] and every cell 0.0. *)
Definition ds_B : Dataset :=
  mkDataset ∅ None
    {[ "CI_cyano" :=
         mkDataArray {[ "valid_min" := Num (1152921504606847 # 1152921504606846976) ]}
           (nums [[0; 0; 0]; [0; 0; 0]; [0; 0; 0]]%Z) ]}
    (<["lat" := coord lat3]> {[ "lon" := coord lon3 ]}).

Definition lake_erie : Feature :=
  mkFeature {[ "lake_id" := VStr "erie" ]} (Some centre_lake).

Definition t_2024_05_01 : Timestamp := 1714521600000000000%Z.
Definition t_2024_06_01 : Timestamp := 1717200000000000000%Z.
Definition t_2024_06_03 : Timestamp := 1717372800000000000%Z.

(** A dataset with an explicit time axis, coverage attributes for June and a
    file name for July. *)
Definition coverage_june : gmap string string :=
  <["time_coverage_start" := "20240601"]> {[ "time_coverage_end" := "20240603" ]}.

Definition ds_timed : Dataset :=
  mkDataset coverage_june (Some [TDatetime t_2024_05_01; TText "20240502"]) ∅ ∅.

(** The same with a second time value that is no date. *)
Definition ds_bad_time : Dataset :=
  mkDataset coverage_june (Some [TText "20240501"; TText "not a date"]) ∅ ∅.

Definition ds_coverage_only : Dataset := mkDataset coverage_june None ∅ ∅.

Definition july_path : string :=
  "/data/CONUS_DAY/S3M_OLCI_EFRNT.20240701.L3m.DAY.ILW_CONUS.V5.all.CONUS.300m.nc".

Definition undated_name : string := "S3M_OLCI_EFRNT.undated.L3m.DAY.ILW_CONUS.nc".

Definition hdf5_header : list Byte.byte :=
  [Byte.x89; Byte.x48; Byte.x44; Byte.x46; Byte.x0d; Byte.x0a; Byte.x1a; Byte.x0a].

(** A well-formed file without any time information, and one that decodes
    with the second engine only. *)
Definition file_undated : RasterFile :=
  mkRasterFile undated_name (Some hdf5_header) (λ _, Some ds_A).

Definition file_h5_only : RasterFile :=
  mkRasterFile "S3M_OLCI_EFRNT.20240701.L3m.DAY.ILW_CONUS.nc" (Some hdf5_header)
    (λ e, match e with netcdf4 => None | h5netcdf => Some ds_A end).

Definition file_garbage : RasterFile :=
  mkRasterFile "S3M_OLCI_EFRNT.20240702.L3m.DAY.ILW_CONUS.nc"
    (Some [Byte.x00; Byte.x01; Byte.x02; Byte.x03; Byte.x04; Byte.x05; Byte.x06; Byte.x07])
    (λ _, Some ds_A).

(** A Daymet directory in which every file holds two days of every
    variable on the 3 x 3 grid. *)
Definition example_daymet (fname : string) : result DaymetFile :=
  let cube := [nums [[1; 2; 3]; [4; 5; 6]; [7; 8; 9]]%Z;
               nums [[2; 2; 2]; [2; 7; 2]; [2; 2; 2]]%Z] in
  Ok {| dm_lat := Some lat3; dm_lon := Some lon3;
        dm_time := [t_2024_05_01; t_2024_06_01];
        dm_vars := list_to_map ((λ kv : string * string, (kv.1, cube)) <$> VAR_FILES) |}.

Definition lakes_plain : GeoDataFrame :=
  mkGeoDataFrame (Some "EPSG:4326") ["lake_id"] [lake_erie].

(** A layer with a name column in which the name of the lake is missing, and
    a layer without name column in which the id of the lake is missing. *)
Definition lakes_unnamed : GeoDataFrame :=
  mkGeoDataFrame (Some "EPSG:4326") ["lake_id"; "name"]
    [mkFeature (<["lake_id" := VStr "erie"]> {[ "name" := VNone ]}) (Some centre_lake)].

Definition lakes_without_id : GeoDataFrame :=
  mkGeoDataFrame (Some "EPSG:4326") ["lake_id"]
    [mkFeature {[ "lake_id" := VNone ]} (Some centre_lake)].


(** ** [try_open_xarray] *)

(** What [try_open_xarray] does besides returning: the calls of
    [xr.open_dataset], the probe with [h5py.File], and its three messages. *)
Inductive open_event : Type :=
  | OpXarray (e : engine) (name : string)
  | OpH5py (name : string)
  | WarnXarrayOnly (name : string)         (* readable by h5py but not by xarray engines *)
  | WarnUnreadable (name : string) (e3 : exn)   (* not readable even by h5py *)
  | SkipFile (name : string) (e1 e2 : exn).     (* [SKIP] name -> netcdf4:e1 | h5netcdf:e2 *)

(** Opening with one engine: the dataset, or the exception of the engine. *)
Definition decode (fp : RasterFile) (e : engine) : result Dataset :=
  from_some (f_decode fp e) (OSError (f_name fp)).

Section fallback_chain.
(** [h5py.File(fp, "r")]: whether the low-level reader can open the file. *)
Variable h5py_file : RasterFile → result unit.

(** The pair [(ds, engine_used)], or [None] for [(None, None)]. *)
Definition try_open_xarray (fp : RasterFile)
  : list open_event * option (Dataset * engine) :=
  let name := f_name fp in
  match decode fp netcdf4 with
  | Ok ds => ([OpXarray netcdf4 name], Some (ds, netcdf4))
  | Raise e1 =>
      match decode fp h5netcdf with
      | Ok ds => ([OpXarray netcdf4 name; OpXarray h5netcdf name], Some (ds, h5netcdf))
      | Raise e2 =>
          ([OpXarray netcdf4 name; OpXarray h5netcdf name; OpH5py name;
            match h5py_file fp with
            | Ok _ => WarnXarrayOnly name
            | Raise e3 => WarnUnreadable name e3
            end;
            SkipFile name e1 e2],
           None)
      end
  end.
End fallback_chain.

(** ** What a file adds to [out_rows] *)

Section file_contribution.
Variable parse_datetime : string → option Timestamp.
Variable np_nanmean : list float → float.
Variable np_nanquantile : list float → float → float.

(** The engine that extracted the file and the table appended for it, or
    [None] when the file is skipped. *)
Definition file_contribution (daily_dir : string) (gdf : list Feature)
    (lake_id_col : string) (fp : RasterFile) : option (engine * DataFrame) :=
  let attempt_ e :=
    outcome (extract_with parse_datetime np_nanmean np_nanquantile e daily_dir fp
               gdf lake_id_col "daily") in
  match looks_like_hdf5 fp with
  | Ok true =>
      match attempt_ netcdf4 with
      | Ok raw => Some (netcdf4, label_rows (f_name fp) netcdf4 raw)
      | Raise _ =>
          match attempt_ h5netcdf with
          | Ok raw => Some (h5netcdf, label_rows (f_name fp) h5netcdf raw)
          | Raise _ => None
          end
      end
  | _ => None
  end.

(** [out_rows] after the loop over [files]. *)
Definition appended_tables (daily_dir : string) (gdf : list Feature)
    (lake_id_col : string) (files : list RasterFile) : list DataFrame :=
  omap (λ fp, snd <$> file_contribution daily_dir gdf lake_id_col fp) files.
End file_contribution.

(** The calls of [to_parquet] in a trace. *)
Definition written_tables (t : list event) : list (string * DataFrame) :=
  t ≫= (λ ev, match ev with EvToParquet path df => [(path, df)] | _ => [] end).

(** The file names of the [start] lines of a trace. *)
Definition started_files (t : list event) : list string :=
  t ≫= (λ ev, match ev with EvStart name => [name] | _ => [] end).

(** The messages of a run that are not about one file. *)
Definition run_messages (t : list event) : list event :=
  List.filter (λ ev, negb (is_file_event ev)) t.

(** A directory with a file of garbage, a file that only the second engine
    decodes, and a file without any date. *)
Definition world_C : World :=
  mkWorld (Ok lakes_plain) [file_garbage; file_h5_only; file_undated].

(** A variable with [valid_min = 0.001] and cells on both sides of it. *)
Definition da_mixed : DataArray :=
  mkDataArray {[ "valid_min" := Num (1152921504606847 # 1152921504606846976) ]}
    [[Num 0; Num (1 # 2000); Num (1 # 100); NaN; PosInf]].

(** The table of the run over [world_C], and its only row. *)
Definition table_C : DataFrame :=
  assemble (appended_tables to_datetime_ymd exact_mean exact_quantile
              "/data/CONUS_DAY" [lake_erie] "lake_id" (w_files world_C)).

Definition row_C : gmap string value :=
  list_to_map
    [("lake_id", VStr "erie"); ("date", VTime 1719792000000000000%Z);
     ("product", VStr "daily"); ("CI_mean", VFloat (Num 5));
     ("CI_p90", VFloat (Num 5)); ("n_valid", VInt 1);
     ("src", VStr (f_name file_h5_only)); ("engine", VStr "h5netcdf")].

(** A layer without lakes. *)
Definition lakes_none : GeoDataFrame := mkGeoDataFrame (Some "EPSG:4326") ["lake_id"] [].

(** Two features with the same id, the second one far from the grid. *)
Definition far_lake : geometry :=
  [mkPolygon [(10, 10); (11, 10); (11, 11); (10, 11)]%Q []].

Definition lakes_twice : list Feature :=
  [lake_erie; mkFeature {[ "lake_id" := VStr "erie" ]} (Some far_lake)].

(** The keys of the rows of a variable: every lake of the layer with every
    time step, in this order. *)
Definition lake_day_keys (lakes : GeoDataFrame) (name_col : string)
    (times : list Timestamp) : list (list value) :=
  row ← gdf_features lakes;
  t ← times;
  [[cell (ft_attrs row) "lake_id"; cell (ft_attrs row) name_col; VTime t]].

(** ** Date stamps in file names *)

(** The text [.d.L3m.DAY.], with [d] eight digits, occurs in [fn] after [n]
    characters. *)
Definition stamp_at (fn : string) (n : nat) (d : string) : Prop :=
  length (list_ascii_of_string d) = 8%nat
  ∧ forallb is_digit (list_ascii_of_string d) = true
  ∧ ∃ pre post,
      length pre = n
      ∧ list_ascii_of_string fn
        = pre ++ list_ascii_of_string ("." +:+ d +:+ ".L3m.DAY.") ++ post.

(** ** Calendar dates *)

(** [y-m-d] is a day of the calendar. *)
Definition valid_date (y m d : Z) : Prop :=
  (1 <= m <= 12 ∧ 1 <= d <= days_in_month y m)%Z.

(** The days before the year that begins on 1 March of [y]. *)
Definition year_start (y : Z) : Z := (365 * y + y / 4 - y / 100 + y / 400)%Z.

(** The year, month and day of a string of eight digits. *)
Definition ymd_of (s : string) : Z * Z * Z :=
  let cs := list_ascii_of_string s in
  (digits_value (take 4 cs), digits_value (take 2 (drop 4 cs)), digits_value (drop 6 cs)).


(* ===================================================================== *)
(** * Part II. Properties                                                  *)
(* ===================================================================== *)

(** ** Floats *)

Lemma fge_not_flt a b : a ≠ NaN → b ≠ NaN → fge a b = negb (flt a b).
Proof.
  intros Ha Hb. unfold fge, flt.
  destruct a, b; try congruence; simpl; try reflexivity.
  destruct (q ?= q0)%Q; reflexivity.
Qed.

Lemma fle_not_fgt a b : a ≠ NaN → b ≠ NaN → fle a b = negb (fgt a b).
Proof.
  intros Ha Hb. unfold fle, fgt.
  destruct a, b; try congruence; simpl; try reflexivity.
  destruct (q ?= q0)%Q; reflexivity.
Qed.

Lemma fgt_flt a b : fgt a b = flt b a.
Proof.
  unfold fgt, flt. destruct a, b; simpl; try reflexivity.
  rewrite <- (Qcompare_antisym q0 q). destruct (q0 ?= q)%Q; reflexivity.
Qed.

Lemma py_max_fmax a b : py_max a b = fmax a b.
Proof. unfold py_max, fmax. by rewrite fgt_flt. Qed.

(** ** Arrays *)

Lemma where_self_map (f : float → bool) (g : grid float) :
  where_ g (grid_map f g) = grid_map (λ v, if f v then v else NaN) g.
Proof.
  unfold where_, grid_zip_with, grid_map.
  rewrite zip_with_fmap_r, zip_with_diag. apply list_fmap_ext.
  intros _ row _. by rewrite zip_with_fmap_r, zip_with_diag.
Qed.

Lemma grid_map_map {A B C} (f : A → B) (h : B → C) (g : grid A) :
  grid_map h (grid_map f g) = grid_map (h ∘ f) g.
Proof.
  unfold grid_map. rewrite <- list_fmap_compose. apply list_fmap_ext.
  intros _ row _. simpl. by rewrite <- list_fmap_compose.
Qed.

Lemma cell_at_grid_map {A B} (f : A → B) (g : grid A) i j :
  cell_at (grid_map f g) i j = f <$> cell_at g i j.
Proof.
  unfold cell_at, grid_map. rewrite list_lookup_fmap.
  destruct (g !! i) as [row|]; simpl; [|done]. by rewrite list_lookup_fmap.
Qed.

(** ** The validity filter *)


Lemma clean_ci_values da :
  da_values (clean_ci da)
  = grid_map (clean_cell (da_attrs da !! "valid_min") (da_attrs da !! "valid_max"))
      (da_values da).
Proof.
  unfold clean_ci, clean_cell.
  set (vmin := default NaN (da_attrs da !! "valid_min")).
  set (vmax := default NaN (da_attrs da !! "valid_max")).
  destruct da as [attrs vals]; simpl.
  destruct (isfinite vmin), (isfinite vmax); simpl;
    unfold da_where, da_ge, da_le, da_gt; simpl;
    rewrite ?where_self_map, ?grid_map_map; reflexivity.
Qed.

Lemma clean_cell_law valid_min valid_max v :
  clean_cell valid_min valid_max v
  = if excluded valid_min valid_max v then NaN else v.
Proof.
  unfold clean_cell, excluded, threshold, finite_attr. rewrite py_max_fmax.
  destruct valid_min as [[| |qm|]|], valid_max as [[| |qM|]|], v as [| |q|];
    cbv [fmax fgt flt fle fge fcompare isfinite default from_option id orb
         noise_floor];
    repeat match goal with
           | |- context [(?a ?= ?b)%Q] => destruct (a ?= b)%Q eqn:?
           end;
    reflexivity.
Qed.

(** C1. For every cell of the slice given to [clean_ci]: a value below a
    finite [valid_min], above a finite [valid_max], or not above the threshold
    ([max(valid_min, 5e-5)] with a finite [valid_min], [5e-5] otherwise) is
    replaced by the missing value NaN; every other value is kept unchanged. *)
Theorem clean_ci_masking_law (da : DataArray) (i j : nat) :
  cell_at (da_values (clean_ci da)) i j
  = (λ v, if excluded (da_attrs da !! "valid_min") (da_attrs da !! "valid_max") v
          then NaN else v) <$> cell_at (da_values da) i j.
Proof.
  rewrite clean_ci_values, cell_at_grid_map.
  destruct (cell_at (da_values da) i j) as [v|]; simpl; [|done].
  by rewrite clean_cell_law.
Qed.

(** ** Geometry: a point enclosed by a ring lies in the ring's envelope *)

Lemma Qltb_lt x y : Qltb x y = true ↔ (x < y)%Q.
Proof.
  unfold Qltb. rewrite Qlt_alt. destruct (x ?= y)%Q; split; congruence.
Qed.

Lemma Qltb_ge x y : Qltb x y = false ↔ (y <= x)%Q.
Proof.
  unfold Qltb. rewrite Qge_alt. destruct (x ?= y)%Q; split; congruence.
Qed.

Lemma Qleb_le x y : Qleb x y = true ↔ (x <= y)%Q.
Proof. unfold Qleb. rewrite negb_true_iff. apply Qltb_ge. Qed.

Lemma straddles_xorb p a b :
  straddles p a b = xorb (Qltb p.2 a.2) (Qltb p.2 b.2).
Proof.
  unfold straddles, Qleb.
  destruct (Qltb p.2 a.2), (Qltb p.2 b.2); reflexivity.
Qed.

(** Along a path, the number of changes of a boolean has the parity of the
    difference between its two ends. *)
Lemma path_parity {A} (f : A → bool) (z : A) (l : list A) (a : A) :
  foldr xorb false ((λ e, xorb (f e.1) (f e.2)) <$> zip (a :: l) (l ++ [z]))
  = xorb (f a) (f z).
Proof.
  revert a. induction l as [|b l IH]; intros a; simpl.
  - by destruct (f a), (f z).
  - simpl in IH. rewrite IH. by destruct (f a), (f b), (f z).
Qed.

Lemma cycle_parity {A} (f : A → bool) (a : A) (l : list A) :
  foldr xorb false ((λ e, xorb (f e.1) (f e.2)) <$> zip (a :: l) (l ++ [a]))
  = false.
Proof. rewrite path_parity. by destruct (f a). Qed.

Lemma elem_of_edges r a b : (a, b) ∈ edges r → a ∈ r ∧ b ∈ r.
Proof.
  destruct r as [|p ps]; unfold edges; [by intros ?%elem_of_nil|].
  intros H. split.
  - eapply (elem_of_zip_l _ _ (p :: ps)). exact H.
  - apply elem_of_zip_r in H. apply elem_of_app in H as [H|H].
    + by right.
    + apply list_elem_of_singleton in H as ->. by left.
Qed.

Lemma foldr_xorb_false (l : list bool) :
  Forall (λ b, b = false) l → foldr xorb false l = false.
Proof. induction 1 as [|b l -> _ IH]; simpl; [done|]. by rewrite IH. Qed.

Section envelope.
Variables (lox loy hix hiy : Q).

Local Abbreviation box := (in_box lox loy hix hiy).

Lemma in_box_dec q : {box q} + {¬ box q}.
Proof.
  unfold in_box.
  destruct (Qlt_le_dec q.1 lox); [right; lra|].
  destruct (Qlt_le_dec hix q.1); [right; lra|].
  destruct (Qlt_le_dec q.2 loy); [right; lra|].
  destruct (Qlt_le_dec hiy q.2); [right; lra|].
  left; auto.
Qed.

Lemma crosses_left p a b :
  box a → box b → (p.1 < lox)%Q → crosses p a b = straddles p a b.
Proof.
  intros (Ha1 & _ & _) (Hb1 & _ & _) Hp. unfold crosses.
  destruct (straddles p a b) eqn:Hs; simpl; [|done].
  unfold straddles in Hs. apply orb_true_iff in Hs.
  destruct p as [px py], a as [ax ay], b as [bx by_]. unfold orient; simpl in *.
  destruct Hs as [[H1 H2]%andb_true_iff | [H1 H2]%andb_true_iff];
    apply Qltb_lt in H1; apply Qleb_le in H2.
  - assert (Hlt : Qltb by_ ay = true) by (apply Qltb_lt; lra).
    rewrite Hlt. apply Qltb_lt. nra.
  - assert (Hlt : Qltb by_ ay = false) by (apply Qltb_ge; lra).
    rewrite Hlt. apply Qltb_lt. nra.
Qed.

Lemma crosses_right p a b :
  box a → box b → (hix < p.1)%Q → crosses p a b = false.
Proof.
  intros (_ & Ha1 & _) (_ & Hb1 & _) Hp. unfold crosses.
  destruct (straddles p a b) eqn:Hs; simpl; [|done].
  unfold straddles in Hs. apply orb_true_iff in Hs.
  destruct p as [px py], a as [ax ay], b as [bx by_]. unfold orient; simpl in *.
  destruct Hs as [[H1 H2]%andb_true_iff | [H1 H2]%andb_true_iff];
    apply Qltb_lt in H1; apply Qleb_le in H2.
  - assert (Hlt : Qltb by_ ay = true) by (apply Qltb_lt; lra).
    rewrite Hlt. apply Qltb_ge. nra.
  - assert (Hlt : Qltb by_ ay = false) by (apply Qltb_ge; lra).
    rewrite Hlt. apply Qltb_ge. nra.
Qed.

Lemma straddles_outside p a b :
  box a → box b → (p.2 < loy ∨ hiy < p.2)%Q → straddles p a b = false.
Proof.
  intros (_ & _ & Ha1 & Ha2) (_ & _ & Hb1 & Hb2) Hp.
  rewrite straddles_xorb.
  destruct Hp as [Hp|Hp].
  - assert (Qltb p.2 a.2 = true) as -> by (apply Qltb_lt; lra).
    assert (Qltb p.2 b.2 = true) as -> by (apply Qltb_lt; lra). done.
  - assert (Qltb p.2 a.2 = false) as -> by (apply Qltb_ge; lra).
    assert (Qltb p.2 b.2 = false) as -> by (apply Qltb_ge; lra). done.
Qed.

Lemma on_segment_in_box p a b :
  box a → box b → on_segment p a b = true → box p.
Proof.
  intros (Ha1 & Ha2 & Ha3 & Ha4) (Hb1 & Hb2 & Hb3 & Hb4).
  unfold on_segment. rewrite !andb_true_iff, !Qleb_le.
  intros ((((_ & H1) & H2) & H3) & H4). unfold in_box.
  pose proof (Q.min_glb _ _ _ Ha1 Hb1). pose proof (Q.max_lub _ _ _ Ha2 Hb2).
  pose proof (Q.min_glb _ _ _ Ha3 Hb3). pose proof (Q.max_lub _ _ _ Ha4 Hb4).
  repeat split; lra.
Qed.

(** Outside the envelope of its vertices, a ring is crossed an even number
    of times. *)
Lemma crossing_parity_outside r p :
  Forall box r → ¬ box p → crossing_parity r p = false.
Proof.
  intros Hr Hp. unfold crossing_parity.
  assert (Hedges : ∀ e, e ∈ edges r → box e.1 ∧ box e.2).
  { intros [a b] [Ha Hb]%elem_of_edges. rewrite Forall_forall in Hr.
    split; by apply Hr. }
  destruct (Qlt_le_dec p.2 loy) as [Hy1|Hy1];
    [|destruct (Qlt_le_dec hiy p.2) as [Hy2|Hy2]];
    [| |destruct (Qlt_le_dec hix p.1) as [Hx2|Hx2]].
  - apply foldr_xorb_false, Forall_fmap, Forall_forall.
    intros e [Ha Hb]%Hedges. simpl. unfold crosses.
    rewrite (straddles_outside p e.1 e.2); auto.
  - apply foldr_xorb_false, Forall_fmap, Forall_forall.
    intros e [Ha Hb]%Hedges. simpl. unfold crosses.
    rewrite (straddles_outside p e.1 e.2); auto.
  - apply foldr_xorb_false, Forall_fmap, Forall_forall.
    intros e [Ha Hb]%Hedges. simpl. by apply crosses_right.
  - assert (Hx1 : (p.1 < lox)%Q).
    { destruct (Qlt_le_dec p.1 lox); [done|]. exfalso. apply Hp.
      unfold in_box. auto. }
    rewrite (list_fmap_ext (λ e, crosses p e.1 e.2)
               (λ e, xorb (Qltb p.2 e.1.2) (Qltb p.2 e.2.2)) (edges r)).
    + destruct r as [|q qs]; [done|]. unfold edges.
      apply (cycle_parity (λ q, Qltb p.2 q.2)).
    + intros i e He%list_elem_of_lookup_2. apply Hedges in He as [Ha Hb].
      rewrite crosses_left; auto. apply straddles_xorb.
Qed.

Lemma ring_in_box r p :
  Forall box r → inside_ring r p || on_ring r p = true → box p.
Proof.
  intros Hr [H|H]%orb_true_iff.
  - apply andb_true_iff in H as [_ H].
    destruct (in_box_dec p) as [?|Hn]; [done|].
    by rewrite (crossing_parity_outside r p Hr Hn) in H.
  - unfold on_ring in H. apply existsb_exists in H as ([a b] & He & H).
    apply list_elem_of_In, elem_of_edges in He as [Ha Hb].
    rewrite Forall_forall in Hr. simpl in H.
    apply (on_segment_in_box p a b); auto.
Qed.
End envelope.

Lemma foldr_Qmin_le (a : Q) (l : list Q) :
  (foldr Qmin a l <= a)%Q ∧ Forall (λ x, (foldr Qmin a l <= x)%Q) l.
Proof.
  induction l as [|x l [IH1 IH2]]; simpl; [split; [lra | constructor]|].
  pose proof (Q.le_min_l x (foldr Qmin a l)).
  pose proof (Q.le_min_r x (foldr Qmin a l)).
  split; [lra|]. constructor; [done|].
  eapply Forall_impl; [exact IH2|]. simpl. intros; lra.
Qed.

Lemma foldr_Qmax_ge (a : Q) (l : list Q) :
  (a <= foldr Qmax a l)%Q ∧ Forall (λ x, (x <= foldr Qmax a l)%Q) l.
Proof.
  induction l as [|x l [IH1 IH2]]; simpl; [split; [lra | constructor]|].
  pose proof (Q.le_max_l x (foldr Qmax a l)).
  pose proof (Q.le_max_r x (foldr Qmax a l)).
  split; [lra|]. constructor; [done|].
  eapply Forall_impl; [exact IH2|]. simpl. intros; lra.
Qed.

(** [bounds] is the envelope of the exterior rings. *)
Lemma bounds_envelope (g : geometry) (q : point) :
  q ∈ shell_points g →
  ∃ minx miny maxx maxy,
    bounds g = (Num minx, Num miny, Num maxx, Num maxy)
    ∧ Forall (in_box minx miny maxx maxy) (shell_points g).
Proof.
  unfold bounds. destruct (shell_points g) as [|p ps]; [by intros ?%elem_of_nil|].
  intros _. do 4 eexists. split; [reflexivity|].
  destruct (foldr_Qmin_le p.1 ps.*1) as [X1 X2], (foldr_Qmin_le p.2 ps.*2) as [Y1 Y2].
  destruct (foldr_Qmax_ge p.1 ps.*1) as [X3 X4], (foldr_Qmax_ge p.2 ps.*2) as [Y3 Y4].
  rewrite Forall_fmap in X2, Y2, X4, Y4.
  constructor; [done|].
  rewrite Forall_forall in X2, Y2, X4, Y4. apply Forall_forall. intros r Hr.
  specialize (X2 r Hr). specialize (Y2 r Hr). specialize (X4 r Hr).
  specialize (Y4 r Hr). simpl in *. done.
Qed.

Lemma polygon_contains_covers pg p :
  polygon_contains pg p = true → polygon_covers pg p = true.
Proof.
  unfold polygon_contains, polygon_covers.
  intros [H1 H2]%andb_true_iff. rewrite H1. simpl.
  rewrite forallb_forall in H2. apply forallb_forall. intros h Hh.
  specialize (H2 h Hh). by destruct (inside_ring h p).
Qed.

Lemma contains_covers g p : contains g p = true → covers g p = true.
Proof.
  unfold contains, covers. rewrite !existsb_exists.
  intros (pg & Hin & H). exists pg. auto using polygon_contains_covers.
Qed.

(** A point covered by the geometry lies in [geom.bounds]. *)
Lemma covers_in_bounds (g : geometry) (p : point) :
  covers g p = true →
  ∃ minx miny maxx maxy,
    bounds g = (Num minx, Num miny, Num maxx, Num maxy)
    ∧ in_box minx miny maxx maxy p.
Proof.
  unfold covers. rewrite existsb_exists. intros (pg & Hin & H).
  apply list_elem_of_In in Hin.
  apply andb_true_iff in H as [H _].
  assert (Hsub : ∀ q, q ∈ exterior pg → q ∈ shell_points g).
  { intros q Hq. unfold shell_points. apply list_elem_of_bind. eauto. }
  assert (Hne : ∃ q, q ∈ exterior pg).
  { destruct (exterior pg) as [|q qs] eqn:E; [|exists q; by left].
    by rewrite ?E in H. }
  destruct Hne as [q Hq].
  destruct (bounds_envelope g q (Hsub q Hq)) as (minx & miny & maxx & maxy & Hb & Hall).
  exists minx, miny, maxx, maxy. split; [done|].
  apply (ring_in_box _ _ _ _ (exterior pg)); [|done].
  rewrite Forall_forall in Hall. apply Forall_forall. auto.
Qed.

(** ** The bounding-box selector *)

Lemma cell_at_grid_zip_with {A B C} (f : A → B → C) (g : grid A) (h : grid B) i j :
  cell_at (grid_zip_with f g h) i j
  = a ← cell_at g i j; b ← cell_at h i j; Some (f a b).
Proof.
  unfold cell_at, grid_zip_with. rewrite lookup_zip_with.
  destruct (g !! i) as [r|]; simpl; [|done].
  destruct (h !! i) as [r'|]; simpl.
  - rewrite lookup_zip_with. done.
  - by destruct (r !! j).
Qed.

Lemma cell_at_bbox_mask lon lat minx miny maxx maxy i j x y :
  cell_at lon i j = Some x → cell_at lat i j = Some y →
  cell_at (bbox_mask lon lat (minx, miny, maxx, maxy)) i j
  = Some (fge x minx && fle x maxx && fge y miny && fle y maxy).
Proof.
  intros Hx Hy. unfold bbox_mask, grid_and.
  rewrite !cell_at_grid_zip_with, !cell_at_grid_map, Hx, Hy. done.
Qed.

Lemma fge_Num x y : fge (Num x) (Num y) = true ↔ (y <= x)%Q.
Proof.
  unfold fge; simpl. rewrite Qle_alt, <- (Qcompare_antisym x y).
  destruct (x ?= y)%Q; simpl; split; congruence.
Qed.

Lemma fle_Num x y : fle (Num x) (Num y) = true ↔ (x <= y)%Q.
Proof.
  unfold fle; simpl. rewrite Qle_alt. destruct (x ?= y)%Q; split; congruence.
Qed.

Lemma bbox_mask_covers (g : geometry) (lon lat : grid float) (i j : nat) (x y : Q) :
  cell_at lon i j = Some (Num x) →
  cell_at lat i j = Some (Num y) →
  covers g (x, y) = true →
  cell_at (bbox_mask lon lat (bounds g)) i j = Some true.
Proof.
  intros Hx Hy (minx & miny & maxx & maxy & -> & B1 & B2 & B3 & B4)%covers_in_bounds.
  rewrite (cell_at_bbox_mask _ _ _ _ _ _ _ _ _ _ Hx Hy). simpl in *.
  apply fge_Num in B1. apply fle_Num in B2. apply fge_Num in B3. apply fle_Num in B4.
  by rewrite B1, B2, B3, B4.
Qed.

(** C2. For every lake geometry and every coordinate grid, a grid cell whose
    point [(lon, lat)] lies inside the geometry is selected by the
    bounding-box selector built from [geom.bounds]: no false exclusion. *)
Theorem bbox_selector_superset
    (g : geometry) (lon lat : grid float) (i j : nat) (x y : Q) :
  cell_at lon i j = Some (Num x) →
  cell_at lat i j = Some (Num y) →
  contains g (x, y) = true →
  cell_at (bbox_mask lon lat (bounds g)) i j = Some true.
Proof.
  intros Hx Hy Hc. eapply bbox_mask_covers; eauto using contains_covers.
Qed.


(** ** The result monad *)

Lemma bind_Ok_inv {A B} (f : A → result B) (m : result A) (b : B) :
  m ≫= f = Ok b → ∃ a, m = Ok a ∧ f a = Ok b.
Proof. destruct m as [a|e]; [eauto | discriminate]. Qed.

Lemma from_some_Ok {A} (o : option A) (e : exn) (a : A) :
  from_some o e = Ok a → o = Some a.
Proof. destruct o; simpl; congruence. Qed.

Lemma mapM_Ok {A B} (f : A → result B) (l : list A) (k : list B) :
  mapM f l = Ok k ↔ Forall2 (λ x y, f x = Ok y) l k.
Proof.
  revert k. induction l as [|x l IH]; intros k; simpl.
  - split; [intros [= <-]; constructor | by inversion 1].
  - split.
    + intros (y & Hy & H)%bind_Ok_inv. apply bind_Ok_inv in H as (k' & Hk & [= <-]).
      constructor; [done|]. by apply IH.
    + inversion 1 as [|? y ? k' Hy Hk]; subst. rewrite Hy. simpl.
      apply IH in Hk. unfold mbind in Hk |- *. by rewrite Hk.
Qed.

Lemma mapM_total {A B} (f : A → result B) (l : list A) :
  Forall (λ x, ∃ y, f x = Ok y) l → ∃ k, mapM f l = Ok k.
Proof.
  induction 1 as [|x l [y Hy] _ [k Hk]]; [by exists []|].
  exists (y :: k). apply mapM_Ok. constructor; [done|]. by apply mapM_Ok.
Qed.

(** ** The per-time-step reducer *)

Lemma filter_where_row (ex : float → bool) (vs : list float) (ms : list bool) :
  List.filter isfinite
    (zip_with (λ v (c : bool), if c then v else NaN)
       ((λ v, if ex v then NaN else v) <$> vs) ms)
  = List.filter (λ v, negb (ex v) && isfinite v)
      (fst <$> List.filter snd (zip_with pair vs ms)).
Proof.
  revert ms. induction vs as [|v vs IH]; intros [|m ms]; simpl; try done.
  rewrite IH. destruct m; simpl; [|done].
  destruct (ex v); simpl; [done|]. by destruct (isfinite v).
Qed.

Lemma finite_where_clean (ex : float → bool) (vals : grid float) (mask : grid bool) :
  finite_values (where_ (grid_map (λ v, if ex v then NaN else v) vals) mask)
  = List.filter (λ v, negb (ex v) && isfinite v) (selected_cells vals mask).
Proof.
  unfold finite_values, where_, selected_cells, grid_zip_with, grid_map.
  revert mask. induction vals as [|row vals IH]; intros [|mrow mask]; simpl; try done.
  rewrite !List.filter_app, fmap_app, List.filter_app, IH.
  by rewrite filter_where_row.
Qed.

Lemma finite_values_clean_ci (da : DataArray) (mask : grid bool) :
  finite_values (where_ (da_values (clean_ci da)) mask) = remaining_cells da mask.
Proof.
  rewrite clean_ci_values. unfold remaining_cells.
  rewrite <- finite_where_clean. f_equal. f_equal. unfold grid_map.
  apply list_fmap_ext. intros _ row _. apply list_fmap_ext. intros _ v _.
  apply clean_cell_law.
Qed.

Lemma shape_grid_map {A B} (f : A → B) (g : grid A) :
  shape (grid_map f g) = shape g.
Proof.
  unfold shape, grid_map. rewrite length_fmap.
  destruct g as [|r g]; simpl; [done|]. by rewrite length_fmap.
Qed.

Lemma shape_clean_ci da : shape (da_values (clean_ci da)) = shape (da_values da).
Proof. rewrite clean_ci_values. apply shape_grid_map. Qed.

Section reducer_properties.
Variable np_nanmean : list float → float.
Variable np_nanquantile : list float → float → float.

Local Abbreviation reports := (row_reports np_nanmean np_nanquantile).

Lemma lake_stats_clean_ci da lon lat geom :
  lake_stats np_nanmean np_nanquantile (clean_ci da) lon lat geom
  = let cells := remaining_cells da (bbox_mask lon lat (bounds geom)) in
    match cells with
    | [] => (NaN, NaN, 0%nat)
    | _ => (np_nanmean cells, np_nanquantile cells q90, length cells)
    end.
Proof.
  unfold lake_stats. rewrite finite_values_clean_ci.
  by destruct (remaining_cells da _).
Qed.


Lemma lake_row_reports da lon lat nc_path lake_id_col product time_label engine r lid geom :
  ft_attrs r !! lake_id_col = Some lid →
  ft_geometry r = Some geom →
  ∃ row,
    lake_row np_nanmean np_nanquantile (clean_ci da) lon lat nc_path lake_id_col
      product time_label engine r = Ok row
    ∧ row !! "lake_id" = Some lid
    ∧ reports (remaining_cells da (bbox_mask lon lat (bounds geom))) row.
Proof.
  intros Hid Hgeom. unfold lake_row. rewrite Hid, Hgeom. simpl.
  rewrite lake_stats_clean_ci. simpl.
  destruct (remaining_cells da _) as [|c cells] eqn:E; eexists;
    (split; [reflexivity|]); unfold row_reports;
    repeat split; try done.
Qed.

(** C3. For every lake and time step: the row of the lake is emitted
    whatever its cells are; when no finite cell remains after the validity
    filter and the selector, its mean and its 90th percentile are null (NaN)
    and [n_valid] is 0; otherwise [n_valid] is the number of the remaining
    finite cells, and the mean and the percentile are taken over exactly
    those cells. *)
Theorem reducer_rows
    (ds : Dataset) (da lat lon : DataArray) (nc_path : string)
    (lakes_gdf : list Feature) (lake_id_col product : string)
    (time_label : Timestamp) (engine : string) :
  ds_data_vars ds !! "CI_cyano" = Some da →
  ds_variable ds "lat" = Some lat →
  ds_variable ds "lon" = Some lon →
  shape (da_values lat) = shape (da_values da) →
  shape (da_values lon) = shape (da_values da) →
  Forall (λ r, is_Some (ft_attrs r !! lake_id_col) ∧ is_Some (ft_geometry r))
    lakes_gdf →
  ∃ rows,
    _extract_lakes_core_from_ds np_nanmean np_nanquantile ds nc_path lakes_gdf
      lake_id_col product time_label engine
    = Ok (pd_DataFrame core_columns rows)
    ∧ Forall2
        (λ r row, ∃ lid geom,
           ft_attrs r !! lake_id_col = Some lid
           ∧ ft_geometry r = Some geom
           ∧ row !! "lake_id" = Some lid
           ∧ reports
               (remaining_cells da
                  (bbox_mask (da_values lon) (da_values lat) (bounds geom)))
               row)
        lakes_gdf rows.
Proof.
  intros Hda Hlat Hlon Hs1 Hs2 Hlakes.
  unfold _extract_lakes_core_from_ds. rewrite Hda, Hlat, Hlon.
  cbn [from_some mbind result_bind].
  rewrite shape_clean_ci, bool_decide_true by done.
  assert (Hrows : ∃ rows,
    Forall2 (λ r row,
      lake_row np_nanmean np_nanquantile (clean_ci da) (da_values lon)
        (da_values lat) nc_path lake_id_col product time_label engine r = Ok row
      ∧ ∃ lid geom,
          ft_attrs r !! lake_id_col = Some lid
          ∧ ft_geometry r = Some geom
          ∧ row !! "lake_id" = Some lid
          ∧ reports
              (remaining_cells da
                 (bbox_mask (da_values lon) (da_values lat) (bounds geom)))
              row) lakes_gdf rows).
  { induction Hlakes as [|r l [[lid Hid] [geom Hgeom]] _ [rows IH]].
    - exists []. constructor.
    - destruct (lake_row_reports da (da_values lon) (da_values lat) nc_path
                  lake_id_col product time_label engine r lid geom Hid Hgeom)
        as (row & Hrow & Hlid & Hrep).
      exists (row :: rows). constructor; [|done]. split; [done|]. eauto 10. }
  destruct Hrows as [rows Hrows]. exists rows. split.
  - assert (Hm : mapM (lake_row np_nanmean np_nanquantile (clean_ci da)
              (da_values lon) (da_values lat) nc_path lake_id_col product
              time_label engine) lakes_gdf = Ok rows).
    { apply mapM_Ok. eapply Forall2_impl; [exact Hrows|]. by intros ?? [? _]. }
    by rewrite Hm.
  - eapply Forall2_impl; [exact Hrows|]. by intros ?? [_ ?].
Qed.
End reducer_properties.

(** ** Timestamp inference *)

Section inference_properties.
Variable parse_datetime : string → option Timestamp.

Lemma to_datetime_array_cons v vs t :
  to_datetime_value parse_datetime v = Ok t →
  Forall (λ v', ∃ t', to_datetime_value parse_datetime v' = Ok t') vs →
  ∃ tt, to_datetime_array parse_datetime (v :: vs) = Ok (t :: tt).
Proof.
  intros Hv Hvs. destruct (mapM_total _ _ Hvs) as [tt Htt].
  exists tt. apply mapM_Ok. constructor; [done|]. by apply mapM_Ok.
Qed.

Lemma time_from_coordinate_first ds vs t tt :
  ds_time ds = Some vs →
  to_datetime_array parse_datetime vs = Ok (t :: tt) →
  time_from_coordinate parse_datetime ds = Some t.
Proof. intros Hvs Htt. unfold time_from_coordinate. by rewrite Hvs, Htt. Qed.

(** C4, amended. When the dataset has an explicit time coordinate whose
    values all convert to timestamps, [infer_time_label] returns the first
    of them, whatever the coverage attributes, the file name and the
    product are: the explicit coordinate wins over the two other methods. *)
Theorem infer_time_label_explicit_time_wins
    (nc_path : string) (ds : Dataset) (product : string)
    (v : tvalue) (vs : list tvalue) (t : Timestamp) :
  ds_time ds = Some (v :: vs) →
  to_datetime_value parse_datetime v = Ok t →
  Forall (λ v', ∃ t', to_datetime_value parse_datetime v' = Ok t') vs →
  infer_time_label parse_datetime nc_path ds product = Ok t.
Proof.
  intros Hds Hv Hvs.
  destruct (to_datetime_array_cons v vs t Hv Hvs) as [tt Htt].
  unfold infer_time_label.
  by rewrite (time_from_coordinate_first ds _ t tt Hds Htt).
Qed.

Lemma time_from_coverage_parsed ds product s e ts te :
  coverage_start ds = Some s → s ≠ "" →
  coverage_end ds = Some e → e ≠ "" →
  parse_datetime s = Some ts →
  parse_datetime e = Some te →
  time_from_coverage parse_datetime ds product
  = Some (if String.eqb product "monthly" then midpoint ts te else ts).
Proof.
  intros Hs Hs' He He' Hts Hte. unfold time_from_coverage.
  rewrite Hs, He. simpl.
  apply String.eqb_neq in Hs', He'. rewrite Hs', He'. simpl.
  unfold to_datetime_attr. simpl. rewrite Hts, Hte. simpl.
  by destruct (String.eqb product "monthly").
Qed.

(** C5. When the explicit time coordinate yields no timestamp:
    with start and end coverage attributes that both parse, the result is
    the midpoint [start + (end - start) / 2] for the monthly product and the
    start otherwise (the daily product); when the coverage attributes yield
    nothing, the result comes from the file name: the midpoint of the two
    embedded 8-digit dates for the monthly product, the single embedded
    8-digit date otherwise. *)
Theorem infer_time_label_fallbacks
    (nc_path : string) (ds : Dataset) (product : string) :
  time_from_coordinate parse_datetime ds = None →
  (∀ s e ts te,
     coverage_start ds = Some s → s ≠ "" →
     coverage_end ds = Some e → e ≠ "" →
     parse_datetime s = Some ts → parse_datetime e = Some te →
     infer_time_label parse_datetime nc_path ds product
     = Ok (if String.eqb product "monthly" then ts + (te - ts) `quot` 2 else ts)%Z)
  ∧ (time_from_coverage parse_datetime ds product = None →
     (product = "monthly" →
      ∀ b e ts te,
        monthly_groups (last_component nc_path) = Some (b, e) →
        to_datetime_ymd b = Some ts → to_datetime_ymd e = Some te →
        infer_time_label parse_datetime nc_path ds product
        = Ok (ts + (te - ts) `quot` 2)%Z)
     ∧ (product ≠ "monthly" →
        ∀ d t,
          daily_group (last_component nc_path) = Some d →
          to_datetime_ymd d = Some t →
          infer_time_label parse_datetime nc_path ds product = Ok t)).
Proof.
  intros H1. unfold infer_time_label. rewrite H1. split.
  - intros s e ts te Hs Hs' He He' Hts Hte.
    by rewrite (time_from_coverage_parsed ds product s e ts te).
  - intros H2. rewrite H2. unfold time_from_filename, to_datetime_digits. split.
    + intros -> b e ts te Hm Hb He. simpl. by rewrite Hm, Hb, He.
    + intros Hp%String.eqb_neq d t Hm Hd. by rewrite Hp, Hm, Hd.
Qed.

(** When none of the three methods yields a timestamp, an exception is
    raised. *)
Lemma infer_time_label_raises nc_path ds product :
  time_from_coordinate parse_datetime ds = None →
  time_from_coverage parse_datetime ds product = None →
  attempt (time_from_filename (last_component nc_path) product) = None →
  ∃ e, infer_time_label parse_datetime nc_path ds product = Raise e.
Proof.
  intros H1 H2 H3. unfold infer_time_label. rewrite H1, H2.
  destruct (time_from_filename _ _) as [t|e]; [done | eauto].
Qed.
End inference_properties.

(** ** Computations with a trace *)

Lemma io_bind_emit {B} (ev : event) (k : unit → io B) :
  (emit ev ≫= k) = IO (ev :: trace (k tt)) (outcome (k tt)).
Proof. reflexivity. Qed.

Lemma io_bind_lift_Ok {A B} (a : A) (k : A → io B) :
  (lift (Ok a) ≫= k) = IO (trace (k a)) (outcome (k a)).
Proof. reflexivity. Qed.

Lemma io_eta {A} (m : io A) : IO (trace m) (outcome m) = m.
Proof. by destruct m. Qed.

(** ** The file loop of [run_daily] *)

Lemma looks_like_hdf5_is_bool (path : RasterFile) :
  ∃ b, looks_like_hdf5 path = Ok b.
Proof.
  unfold looks_like_hdf5, read_prefix.
  destruct (f_bytes path) as [bs|]; simpl; eauto.
Qed.

Lemma startswith_take (n : nat) (s p : list Byte.byte) :
  (length p <= n)%nat → startswith (take n s) p = startswith s p.
Proof.
  revert n s. induction p as [|b p IH]; intros n s Hn; simpl.
  - by destruct (take n s), s.
  - simpl in Hn. destruct n as [|n]; [lia|].
    destruct s as [|c s]; simpl; [done|]. rewrite IH by lia. done.
Qed.

Lemma looks_like_hdf5_bytes (path : RasterFile) (bs : list Byte.byte) :
  f_bytes path = Some bs → looks_like_hdf5 path = Ok (has_magic bs).
Proof.
  intros H. unfold looks_like_hdf5, read_prefix, has_magic. rewrite H. simpl.
  rewrite !startswith_take by (simpl; lia). done.
Qed.

Lemma looks_like_hdf5_unreadable (path : RasterFile) :
  f_bytes path = None → looks_like_hdf5 path = Ok false.
Proof. intros H. unfold looks_like_hdf5, read_prefix. by rewrite H. Qed.

Section loop_properties.
Variable parse_datetime : string → option Timestamp.
Variable np_nanmean : list float → float.
Variable np_nanquantile : list float → float → float.

Local Abbreviation extract := (extract_with parse_datetime np_nanmean np_nanquantile).
Local Abbreviation process := (process_file parse_datetime np_nanmean np_nanquantile).
Local Abbreviation loop := (file_loop parse_datetime np_nanmean np_nanquantile).
Local Abbreviation run := (run_daily parse_datetime np_nanmean np_nanquantile).

Lemma extract_with_trace e daily_dir fp gdf col product :
  trace (extract e daily_dir fp gdf col product) = [EvOpenDataset e (f_name fp)].
Proof.
  unfold extract_with, open_dataset.
  by destruct (f_decode fp e).
Qed.

Lemma extract_with_outcome e daily_dir fp gdf col product :
  outcome (extract e daily_dir fp gdf col product)
  = (ds ← from_some (f_decode fp e) (OSError (f_name fp));
     t ← infer_time_label parse_datetime (daily_dir +:+ "/" +:+ f_name fp) ds product;
     _extract_lakes_core_from_ds np_nanmean np_nanquantile ds
       (daily_dir +:+ "/" +:+ f_name fp) gdf col product t (engine_name e)).
Proof.
  unfold extract_with, open_dataset.
  by destruct (f_decode fp e).
Qed.

(** The four ways through the body of the loop. *)
Lemma process_file_cases daily_dir gdf col out_rows fp :
  let name := f_name fp in
  let attempt_ e := outcome (extract e daily_dir fp gdf col "daily") in
  (looks_like_hdf5 fp = Ok false
   ∧ process daily_dir gdf col out_rows fp
     = IO [EvStart name; EvSkipHeader name] (Ok out_rows))
  ∨ (∃ raw,
       looks_like_hdf5 fp = Ok true ∧ attempt_ netcdf4 = Ok raw
       ∧ process daily_dir gdf col out_rows fp
         = IO [EvStart name; EvOpenDataset netcdf4 name;
               EvDone name netcdf4 (length (df_rows (label_rows name netcdf4 raw)))]
             (Ok (out_rows ++ [label_rows name netcdf4 raw])))
  ∨ (∃ e1 raw,
       looks_like_hdf5 fp = Ok true ∧ attempt_ netcdf4 = Raise e1
       ∧ attempt_ h5netcdf = Ok raw
       ∧ process daily_dir gdf col out_rows fp
         = IO [EvStart name; EvOpenDataset netcdf4 name;
               EvEngineFailed netcdf4 name e1; EvOpenDataset h5netcdf name;
               EvDone name h5netcdf (length (df_rows (label_rows name h5netcdf raw)))]
             (Ok (out_rows ++ [label_rows name h5netcdf raw])))
  ∨ (∃ e1 e2,
       looks_like_hdf5 fp = Ok true ∧ attempt_ netcdf4 = Raise e1
       ∧ attempt_ h5netcdf = Raise e2
       ∧ process daily_dir gdf col out_rows fp
         = IO [EvStart name; EvOpenDataset netcdf4 name;
               EvEngineFailed netcdf4 name e1; EvOpenDataset h5netcdf name;
               EvEngineFailed h5netcdf name e2]
             (Ok out_rows)).
Proof.
  intros name attempt_.
  unfold process_file, extract_lakes_from_nc, _extract_one_with_h5netcdf.
  pose proof (extract_with_trace netcdf4 daily_dir fp gdf col "daily") as T1.
  pose proof (extract_with_trace h5netcdf daily_dir fp gdf col "daily") as T2.
  subst attempt_. cbv beta.
  destruct (extract netcdf4 daily_dir fp gdf col "daily") as [t1 o1].
  destruct (extract h5netcdf daily_dir fp gdf col "daily") as [t2 o2].
  simpl in T1, T2. subst t1 t2.
  destruct (looks_like_hdf5_is_bool fp) as [[|] ->]; [|left; done].
  right. destruct o1 as [raw|e1]; [left; exists raw; done|].
  right. destruct o2 as [raw|e2]; [left; exists e1, raw; done|].
  right. exists e1, e2. done.
Qed.

Lemma process_file_total daily_dir gdf col out_rows fp :
  ∃ t out', process daily_dir gdf col out_rows fp = IO t (Ok out').
Proof.
  destruct (process_file_cases daily_dir gdf col out_rows fp)
    as [[_ ->] | [(? & _ & _ & ->) | [(? & ? & _ & _ & _ & ->) | (? & ? & _ & _ & _ & ->)]]];
    eauto.
Qed.

Lemma file_loop_cons daily_dir gdf col fp rest out_rows t out' :
  process daily_dir gdf col out_rows fp = IO t (Ok out') →
  loop daily_dir gdf col (fp :: rest) out_rows
  = IO (t ++ trace (loop daily_dir gdf col rest out'))
      (outcome (loop daily_dir gdf col rest out')).
Proof.
  intros H.
  change (loop daily_dir gdf col (fp :: rest) out_rows)
    with (process daily_dir gdf col out_rows fp ≫= loop daily_dir gdf col rest).
  unfold mbind, io_bind. by rewrite H.
Qed.

Lemma file_loop_total daily_dir gdf col files out_rows :
  ∃ t out', loop daily_dir gdf col files out_rows = IO t (Ok out').
Proof.
  revert out_rows. induction files as [|fp rest IH]; intros out_rows.
  - by exists [], out_rows.
  - destruct (process_file_total daily_dir gdf col out_rows fp) as (t & out1 & H).
    destruct (IH out1) as (t' & out2 & H').
    exists (t ++ t'), out2. rewrite (file_loop_cons _ _ _ _ _ _ _ _ H). by rewrite H'.
Qed.

Lemma file_loop_app daily_dir gdf col pre files out_rows t out1 :
  loop daily_dir gdf col pre out_rows = IO t (Ok out1) →
  loop daily_dir gdf col (pre ++ files) out_rows
  = IO (t ++ trace (loop daily_dir gdf col files out1))
      (outcome (loop daily_dir gdf col files out1)).
Proof.
  revert out_rows t. induction pre as [|fp pre IH]; intros out_rows t H.
  - injection H as <- <-. simpl. apply eq_sym, io_eta.
  - destruct (process_file_total daily_dir gdf col out_rows fp) as (t0 & out0 & H0).
    rewrite (file_loop_cons _ _ _ _ _ _ _ _ H0) in H.
    destruct (file_loop_total daily_dir gdf col pre out0) as (t' & out' & H').
    rewrite H' in H. simpl in H. injection H as <- <-.
    rewrite <- app_comm_cons, (file_loop_cons _ _ _ _ _ _ _ _ H0).
    rewrite (IH _ _ H'). simpl. by rewrite app_assoc.
Qed.

Lemma process_file_skips_header daily_dir gdf col out_rows fp :
  looks_like_hdf5 fp = Ok false →
  process daily_dir gdf col out_rows fp
  = IO [EvStart (f_name fp); EvSkipHeader (f_name fp)] (Ok out_rows).
Proof.
  intros H.
  destruct (process_file_cases daily_dir gdf col out_rows fp)
    as [[_ ->] | [(? & H' & _) | [(? & ? & H' & _) | (? & ? & H' & _)]]];
    [done | congruence..].
Qed.

Lemma label_rows_engine name e raw :
  Forall (λ row, row !! "engine" = Some (VStr (engine_name e)))
    (df_rows (label_rows name e raw)).
Proof.
  unfold label_rows, df_assign. simpl. apply Forall_fmap, Forall_true.
  intros row. simpl. apply lookup_insert_eq.
Qed.

(** C6. A file whose leading bytes are not a known magic number (or that
    cannot be read) gets no decoding attempt at all: the loop prints the
    skip diagnostic and goes on with the remaining files, with [out_rows]
    as it was.  A file that passes the signature check and is extracted has
    exactly one engine that succeeded, every other engine that was tried
    on it failed, and every row of its table carries that engine in the
    [engine] column. *)
Theorem signature_gate_and_engine
    (daily_dir : string) (gdf : list Feature) (lake_id_col : string)
    (pre rest : list RasterFile) (fp : RasterFile) (out_rows : list DataFrame) :
  ∃ t1 out1,
    loop daily_dir gdf lake_id_col pre out_rows = IO t1 (Ok out1)
    ∧ ((∀ bs, f_bytes fp = Some bs → has_magic bs = false) →
       process daily_dir gdf lake_id_col out1 fp
       = IO [EvStart (f_name fp); EvSkipHeader (f_name fp)] (Ok out1)
       ∧ opened_engines (f_name fp)
           (trace (process daily_dir gdf lake_id_col out1 fp)) = []
       ∧ loop daily_dir gdf lake_id_col (pre ++ fp :: rest) out_rows
         = IO (t1 ++ [EvStart (f_name fp); EvSkipHeader (f_name fp)]
                  ++ trace (loop daily_dir gdf lake_id_col rest out1))
             (outcome (loop daily_dir gdf lake_id_col rest out1)))
    ∧ ((∃ bs, f_bytes fp = Some bs ∧ has_magic bs = true) →
       ∀ df_one,
         outcome (process daily_dir gdf lake_id_col out1 fp) = Ok (out1 ++ [df_one]) →
         ∃ e raw,
           outcome (extract e daily_dir fp gdf lake_id_col "daily") = Ok raw
           ∧ df_one = label_rows (f_name fp) e raw
           ∧ done_engines (f_name fp)
               (trace (process daily_dir gdf lake_id_col out1 fp)) = [e]
           ∧ (∀ e', e' ∈ opened_engines (f_name fp)
                        (trace (process daily_dir gdf lake_id_col out1 fp)) →
                    e' ≠ e →
                    ∃ err, outcome (extract e' daily_dir fp gdf lake_id_col "daily")
                           = Raise err)
           ∧ Forall (λ row, row !! "engine" = Some (VStr (engine_name e)))
               (df_rows df_one)).
Proof.
  destruct (file_loop_total daily_dir gdf lake_id_col pre out_rows) as (t1 & out1 & Hpre).
  exists t1, out1. split; [done|]. split.
  - intros Hsig.
    assert (Hl : looks_like_hdf5 fp = Ok false).
    { destruct (f_bytes fp) as [bs|] eqn:E.
      - rewrite (looks_like_hdf5_bytes fp bs E). by rewrite (Hsig bs).
      - by apply looks_like_hdf5_unreadable. }
    pose proof (process_file_skips_header daily_dir gdf lake_id_col out1 fp Hl) as Hp.
    split; [done|]. split.
    + rewrite Hp. simpl. done.
    + rewrite (file_loop_app _ _ _ _ _ _ _ _ Hpre).
      by rewrite (file_loop_cons _ _ _ _ _ _ _ _ Hp).
  - intros (bs & Hbs & Hmagic) df_one Hout.
    pose proof (looks_like_hdf5_bytes fp bs Hbs) as Hl. rewrite Hmagic in Hl.
    destruct (process_file_cases daily_dir gdf lake_id_col out1 fp)
      as [[Hl' _] | [(raw & _ & Hnc & Hp) | [(e1 & raw & _ & Hnc & Hh5 & Hp)
                                            | (e1 & e2 & _ & _ & _ & Hp)]]].
    + congruence.
    + rewrite Hp in Hout |- *. simpl in Hout. injection Hout as Hout.
      apply app_inv_head in Hout. injection Hout as <-.
      exists netcdf4, raw. repeat split; auto using label_rows_engine.
      * simpl. by rewrite String.eqb_refl.
      * simpl. rewrite String.eqb_refl. simpl.
        by intros e' ->%list_elem_of_singleton.
    + rewrite Hp in Hout |- *. simpl in Hout. injection Hout as Hout.
      apply app_inv_head in Hout. injection Hout as <-.
      exists h5netcdf, raw. repeat split; auto using label_rows_engine.
      * simpl. by rewrite String.eqb_refl.
      * simpl. rewrite String.eqb_refl. simpl.
        intros e' He' Hne. destruct e'; [eauto | done].
    + rewrite Hp in Hout. simpl in Hout. injection Hout as Hout.
      apply (f_equal length) in Hout. rewrite length_app in Hout. simpl in Hout. lia.
Qed.

(** C7. When none of the three methods yields a timestamp for a file, under
    either engine, [infer_time_label] raises; the loop catches the error of
    each attempt, prints a diagnostic for it, leaves [out_rows] as it was
    and goes on with the remaining files.  A failing precondition of the
    run (the layer cannot be read, it has no CRS, it lacks the id column)
    raises out of [run_daily] with an empty trace: no file was touched. *)
Theorem inference_failure_is_per_file
    (daily_dir : string) (gdf : list Feature) (lake_id_col : string)
    (pre rest : list RasterFile) (fp : RasterFile) (out_rows : list DataFrame) :
  (∃ bs, f_bytes fp = Some bs ∧ has_magic bs = true) →
  (∀ e ds, f_decode fp e = Some ds →
     time_from_coordinate parse_datetime ds = None
     ∧ time_from_coverage parse_datetime ds "daily" = None
     ∧ attempt (time_from_filename
                  (last_component (daily_dir +:+ "/" +:+ f_name fp)) "daily") = None) →
  (∀ e ds, f_decode fp e = Some ds →
     ∃ err, infer_time_label parse_datetime (daily_dir +:+ "/" +:+ f_name fp) ds "daily"
            = Raise err)
  ∧ (∃ t1 out1 e1 e2,
       loop daily_dir gdf lake_id_col pre out_rows = IO t1 (Ok out1)
       ∧ process daily_dir gdf lake_id_col out1 fp
         = IO [EvStart (f_name fp); EvOpenDataset netcdf4 (f_name fp);
               EvEngineFailed netcdf4 (f_name fp) e1;
               EvOpenDataset h5netcdf (f_name fp);
               EvEngineFailed h5netcdf (f_name fp) e2]
             (Ok out1)
       ∧ loop daily_dir gdf lake_id_col (pre ++ fp :: rest) out_rows
         = IO (t1 ++ trace (process daily_dir gdf lake_id_col out1 fp)
                  ++ trace (loop daily_dir gdf lake_id_col rest out1))
             (outcome (loop daily_dir gdf lake_id_col rest out1)))
  ∧ (∀ w out_parquet,
       (∃ err, w_lakes w = Raise err)
       ∨ (∃ lakes, w_lakes w = Ok lakes
                   ∧ (gdf_crs lakes = None ∨ lake_id_col ∉ gdf_columns lakes)) →
       ∃ err, run w daily_dir lake_id_col out_parquet = IO [] (Raise err)).
Proof.
  intros (bs & Hbs & Hmagic) Hnone.
  assert (Hinfer : ∀ e ds, f_decode fp e = Some ds →
    ∃ err, infer_time_label parse_datetime (daily_dir +:+ "/" +:+ f_name fp) ds "daily"
           = Raise err).
  { intros e ds Hds. destruct (Hnone e ds Hds) as (H1 & H2 & H3).
    by apply infer_time_label_raises. }
  split; [done|]. split.
  - destruct (file_loop_total daily_dir gdf lake_id_col pre out_rows) as (t1 & out1 & Hpre).
    assert (Hfail : ∀ e, ∃ err,
      outcome (extract e daily_dir fp gdf lake_id_col "daily") = Raise err).
    { intros e. rewrite extract_with_outcome.
      destruct (f_decode fp e) as [ds|] eqn:Hds; [|by eexists].
      destruct (Hinfer e ds Hds) as [err Herr].
      cbn [from_some mbind result_bind]. rewrite Herr. by eexists. }
    pose proof (looks_like_hdf5_bytes fp bs Hbs) as Hl. rewrite Hmagic in Hl.
    destruct (process_file_cases daily_dir gdf lake_id_col out1 fp)
      as [[Hl' _] | [(raw & _ & Hnc & Hp) | [(e1 & raw & _ & Hnc & Hh5 & Hp)
                                            | (e1 & e2 & _ & _ & _ & Hp)]]].
    + congruence.
    + destruct (Hfail netcdf4) as [err Herr]. cbv beta in Hnc. congruence.
    + destruct (Hfail h5netcdf) as [err Herr]. cbv beta in Hh5. congruence.
    + exists t1, out1, e1, e2. split; [done|]. split; [done|].
      rewrite (file_loop_app _ _ _ _ _ _ _ _ Hpre).
      rewrite (file_loop_cons _ _ _ _ _ _ _ _ Hp). by rewrite Hp.
  - intros w out_parquet [[err Hw] | (lakes & Hw & [Hcrs | Hcol])];
      unfold run_daily; rewrite Hw.
    + by eexists.
    + rewrite io_bind_lift_Ok, Hcrs. by eexists.
    + rewrite io_bind_lift_Ok. destruct (gdf_crs lakes); [|by eexists].
      unfold select_dropna. rewrite bool_decide_false by done. by eexists.
Qed.
End loop_properties.

(** C9. [looks_like_hdf5] returns a boolean for every path and never raises:
    an exception while opening the file or reading its first 8 bytes becomes
    [False], and the loop then skips the file like any other file without a
    raster header. *)
Theorem looks_like_hdf5_total (path : RasterFile) :
  (∃ b, looks_like_hdf5 path = Ok b)
  ∧ (∀ err, read_prefix path 8 = Raise err → looks_like_hdf5 path = Ok false)
  ∧ (∀ parse_datetime np_nanmean np_nanquantile daily_dir gdf lake_id_col out_rows,
       f_bytes path = None →
       process_file parse_datetime np_nanmean np_nanquantile daily_dir gdf
         lake_id_col out_rows path
       = IO [EvStart (f_name path); EvSkipHeader (f_name path)] (Ok out_rows)).
Proof.
  split; [apply looks_like_hdf5_is_bool|]. split.
  - intros err Herr. unfold looks_like_hdf5. by rewrite Herr.
  - intros. by apply process_file_skips_header, looks_like_hdf5_unreadable.
Qed.

(** ** Sorting *)

Section sorting.
Context {A : Type} (leb : A → A → bool).
Hypothesis leb_total : ∀ a b, leb a b = false → leb b a = true.


Lemma insert_sorted_Permutation x l : insert_sorted leb x l ≡ₚ x :: l.
Proof.
  induction l as [|y l IH]; simpl; [done|].
  destruct (leb x y); [done|]. rewrite IH. apply Permutation_swap.
Qed.

Lemma stable_sort_Permutation l : stable_sort leb l ≡ₚ l.
Proof.
  induction l as [|x l IH]; simpl; [done|].
  by rewrite insert_sorted_Permutation, IH.
Qed.

Lemma elem_of_stable_sort x l : x ∈ stable_sort leb l ↔ x ∈ l.
Proof. by rewrite stable_sort_Permutation. Qed.

Lemma HdRel_insert_sorted y x l :
  HdRel (le_of leb) y l → (le_of leb) y x → HdRel (le_of leb) y (insert_sorted leb x l).
Proof.
  intros Hl Hx. destruct l as [|z l]; simpl; [by constructor|].
  destruct (leb x z); constructor; [done|]. by inversion Hl.
Qed.

Lemma insert_sorted_Sorted x l :
  Sorted (le_of leb) l → Sorted (le_of leb) (insert_sorted leb x l).
Proof.
  induction 1 as [|y l Hl IH Hy]; simpl; [by repeat constructor|].
  destruct (leb x y) eqn:E.
  - constructor; [by constructor|]. by constructor.
  - constructor; [done|]. apply HdRel_insert_sorted; [done|].
    by apply leb_total.
Qed.

Lemma stable_sort_Sorted l : Sorted (le_of leb) (stable_sort leb l).
Proof.
  induction l as [|x l IH]; simpl; [constructor|].
  by apply insert_sorted_Sorted.
Qed.
End sorting.

(** The comparison of rows is a total preorder. *)

Lemma composes_lex {A B C} (f : A → B) (g : A → C) cmp1 cmp2 :
  composes cmp1 → composes cmp2 →
  composes (λ a b, lex (cmp1 (f a) (f b)) (cmp2 (g a) (g b))).
Proof.
  intros T1 T2 a b c Hab Hbc.
  specialize (T1 (f a) (f b) (f c)). specialize (T2 (g a) (g b) (g c)).
  destruct (cmp1 (f a) (f b)) eqn:E1, (cmp1 (f b) (f c)) eqn:E2; simpl in *;
    try done; try (rewrite T1 by done; simpl; try done).
  - rewrite T2 by done. done.
  - by destruct (cmp2 (g a) (g b)).
Qed.

Lemma composes_Z : composes Z.compare.
Proof.
  intros a b c Hab Hbc.
  destruct (Z.compare_spec a b), (Z.compare_spec b c); simpl; try done;
    try (apply Z.compare_eq_iff; lia); apply Z.compare_lt_iff; lia.
Qed.

Lemma composes_N : composes N.compare.
Proof.
  intros a b c Hab Hbc.
  destruct (N.compare_spec a b), (N.compare_spec b c); simpl; try done;
    try (apply N.compare_eq_iff; lia); apply N.compare_lt_iff; lia.
Qed.

Lemma composes_Q : composes Qcompare.
Proof.
  intros a b c Hab Hbc.
  destruct (Qcompare_spec a b), (Qcompare_spec b c); simpl; try done;
    try (apply (proj1 (Qeq_alt a c)); lra); apply (proj1 (Qlt_alt a c)); lra.
Qed.

Lemma composes_string : composes String.compare.
Proof.
  intros a. induction a as [|x a IH]; intros [|y b] [|z c]; simpl; try done.
  intros Hab Hbc.
  pose proof (composes_N (N_of_ascii x) (N_of_ascii y) (N_of_ascii z)) as Hc.
  unfold Ascii.compare in *.
  destruct (N_of_ascii x ?= N_of_ascii y)%N eqn:E1,
           (N_of_ascii y ?= N_of_ascii z)%N eqn:E2;
    try done; rewrite Hc by done; simpl; try done.
  - by apply IH.
  - by destruct (String.compare a b).
Qed.

Lemma composes_value : composes value_compare.
Proof.
  unfold value_compare. intros a b c.
  destruct (sort_key a) as [[r1 q1] s1] eqn:Ea, (sort_key b) as [[r2 q2] s2] eqn:Eb,
    (sort_key c) as [[r3 q3] s3] eqn:Ec.
  pose proof (composes_lex (λ k : Z * Q * string, k.1.1) (λ k, k) Z.compare
    (λ k1 k2, lex (k1.1.2 ?= k2.1.2)%Q (String.compare k1.2 k2.2))
    composes_Z
    (composes_lex (λ k : Z * Q * string, k.1.2) (λ k, k.2) Qcompare String.compare
       composes_Q composes_string)) as H.
  exact (H (r1, q1, s1) (r2, q2, s2) (r3, q3, s3)).
Qed.

Lemma composes_row by_ : composes (row_compare by_).
Proof.
  induction by_ as [|c cs IH]; [by intros ???|].
  exact (composes_lex (λ r, cell r c) (λ r, r) value_compare (row_compare cs)
           composes_value IH).
Qed.

Lemma lex_opp c1 c2 : CompOpp (lex c1 c2) = lex (CompOpp c1) (CompOpp c2).
Proof. by destruct c1. Qed.

Lemma value_compare_antisym a b : value_compare b a = CompOpp (value_compare a b).
Proof.
  unfold value_compare.
  destruct (sort_key a) as [[r1 q1] s1], (sort_key b) as [[r2 q2] s2].
  rewrite !lex_opp, <- Z.compare_antisym, Qcompare_antisym.
  by rewrite <- String.compare_antisym.
Qed.

Lemma row_compare_antisym by_ r1 r2 :
  row_compare by_ r2 r1 = CompOpp (row_compare by_ r1 r2).
Proof.
  induction by_ as [|c cs IH]; simpl; [done|].
  by rewrite lex_opp, <- value_compare_antisym, IH.
Qed.

Lemma row_leb_total by_ r1 r2 : row_leb by_ r1 r2 = false → row_leb by_ r2 r1 = true.
Proof.
  unfold row_leb. rewrite (row_compare_antisym by_ r1 r2).
  by destruct (row_compare by_ r1 r2).
Qed.

Lemma row_leb_trans by_ : Transitive (le_of (row_leb by_)).
Proof.
  intros r1 r2 r3. unfold le_of, row_leb. intros H12 H23.
  rewrite (composes_row by_ r1 r2 r3).
  - by destruct (row_compare by_ r1 r2), (row_compare by_ r2 r3).
  - by destruct (row_compare by_ r1 r2).
  - by destruct (row_compare by_ r2 r3).
Qed.

(** The rows of [sort_values] are in order, each before all the later ones,
    and are the rows of the table. *)
Lemma sort_values_sorted by_ df :
  StronglySorted (le_of (row_leb by_)) (df_rows (sort_values by_ df)).
Proof.
  apply Sorted_StronglySorted; [apply row_leb_trans|].
  apply stable_sort_Sorted, row_leb_total.
Qed.

Lemma sort_values_rows by_ df : df_rows (sort_values by_ df) ≡ₚ df_rows df.
Proof. apply stable_sort_Permutation. Qed.

(** ** The outer join *)

Lemma row_key_eq on r1 r2 :
  row_key on r1 = row_key on r2 ↔ ∀ c, c ∈ on → cell r1 c = cell r2 c.
Proof.
  unfold row_key. induction on as [|c on IH]; simpl.
  - split; [by intros _ c ?%elem_of_nil | done].
  - split.
    + intros [= Hc Hon] c' [->|Hc']%elem_of_cons; [done|]. by apply IH.
    + intros H. f_equal; [apply H; by left|]. apply IH. intros c' Hc'.
      apply H. by right.
Qed.

Lemma cell_fill_nan cols r c : c ∉ cols → cell (fill_nan cols r) c = cell r c.
Proof.
  unfold cell. induction cols as [|c' cols IH]; simpl; [done|].
  intros [Hne Hc]%not_elem_of_cons. rewrite lookup_insert_ne by done. by apply IH.
Qed.

Lemma value_columns_not_key on df c : c ∈ value_columns on df → c ∉ on.
Proof.
  unfold value_columns. rewrite list_elem_of_In, filter_In.
  intros [_ H]. apply negb_true_iff, bool_decide_eq_false in H. done.
Qed.

Lemma row_key_fill_nan on df r :
  row_key on (fill_nan (value_columns on df) r) = row_key on r.
Proof.
  apply row_key_eq. intros c Hc. apply cell_fill_nan.
  intros H%value_columns_not_key. done.
Qed.

Lemma row_key_union on (l r : gmap string value) :
  row_key on r = row_key on l → row_key on (l ∪ r) = row_key on l.
Proof.
  rewrite !row_key_eq. intros H c Hc. specialize (H c Hc). unfold cell in *.
  rewrite lookup_union. destruct (l !! c) as [v|] eqn:E; simpl.
  - by destruct (r !! c).
  - destruct (r !! c); done.
Qed.

Lemma elem_of_partners on r rows r' :
  r' ∈ partners on r rows ↔ r' ∈ rows ∧ row_key on r' = row_key on r.
Proof.
  unfold partners. rewrite !list_elem_of_In, filter_In, bool_decide_eq_true.
  done.
Qed.

Lemma elem_of_merge_outer on left right r :
  r ∈ df_rows (merge_outer on left right)
  ↔ (∃ l, l ∈ df_rows left
          ∧ ((partners on l (df_rows right) = []
              ∧ r = fill_nan (value_columns on right) l)
             ∨ ∃ r0, r0 ∈ partners on l (df_rows right) ∧ r = l ∪ r0))
    ∨ (∃ r0, r0 ∈ df_rows right ∧ partners on r0 (df_rows left) = []
             ∧ r = fill_nan (value_columns on left) r0).
Proof.
  unfold merge_outer. simpl. rewrite elem_of_stable_sort, elem_of_app.
  match goal with |- ?P ∨ ?Q ↔ ?P' ∨ ?Q' =>
    cut ((P ↔ P') ∧ (Q ↔ Q')); [tauto | split] end.
  - rewrite list_elem_of_bind. split.
    + intros (l & Hr & Hl). exists l. split; [done|].
      destruct (partners on l (df_rows right)) as [|r0 rs] eqn:E.
      * left. split; [done|]. by apply list_elem_of_singleton in Hr.
      * right.
        apply (list_elem_of_fmap (λ r, l ∪ r) (r0 :: rs)) in Hr as (r1 & -> & Hr1).
        eauto.
    + intros (l & Hl & [[E ->] | (r0 & Hr0 & ->)]); exists l; (split; [|done]).
      * rewrite E. by apply list_elem_of_singleton.
      * destruct (partners on l (df_rows right)) as [|r1 rs] eqn:E;
          [by apply elem_of_nil in Hr0|].
        apply (list_elem_of_fmap (λ r, l ∪ r) (r1 :: rs)). eauto.
  - rewrite list_elem_of_fmap. split.
    + intros (r0 & -> & Hr0). apply list_elem_of_In, filter_In in Hr0 as [Hr0 E].
      exists r0. rewrite list_elem_of_In.
      by destruct (partners on r0 (df_rows left)).
    + intros (r0 & Hr0 & E & ->). exists r0. split; [done|].
      apply list_elem_of_In, filter_In. rewrite <- list_elem_of_In, E. done.
Qed.


(** Every key of the left table and every key of the right table is a key of
    the join. *)
Lemma merge_outer_keeps_left on left right k :
  has_key on left k → has_key on (merge_outer on left right) k.
Proof.
  intros (l & Hl & <-).
  destruct (partners on l (df_rows right)) as [|r0 rs] eqn:E.
  - exists (fill_nan (value_columns on right) l). split.
    + apply elem_of_merge_outer. left. exists l. eauto.
    + apply row_key_fill_nan.
  - assert (Hr0 : r0 ∈ partners on l (df_rows right)) by (rewrite E; by left).
    exists (l ∪ r0). split.
    + apply elem_of_merge_outer. left. exists l. eauto.
    + apply row_key_union. by apply elem_of_partners in Hr0 as [_ ?].
Qed.

Lemma merge_outer_keeps_right on left right k :
  has_key on right k → has_key on (merge_outer on left right) k.
Proof.
  intros (r0 & Hr0 & <-).
  destruct (partners on r0 (df_rows left)) as [|l ls] eqn:E.
  - exists (fill_nan (value_columns on left) r0). split.
    + apply elem_of_merge_outer. right. exists r0. eauto.
    + apply row_key_fill_nan.
  - assert (Hl : l ∈ partners on r0 (df_rows left)) by (rewrite E; by left).
    apply elem_of_partners in Hl as [Hl Hk].
    exists (l ∪ r0). split.
    + apply elem_of_merge_outer. left. exists l. split; [done|]. right.
      exists r0. split; [|done]. by apply elem_of_partners.
    + rewrite row_key_union; done.
Qed.

Lemma fold_merge_keeps on dfs acc k :
  has_key on acc k ∨ (∃ d, d ∈ dfs ∧ has_key on d k) →
  has_key on (fold_left (merge_outer on) dfs acc) k.
Proof.
  revert acc. induction dfs as [|d dfs IH]; intros acc; simpl.
  - intros [H | (d & []%elem_of_nil & _)]. done.
  - intros [H | (d' & [->|Hd']%elem_of_cons & H)]; apply IH.
    + left. by apply merge_outer_keeps_left.
    + left. by apply merge_outer_keeps_right.
    + right. eauto.
Qed.

Lemma reduce_merge_keeps on dfs df d k :
  reduce (merge_outer on) dfs = Ok df → d ∈ dfs → has_key on d k → has_key on df k.
Proof.
  destruct dfs as [|d0 dfs]; simpl; [done|]. intros [= <-] Hd Hk.
  apply fold_merge_keeps. apply elem_of_cons in Hd as [->|Hd]; eauto.
Qed.

(** ** The table of the index pipeline *)

Lemma lookup_reindex cols r c :
  reindex cols r !! c = if bool_decide (c ∈ cols) then Some (cell r c) else None.
Proof.
  unfold reindex. induction cols as [|c' cols IH]; [done|].
  rewrite fmap_cons, list_to_map_cons.
  destruct (decide (c' = c)) as [->|Hne].
  - rewrite lookup_insert_eq, bool_decide_true by (by left). done.
  - rewrite lookup_insert_ne, IH by done.
    rewrite (bool_decide_ext (c ∈ cols) (c ∈ c' :: cols)); [done|].
    rewrite elem_of_cons. split; [by right | by intros [->|?]].
Qed.


Lemma has_column_fill_step df c' c :
  c ≠ c' → has_column (fill_step df c') c = has_column df c.
Proof.
  intros Hne. unfold fill_step. destruct (has_column df c') eqn:E; [done|].
  unfold has_column at 1. unfold df_assign. simpl. rewrite E.
  apply bool_decide_ext. rewrite elem_of_app, list_elem_of_singleton.
  split; [by intros [?|?] | by left].
Qed.

Lemma fill_step_keeps df c' c v :
  c ≠ c' →
  Forall (λ r, r !! c = Some v) (df_rows df) →
  Forall (λ r, r !! c = Some v) (df_rows (fill_step df c')).
Proof.
  intros Hne H. unfold fill_step. destruct (has_column df c'); [done|].
  simpl. apply Forall_fmap. eapply Forall_impl; [exact H|].
  intros r Hr. simpl. by rewrite lookup_insert_ne.
Qed.

Lemma fold_fill_keeps cs df c v :
  c ∉ cs →
  Forall (λ r, r !! c = Some v) (df_rows df) →
  Forall (λ r, r !! c = Some v) (df_rows (fold_left fill_step cs df)).
Proof.
  revert df. induction cs as [|c' cs IH]; intros df Hc H; simpl; [done|].
  apply not_elem_of_cons in Hc as [Hne Hc]. apply IH; [done|].
  by apply fill_step_keeps.
Qed.

Lemma fold_fill_absent cs df c :
  NoDup cs → c ∈ cs → has_column df c = false →
  Forall (λ r, r !! c = Some (null_marker c)) (df_rows (fold_left fill_step cs df)).
Proof.
  revert df. induction cs as [|c' cs IH]; intros df Hnd Hc Habs; simpl.
  - by apply elem_of_nil in Hc.
  - apply NoDup_cons in Hnd as [Hc' Hnd].
    apply elem_of_cons in Hc as [->|Hc].
    + apply fold_fill_keeps; [done|]. unfold fill_step. rewrite Habs. simpl.
      apply Forall_fmap, Forall_true. intros r. simpl. apply lookup_insert_eq.
    + apply IH; [done..|]. rewrite has_column_fill_step; [done|]. by intros ->.
Qed.

Lemma fill_missing_fold df : fill_missing df = fold_left fill_step keep_cols df.
Proof. reflexivity. Qed.

Lemma keep_cols_NoDup : NoDup keep_cols.
Proof. apply (bool_decide_unpack _). by vm_compute. Qed.

Lemma assemble_columns out_rows : df_columns (assemble out_rows) = keep_cols.
Proof. unfold assemble, sort_values, df_select. reflexivity. Qed.

Lemma assemble_rows out_rows :
  df_rows (assemble out_rows)
  ≡ₚ reindex keep_cols <$> df_rows (fill_missing (pd_concat out_rows)).
Proof. unfold assemble. rewrite sort_values_rows. reflexivity. Qed.

(** The table that [run_daily] writes. *)
Lemma assemble_table (out_rows : list DataFrame) :
  df_columns (assemble out_rows) = keep_cols
  ∧ StronglySorted (le_of (row_leb ["lake_id"; "date"])) (df_rows (assemble out_rows))
  ∧ ∀ r c, r ∈ df_rows (assemble out_rows) → c ∈ keep_cols →
      is_Some (r !! c)
      ∧ (c ∉ df_columns (pd_concat out_rows) → r !! c = Some (null_marker c)).
Proof.
  split; [apply assemble_columns|]. split; [apply sort_values_sorted|].
  intros r c Hr Hc. rewrite assemble_rows in Hr.
  apply list_elem_of_fmap in Hr as (r0 & -> & Hr0).
  rewrite lookup_reindex, bool_decide_true by exact Hc. split; [by eexists|].
  intros Habs. f_equal. unfold cell.
  pose proof (fold_fill_absent keep_cols (pd_concat out_rows) c keep_cols_NoDup Hc) as H.
  rewrite <- fill_missing_fold in H.
  rewrite Forall_forall in H. rewrite (λ Hc, H Hc r0 Hr0); [reflexivity|].
  unfold has_column. by apply bool_decide_eq_false.
Qed.

Section run_properties.
Variable parse_datetime : string → option Timestamp.
Variable np_nanmean : list float → float.
Variable np_nanquantile : list float → float → float.

Local Abbreviation process := (process_file parse_datetime np_nanmean np_nanquantile).
Local Abbreviation loop := (file_loop parse_datetime np_nanmean np_nanquantile).
Local Abbreviation run := (run_daily parse_datetime np_nanmean np_nanquantile).

Lemma process_file_events daily_dir gdf col out_rows fp :
  Forall (λ ev, is_file_event ev = true) (trace (process daily_dir gdf col out_rows fp)).
Proof.
  destruct (process_file_cases parse_datetime np_nanmean np_nanquantile
              daily_dir gdf col out_rows fp)
    as [[_ ->] | [(? & _ & _ & ->) | [(? & ? & _ & _ & _ & ->) | (? & ? & _ & _ & _ & ->)]]];
    cbn [trace]; repeat constructor.
Qed.

Lemma file_loop_events daily_dir gdf col files out_rows :
  Forall (λ ev, is_file_event ev = true) (trace (loop daily_dir gdf col files out_rows)).
Proof.
  revert out_rows. induction files as [|fp rest IH]; intros out_rows; [constructor|].
  destruct (process_file_total parse_datetime np_nanmean np_nanquantile
              daily_dir gdf col out_rows fp) as (t & out1 & H).
  rewrite (file_loop_cons _ _ _ _ _ _ _ _ _ _ _ H). cbn [trace].
  apply Forall_app. split; [|apply IH].
  pose proof (process_file_events daily_dir gdf col out_rows fp) as He.
  by rewrite H in He.
Qed.

(** The only table a run writes is the assembled one. *)
Lemma run_daily_writes w daily_dir col out_parquet path df :
  EvToParquet path df ∈ trace (run w daily_dir col out_parquet) →
  path = out_parquet ∧ ∃ out_rows, df = assemble out_rows.
Proof.
  unfold run_daily.
  destruct (w_lakes w) as [lakes|err]; [|by intros ?%elem_of_nil].
  rewrite io_bind_lift_Ok.
  destruct (gdf_crs lakes); [|by intros ?%elem_of_nil].
  destruct (select_dropna lakes col) as [gdf|err]; [|by intros ?%elem_of_nil].
  rewrite io_bind_lift_Ok.
  destruct (w_files w) as [|fp files].
  { cbn [trace emit]. intros [=]%list_elem_of_singleton. }
  rewrite io_bind_emit. cbn [trace].
  destruct (file_loop_total parse_datetime np_nanmean np_nanquantile
              daily_dir gdf col (fp :: files) []) as (t & out & H).
  pose proof (file_loop_events daily_dir gdf col (fp :: files) []) as He.
  rewrite H in He |- *. cbn [trace] in He.
  unfold mbind, io_bind. cbn [outcome trace].
  intros [[=] | Hin]%elem_of_cons.
  apply elem_of_app in Hin as [Hin|Hin].
  { rewrite Forall_forall in He. by apply He in Hin. }
  destruct out as [|d out].
  { cbn [trace emit] in Hin. by apply list_elem_of_singleton in Hin. }
  cbn [trace emit outcome app] in Hin.
  apply elem_of_cons in Hin as [[= -> ->] | [=]%list_elem_of_singleton].
  eauto.
Qed.
End run_properties.

(** ** The climate pipeline *)

Section climate_properties.
Variable np_nanmean : list float → float.
Variable buffer0 : geometry → geometry.
Variable open_daymet : string → result DaymetFile.

Local Abbreviation per_var := (compute_lake_daily_for_var np_nanmean open_daymet).
Local Abbreviation main := (daymet_main np_nanmean buffer0 open_daymet).

Lemma daymet_main_inv lakes df :
  main lakes = Ok df →
  ∃ lakes' name_col lake_masks dfs df0,
    prepare_lakes lakes = Ok (lakes', name_col)
    ∧ mapM (per_var lakes' name_col lake_masks) (fst <$> VAR_FILES) = Ok dfs
    ∧ reduce (merge_outer merge_keys) dfs = Ok df0
    ∧ df = sort_values ["lake_id"; "date"] df0.
Proof.
  unfold daymet_main.
  intros ([lakes' name_col] & Hprep & H)%bind_Ok_inv.
  apply bind_Ok_inv in H as (ds_grid & _ & H).
  apply bind_Ok_inv in H as (lat & _ & H).
  apply bind_Ok_inv in H as (lon & _ & H).
  apply bind_Ok_inv in H as (lake_masks & _ & H).
  apply bind_Ok_inv in H as (dfs & Hdfs & H).
  apply bind_Ok_inv in H as (df0 & Hred & [= <-]).
  exists lakes', name_col, lake_masks, dfs, df0. done.
Qed.
End climate_properties.

(** C8. The climate pipeline joins the tables of its variables by an outer
    join on [(lake_id, lake_name, date)]: every key of a row of any of the
    tables is the key of a row of the merged and sorted table, and a row
    without partner in the other table stays, with NaN in the other table's
    columns.  The table of either pipeline is sorted by [(lake_id, date)].
    The table of the index pipeline has exactly the fixed columns, in the
    fixed order, every row has a cell in each of them, and a column that the
    concatenated table lacks holds the null marker. *)
Theorem long_table_assembly :
  (∀ dfs df d r,
     reduce (merge_outer merge_keys) dfs = Ok df → d ∈ dfs → r ∈ df_rows d →
     ∃ r', r' ∈ df_rows (sort_values ["lake_id"; "date"] df)
           ∧ row_key merge_keys r' = row_key merge_keys r)
  ∧ (∀ left right l,
       l ∈ df_rows left → partners merge_keys l (df_rows right) = [] →
       fill_nan (value_columns merge_keys right) l
       ∈ df_rows (merge_outer merge_keys left right))
  ∧ (∀ np_nanmean buffer0 open_daymet lakes df,
       daymet_main np_nanmean buffer0 open_daymet lakes = Ok df →
       StronglySorted (le_of (row_leb ["lake_id"; "date"])) (df_rows df)
       ∧ ∃ dfs df0,
           reduce (merge_outer merge_keys) dfs = Ok df0
           ∧ df = sort_values ["lake_id"; "date"] df0)
  ∧ (∀ parse_datetime np_nanmean np_nanquantile w daily_dir lake_id_col
       out_parquet path df,
       EvToParquet path df
       ∈ trace (run_daily parse_datetime np_nanmean np_nanquantile w daily_dir
                  lake_id_col out_parquet) →
       df_columns df = keep_cols
       ∧ StronglySorted (le_of (row_leb ["lake_id"; "date"])) (df_rows df)
       ∧ ∀ r c, r ∈ df_rows df → c ∈ keep_cols → is_Some (r !! c))
  ∧ (∀ out_rows r c,
       r ∈ df_rows (assemble out_rows) → c ∈ keep_cols →
       c ∉ df_columns (pd_concat out_rows) →
       r !! c = Some (null_marker c)).
Proof.
  split; [|split; [|split; [|split]]].
  - intros dfs df d r Hred Hd Hr.
    destruct (reduce_merge_keeps merge_keys dfs df d (row_key merge_keys r) Hred Hd)
      as (r' & Hr' & Hk); [by exists r|].
    exists r'. split; [|done]. by rewrite sort_values_rows.
  - intros left right l Hl Hp. apply elem_of_merge_outer. left. exists l. eauto.
  - intros np_nanmean buffer0 open_daymet lakes df
      (lakes' & name_col & lake_masks & dfs & df0 & _ & _ & Hred & ->)%daymet_main_inv.
    split; [apply sort_values_sorted | eauto].
  - intros parse_datetime np_nanmean np_nanquantile w daily_dir lake_id_col
      out_parquet path df [_ [out_rows ->]]%run_daily_writes.
    destruct (assemble_table out_rows) as (Hc & Hs & Hr).
    split; [done|]. split; [done|]. intros r c Hin Hk. by apply Hr.
  - intros out_rows r c Hr Hc Habs.
    destruct (assemble_table out_rows) as (_ & _ & H). by apply H.
Qed.

(** ** The name column of the climate pipeline *)

(** A property of the key of every row of both tables holds for the key of
    every row of their join. *)
Lemma merge_outer_key_invariant on (Q : list value → Prop) left right :
  (∀ r, r ∈ df_rows left → Q (row_key on r)) →
  (∀ r, r ∈ df_rows right → Q (row_key on r)) →
  ∀ r, r ∈ df_rows (merge_outer on left right) → Q (row_key on r).
Proof.
  intros Hl Hr r [(l & Hin & [[_ ->] | (r0 & Hr0 & ->)]) | (r0 & Hin & _ & ->)]%elem_of_merge_outer.
  - rewrite row_key_fill_nan. by apply Hl.
  - apply elem_of_partners in Hr0 as [_ Hk]. rewrite row_key_union by done.
    by apply Hl.
  - rewrite row_key_fill_nan. by apply Hr.
Qed.

Lemma fold_merge_key_invariant on (Q : list value → Prop) dfs acc :
  (∀ r, r ∈ df_rows acc → Q (row_key on r)) →
  (∀ d r, d ∈ dfs → r ∈ df_rows d → Q (row_key on r)) →
  ∀ r, r ∈ df_rows (fold_left (merge_outer on) dfs acc) → Q (row_key on r).
Proof.
  revert acc. induction dfs as [|d dfs IH]; intros acc Hacc Hdfs; simpl; [done|].
  apply IH.
  - apply merge_outer_key_invariant; [done|]. intros r Hr. apply (Hdfs d); [by left|done].
  - intros d' r Hd'. apply Hdfs. by right.
Qed.

Lemma fold_merge_columns on dfs acc c :
  c ∈ df_columns acc → c ∈ df_columns (fold_left (merge_outer on) dfs acc).
Proof.
  revert acc. induction dfs as [|d dfs IH]; intros acc Hc; simpl; [done|].
  apply IH. unfold merge_outer. simpl. apply elem_of_app. by left.
Qed.

Lemma elem_of_lake_series np_nanmean var_name times cube mask lake_id lake_name r :
  r ∈ lake_series np_nanmean var_name times cube mask lake_id lake_name →
  r !! "lake_id" = Some lake_id ∧ r !! "lake_name" = Some lake_name.
Proof.
  unfold lake_series. intros (t & slice & -> & _)%elem_of_zip_with.
  split; [apply lookup_insert_eq|].
  rewrite lookup_insert_ne by done. apply lookup_insert_eq.
Qed.

Section name_properties.
Variable np_nanmean : list float → float.
Variable buffer0 : geometry → geometry.
Variable open_daymet : string → result DaymetFile.

Local Abbreviation per_var := (compute_lake_daily_for_var np_nanmean open_daymet).
Local Abbreviation main := (daymet_main np_nanmean buffer0 open_daymet).

(** Every row of the table of a variable carries the id and the name cell
    of one lake of the layer. *)
Lemma compute_lake_daily_rows lakes name_col lake_masks var_name d :
  per_var lakes name_col lake_masks var_name = Ok d →
  df_columns d = ["lake_id"; "lake_name"; "date"; var_name]
  ∧ ∀ r, r ∈ df_rows d →
      ∃ row lake_id lake_name,
        row ∈ gdf_features lakes
        ∧ ft_attrs row !! "lake_id" = Some lake_id
        ∧ ft_attrs row !! name_col = Some lake_name
        ∧ r !! "lake_id" = Some lake_id
        ∧ r !! "lake_name" = Some lake_name.
Proof.
  unfold compute_lake_daily_for_var.
  intros (fname & _ & H)%bind_Ok_inv.
  apply bind_Ok_inv in H as (ds & _ & H).
  apply bind_Ok_inv in H as (da & _ & H).
  apply bind_Ok_inv in H as (rows & Hrows & H).
  destruct rows as [|rows0 rows]; [done|]. injection H as <-.
  split; [done|]. cbn [df_rows]. intros r Hr.
  apply list_elem_of_In in Hr.
  apply (proj1 (in_concat (rows0 :: rows) r)) in Hr as (rs & Hrs & Hr).
  apply list_elem_of_In in Hrs, Hr.
  apply mapM_Ok in Hrows.
  apply list_elem_of_lookup in Hrs as [i Hi].
  destruct (Forall2_lookup_r _ _ _ _ _ Hrows Hi) as (row & Hrow & H).
  apply bind_Ok_inv in H as (lake_id & Hid & H).
  apply bind_Ok_inv in H as (lake_name & Hname & H).
  apply bind_Ok_inv in H as (mask & _ & [= <-]).
  apply elem_of_lake_series in Hr as [Hr1 Hr2].
  exists row, lake_id, lake_name.
  split; [by eapply list_elem_of_lookup_2|].
  apply from_some_Ok in Hid, Hname. done.
Qed.

(** Without a candidate column the name of every lake is its id. *)
Lemma prepare_lakes_synthesized lakes lakes' name_col :
  find_name_col (gdf_columns lakes) = None →
  prepare_lakes lakes = Ok (lakes', name_col) →
  name_col = "lake_name"
  ∧ ∀ row lake_id, row ∈ gdf_features lakes' →
      ft_attrs row !! "lake_id" = Some lake_id →
      ft_attrs row !! "lake_name" = Some lake_id.
Proof.
  intros Hnone. unfold prepare_lakes. rewrite Hnone.
  destruct (bool_decide _); [|done]. intros [= <- <-]. split; [done|].
  intros row lake_id Hrow Hid. unfold select_columns, copy_column in Hrow.
  cbn [gdf_features] in Hrow.
  apply list_elem_of_fmap in Hrow as (row1 & -> & Hrow).
  apply list_elem_of_fmap in Hrow as (row0 & -> & Hrow).
  cbn [ft_attrs] in *.
  apply map_lookup_filter_Some in Hid as [Hid _].
  apply map_lookup_filter_Some. split; [|set_solver].
  destruct (ft_attrs row0 !! "lake_id") as [v|] eqn:E.
  - rewrite lookup_insert_ne in Hid by done. rewrite E in Hid.
    injection Hid as ->. apply lookup_insert_eq.
  - congruence.
Qed.

(** C10, amended. When the lake layer has none of the candidate name
    columns, the name column is the synthesized [lake_name], in which every
    lake has its [lake_id]; every row of the table that is written then has
    a [lake_name] cell equal to its [lake_id] cell, so it is null only where
    the id is null; and the three key columns of the join are columns of the
    table. *)
Theorem synthesized_lake_name (lakes : GeoDataFrame) (df : DataFrame) :
  find_name_col (gdf_columns lakes) = None →
  main lakes = Ok df →
  (∃ lakes', prepare_lakes lakes = Ok (lakes', "lake_name")
             ∧ ∀ row lake_id, row ∈ gdf_features lakes' →
                 ft_attrs row !! "lake_id" = Some lake_id →
                 ft_attrs row !! "lake_name" = Some lake_id)
  ∧ (∀ r, r ∈ df_rows df →
       cell r "lake_name" = cell r "lake_id"
       ∧ (is_null (cell r "lake_id") = false → is_null (cell r "lake_name") = false))
  ∧ Forall (λ c, c ∈ df_columns df) merge_keys.
Proof.
  intros Hnone (lakes' & name_col & lake_masks & dfs & df0 & Hprep & Hdfs & Hred & ->)%daymet_main_inv.
  destruct (prepare_lakes_synthesized lakes lakes' name_col Hnone Hprep) as [-> Hnames].
  split; [eauto|].
  apply mapM_Ok in Hdfs.
  assert (Hrows : ∀ d r, d ∈ dfs → r ∈ df_rows d →
            cell r "lake_name" = cell r "lake_id").
  { intros d r [i Hi]%list_elem_of_lookup Hr.
    destruct (Forall2_lookup_r _ _ _ _ _ Hdfs Hi) as (var_name & _ & Hd).
    apply compute_lake_daily_rows in Hd as [_ Hd].
    destruct (Hd r Hr) as (row & lake_id & lake_name & Hrow & Hid & Hname & Hr1 & Hr2).
    rewrite (Hnames row lake_id Hrow Hid) in Hname. injection Hname as <-.
    unfold cell. by rewrite Hr1, Hr2. }
  destruct dfs as [|d0 dfs]; [done|]. injection Hred as <-.
  split.
  - intros r Hr. rewrite sort_values_rows in Hr.
    assert (H : cell r "lake_name" = cell r "lake_id").
    { apply (fold_merge_key_invariant merge_keys
               (λ k, k !! 1%nat = k !! 0%nat) dfs d0) in Hr.
      - by injection Hr.
      - intros r0 Hr0. simpl. f_equal. apply (Hrows d0); [by left|done].
      - intros d r0 Hd Hr0. simpl. f_equal. apply (Hrows d); [by right|done]. }
    split; [done|]. by rewrite H.
  - destruct (Forall2_lookup_r _ _ _ 0%nat d0 Hdfs eq_refl) as (var_name & _ & Hd0).
    apply compute_lake_daily_rows in Hd0 as [Hcols _].
    apply Forall_forall. intros c Hc. cbn [sort_values df_columns].
    apply fold_merge_columns. rewrite Hcols.
    change ["lake_id"; "lake_name"; "date"; var_name] with (merge_keys ++ [var_name]).
    apply elem_of_app. by left.
Qed.
End name_properties.


(* ===================================================================== *)
(** * Part III. The properties on the example data                         *)
(* ===================================================================== *)

(** The threshold is [valid_min] when that is larger than [5e-5]; a zero is
    masked, a value above the threshold is kept. *)
Example clean_ci_scenario_B :
  da_values (clean_ci (mkDataArray
      {[ "valid_min" := Num (1152921504606847 # 1152921504606846976) ]}
      [[Num 0; Num (1 # 2000); Num (1 # 100); NaN; PosInf]]))
  = [[NaN; NaN; Num (1 # 100); NaN; PosInf]].
Proof. vm_compute. reflexivity. Qed.

Lemma bbox_selector_superset_witness :
  cell_at (bbox_mask lon3 lat3 (bounds centre_lake)) 1 1 = Some true.
Proof.
  apply (bbox_selector_superset centre_lake lon3 lat3 1 1 1 1);
    vm_compute; reflexivity.
Defined.

(** The selector keeps more than the lake: the bounding box of a triangle
    holds a grid point that the triangle does not contain. *)
Example bbox_selector_is_coarser :
  let triangle := [mkPolygon [(0, 0); (2, 0); (0, 2)]%Q []] in
  contains triangle (2, 2)%Q = false
  ∧ cell_at (bbox_mask lon3 lat3 (bounds triangle)) 2 2 = Some true.
Proof. vm_compute. done. Qed.

(** Scenario B of the specification: [valid_min = 0.001], all cells 0.0. *)
Lemma reducer_rows_witness :
  ∃ rows,
    _extract_lakes_core_from_ds exact_mean exact_quantile ds_B july_path
      [lake_erie] "lake_id" "daily" t_2024_05_01 "netcdf4"
    = Ok (pd_DataFrame core_columns rows)
    ∧ Forall2
        (λ r row, ∃ lid geom,
           ft_attrs r !! "lake_id" = Some lid
           ∧ ft_geometry r = Some geom
           ∧ row !! "lake_id" = Some lid
           ∧ row_reports exact_mean exact_quantile
               (remaining_cells
                  (mkDataArray
                     {[ "valid_min" := Num (1152921504606847 # 1152921504606846976) ]}
                     (nums [[0; 0; 0]; [0; 0; 0]; [0; 0; 0]]%Z))
                  (bbox_mask lon3 lat3 (bounds geom)))
               row)
        [lake_erie] rows.
Proof.
  apply (reducer_rows exact_mean exact_quantile ds_B _ (coord lat3) (coord lon3));
    try (vm_compute; reflexivity).
  repeat constructor; vm_compute; eauto.
Defined.

Example reducer_scenario_A :
  df_values <$> attempt (_extract_lakes_core_from_ds exact_mean exact_quantile ds_A
                           july_path [lake_erie] "lake_id" "daily" t_2024_05_01 "netcdf4")
  = Some [[Some (VStr "erie"); Some (VTime t_2024_05_01); Some (VStr "daily");
           Some (VFloat (Num 5)); Some (VFloat (Num 5)); Some (VInt 1);
           Some (VStr "S3M_OLCI_EFRNT.20240701.L3m.DAY.ILW_CONUS.V5.all.CONUS.300m.nc");
           Some (VStr "netcdf4")]].
Proof. vm_compute. reflexivity. Qed.

Example reducer_scenario_B :
  df_values <$> attempt (_extract_lakes_core_from_ds exact_mean exact_quantile ds_B
                           july_path [lake_erie] "lake_id" "daily" t_2024_05_01 "netcdf4")
  = Some [[Some (VStr "erie"); Some (VTime t_2024_05_01); Some (VStr "daily");
           Some (VFloat NaN); Some (VFloat NaN); Some (VInt 0);
           Some (VStr "S3M_OLCI_EFRNT.20240701.L3m.DAY.ILW_CONUS.V5.all.CONUS.300m.nc");
           Some (VStr "netcdf4")]].
Proof. vm_compute. reflexivity. Qed.

(** The time axis says May, the coverage attributes June, the file name
    July: the result is the first value of the time axis. *)
Lemma infer_time_label_explicit_time_wins_witness :
  infer_time_label to_datetime_ymd july_path ds_timed "daily" = Ok t_2024_05_01.
Proof.
  apply (infer_time_label_explicit_time_wins to_datetime_ymd july_path ds_timed
           "daily" (TDatetime t_2024_05_01) [TText "20240502"]);
    [reflexivity | reflexivity |].
  repeat constructor. eexists. vm_compute. reflexivity.
Defined.

(** The first value of the time axis converts, the second does not: the
    conversion of the axis raises, and the result is the coverage start. *)
Lemma infer_time_label_first_value_counterexample :
  ¬ (∀ (parse_datetime : string → option Timestamp) (nc_path : string)
       (ds : Dataset) (product : string) (v : tvalue) (vs : list tvalue)
       (t : Timestamp),
       ds_time ds = Some (v :: vs) →
       to_datetime_value parse_datetime v = Ok t →
       infer_time_label parse_datetime nc_path ds product = Ok t).
Proof.
  intros H.
  specialize (H to_datetime_ymd july_path ds_bad_time "daily" (TText "20240501")
                [TText "not a date"] t_2024_05_01 eq_refl eq_refl).
  vm_compute in H. discriminate H.
Qed.

Example infer_time_label_bad_axis :
  to_datetime_value to_datetime_ymd (TText "20240501") = Ok t_2024_05_01
  ∧ infer_time_label to_datetime_ymd july_path ds_bad_time "daily" = Ok t_2024_06_01.
Proof. vm_compute. done. Qed.

(** No time axis: coverage attributes first, then the file name. *)
Lemma infer_time_label_fallbacks_witness :
  infer_time_label to_datetime_ymd july_path ds_coverage_only "monthly"
  = Ok 1717286400000000000%Z
  ∧ infer_time_label to_datetime_ymd july_path ds_A "daily"
    = Ok 1719792000000000000%Z.
Proof.
  split.
  - apply (proj1 (infer_time_label_fallbacks to_datetime_ymd july_path
                    ds_coverage_only "monthly" eq_refl) "20240601" "20240603"
             t_2024_06_01 t_2024_06_03);
      vm_compute; (reflexivity || discriminate).
  - apply (proj2 (proj2 (infer_time_label_fallbacks to_datetime_ymd july_path
                           ds_A "daily" eq_refl) eq_refl) ltac:(discriminate)
             "20240701");
      vm_compute; reflexivity.
Defined.

Example infer_time_label_monthly_name :
  infer_time_label to_datetime_ymd
    "/data/S3B_OLCI_EFRNT.20240601_20240603.L3m.MO.ILW_CONUS.nc" ds_A "monthly"
  = Ok 1717286400000000000%Z.
Proof. vm_compute. reflexivity. Qed.

(** Scenario C of the specification: a file of garbage between well-formed
    files. *)
Example run_daily_scenario_C :
  let r := run_daily to_datetime_ymd exact_mean exact_quantile
             (mkWorld (Ok lakes_plain) [file_garbage; file_h5_only; file_undated])
             "/data/CONUS_DAY" "lake_id" "/out/lake_ci_daily.parquet" in
  outcome r = Ok tt
  ∧ opened_engines (f_name file_garbage) (trace r) = []
  ∧ done_engines (f_name file_h5_only) (trace r) = [h5netcdf]
  ∧ done_engines (f_name file_undated) (trace r) = []
  ∧ List.filter (λ ev, match ev with EvToParquet _ _ => true | _ => false end) (trace r)
    = [EvToParquet "/out/lake_ci_daily.parquet"
         (assemble [label_rows (f_name file_h5_only) h5netcdf
            (pd_DataFrame core_columns
               [<["lake_id" := VStr "erie"]> (
                <["time" := VTime 1719792000000000000%Z]> (
                <["product" := VStr "daily"]> (
                <["CI_mean" := VFloat (Num 5)]> (
                <["CI_p90" := VFloat (Num 5)]> (
                <["n_valid" := VInt 1]> (
                <["src" := VStr (f_name file_h5_only)]> (
                <["engine" := VStr "h5netcdf"]> ∅)))))))])])].
Proof. vm_compute. done. Qed.

Lemma inference_failure_is_per_file_witness :
  ∃ t1 out1 e1 e2,
    file_loop to_datetime_ymd exact_mean exact_quantile "/data/CONUS_DAY"
      [lake_erie] "lake_id" [file_garbage] [] = IO t1 (Ok out1)
    ∧ process_file to_datetime_ymd exact_mean exact_quantile "/data/CONUS_DAY"
        [lake_erie] "lake_id" out1 file_undated
      = IO [EvStart undated_name; EvOpenDataset netcdf4 undated_name;
            EvEngineFailed netcdf4 undated_name e1;
            EvOpenDataset h5netcdf undated_name;
            EvEngineFailed h5netcdf undated_name e2]
          (Ok out1).
Proof.
  destruct (inference_failure_is_per_file to_datetime_ymd exact_mean exact_quantile
              "/data/CONUS_DAY" [lake_erie] "lake_id" [file_garbage] [file_h5_only]
              file_undated [])
    as (_ & (t1 & out1 & e1 & e2 & H1 & H2 & _) & _).
  - exists hdf5_header. vm_compute. done.
  - intros e ds [= <-]. vm_compute. done.
  - exists t1, out1, e1, e2. done.
Defined.

Example run_daily_missing_crs :
  run_daily to_datetime_ymd exact_mean exact_quantile
    (mkWorld (Ok (mkGeoDataFrame None ["lake_id"] [lake_erie])) [file_h5_only])
    "/data/CONUS_DAY" "lake_id" "/out/lake_ci_daily.parquet"
  = IO [] (Raise (ValueError
      "The lake file is missing CRS, please ensure it is EPSG:4326")).
Proof. vm_compute. reflexivity. Qed.

Example looks_like_hdf5_examples :
  looks_like_hdf5 file_h5_only = Ok true
  ∧ looks_like_hdf5 file_garbage = Ok false
  ∧ looks_like_hdf5 (mkRasterFile "classic.nc" (Some [Byte.x43; Byte.x44; Byte.x46; Byte.x01]) (λ _, None))
    = Ok true
  ∧ looks_like_hdf5 (mkRasterFile "short.nc" (Some [Byte.x89; Byte.x48]) (λ _, None))
    = Ok false
  ∧ looks_like_hdf5 (mkRasterFile "unreadable.nc" None (λ _, None)) = Ok false.
Proof. vm_compute. done. Qed.

(** The climate table of the example directory. *)
Example daymet_main_example :
  df_values <$> attempt (daymet_main exact_mean id example_daymet lakes_plain)
  = Some [[Some (VStr "erie"); Some (VStr "erie"); Some (VTime t_2024_05_01);
           Some (VFloat (Num 5)); Some (VFloat (Num 5)); Some (VFloat (Num 5));
           Some (VFloat (Num 5)); Some (VFloat (Num 5)); Some (VFloat (Num 5))];
          [Some (VStr "erie"); Some (VStr "erie"); Some (VTime t_2024_06_01);
           Some (VFloat (Num 7)); Some (VFloat (Num 7)); Some (VFloat (Num 7));
           Some (VFloat (Num 7)); Some (VFloat (Num 7)); Some (VFloat (Num 7))]].
Proof. vm_compute. reflexivity. Qed.

(** A day that only the second variable has stays in the join, with NaN for
    the first variable; the rows come out sorted by the keys. *)
Example merge_outer_example :
  let row (d : Z) (var : string) (x : Z) : gmap string value :=
    <["lake_id" := VStr "erie"]> (<["lake_name" := VStr "Erie"]> (
    <["date" := VTime d]> {[ var := VFloat (Num (inject_Z x)) ]})) in
  let tmin := mkDataFrame ["lake_id"; "lake_name"; "date"; "tmin"]
                [row 2 "tmin" 20; row 1 "tmin" 10]%Z in
  let tmax := mkDataFrame ["lake_id"; "lake_name"; "date"; "tmax"]
                [row 3 "tmax" 33; row 1 "tmax" 11]%Z in
  df_values (merge_outer merge_keys tmin tmax)
  = [[Some (VStr "erie"); Some (VStr "Erie"); Some (VTime 1%Z);
      Some (VFloat (Num 10)); Some (VFloat (Num 11))];
     [Some (VStr "erie"); Some (VStr "Erie"); Some (VTime 2%Z);
      Some (VFloat (Num 20)); Some (VFloat NaN)];
     [Some (VStr "erie"); Some (VStr "Erie"); Some (VTime 3%Z);
      Some (VFloat NaN); Some (VFloat (Num 33))]].
Proof. vm_compute. reflexivity. Qed.

Lemma synthesized_lake_name_witness :
  ∃ df,
    daymet_main exact_mean id example_daymet lakes_plain = Ok df
    ∧ (∃ lakes', prepare_lakes lakes_plain = Ok (lakes', "lake_name")
                 ∧ ∀ row lake_id, row ∈ gdf_features lakes' →
                     ft_attrs row !! "lake_id" = Some lake_id →
                     ft_attrs row !! "lake_name" = Some lake_id)
    ∧ (∀ r, r ∈ df_rows df →
         cell r "lake_name" = cell r "lake_id"
         ∧ (is_null (cell r "lake_id") = false → is_null (cell r "lake_name") = false))
    ∧ Forall (λ c, c ∈ df_columns df) merge_keys.
Proof.
  destruct (daymet_main exact_mean id example_daymet lakes_plain) as [df|e] eqn:E;
    [|vm_compute in E; discriminate E].
  exists df. split; [reflexivity|].
  apply (synthesized_lake_name exact_mean id example_daymet lakes_plain df);
    [vm_compute; reflexivity | exact E].
Defined.

(** A missing name in an existing name column, and a missing id when the
    name column is synthesized, both give rows whose [lake_name] is null. *)
Lemma lake_name_non_null_counterexample :
  (find_name_col (gdf_columns lakes_unnamed) = Some "name"
   ∧ (λ r : list (option value), r !! 1%nat) <$>
       (default [] (df_values <$> attempt (daymet_main exact_mean id example_daymet
                                             lakes_unnamed)))
     = [Some (Some VNone); Some (Some VNone)])
  ∧ (find_name_col (gdf_columns lakes_without_id) = None
     ∧ (λ r : list (option value), r !! 1%nat) <$>
         (default [] (df_values <$> attempt (daymet_main exact_mean id example_daymet
                                               lakes_without_id)))
       = [Some (Some VNone); Some (Some VNone)]).
Proof. vm_compute. done. Qed.

(* ===================================================================== *)
(** * Part IV. Further properties of the two scripts                       *)
(* ===================================================================== *)

(** ** Shared cell law *)

Lemma clean_ci_cell (da : DataArray) (i j : nat) :
  cell_at (da_values (clean_ci da)) i j
  = (λ v, if excluded (da_attrs da !! "valid_min") (da_attrs da !! "valid_max") v
          then NaN else v) <$> cell_at (da_values da) i j.
Proof.
  rewrite clean_ci_values, cell_at_grid_map.
  destruct (cell_at (da_values da) i j) as [v|]; simpl; [|done].
  by rewrite clean_cell_law.
Qed.

(** ** The signature check *)

Lemma startswith_prefix (s p : list Byte.byte) :
  startswith s p = true ↔ ∃ rest, s = p ++ rest.
Proof.
  revert s. induction p as [|b p IH]; intros [|c s]; simpl.
  - split; [by exists [] | done].
  - split; [by exists (c :: s) | done].
  - split; [done | by intros [? [=]]].
  - rewrite andb_true_iff, IH. split.
    + intros [->%Byte.byte_dec_bl [rest ->]]. by exists rest.
    + intros [rest [= -> ->]]. split; [by apply Byte.byte_dec_lb | by exists rest].
Qed.

(** X1. [looks_like_hdf5] answers [True] exactly for a file that can be read
    and whose content begins with the bytes [\x89HDF] or [CDF]; what follows
    the magic number, and whether there are 8 bytes at all, does not
    matter. *)
Theorem looks_like_hdf5_iff_magic (path : RasterFile) :
  looks_like_hdf5 path = Ok true
  ↔ ∃ rest, f_bytes path = Some (hdf5_magic ++ rest)
            ∨ f_bytes path = Some (cdf_magic ++ rest).
Proof.
  destruct (f_bytes path) as [bs|] eqn:E.
  - rewrite (looks_like_hdf5_bytes path bs E). unfold has_magic.
    split.
    + intros [= [[rest ->]%startswith_prefix | [rest ->]%startswith_prefix]%orb_true_iff];
        exists rest; auto.
    + intros [rest [[= ->] | [= ->]]]; f_equal; apply orb_true_iff;
        [left | right]; apply startswith_prefix; by exists rest.
  - rewrite (looks_like_hdf5_unreadable path E).
    split; [done | by intros [rest [? | ?]]].
Qed.

(** ** The validity filter, again *)

Lemma da_attrs_clean_ci da : da_attrs (clean_ci da) = da_attrs da.
Proof.
  unfold clean_ci.
  destruct (isfinite (default NaN (da_attrs da !! "valid_min"))),
    (isfinite (default NaN (da_attrs da !! "valid_max"))); reflexivity.
Qed.

Lemma excluded_NaN valid_min valid_max : excluded valid_min valid_max NaN = false.
Proof.
  unfold excluded. destruct (finite_attr valid_min), (finite_attr valid_max);
    reflexivity.
Qed.

Lemma clean_cell_idempotent valid_min valid_max v :
  clean_cell valid_min valid_max (clean_cell valid_min valid_max v)
  = clean_cell valid_min valid_max v.
Proof.
  rewrite !clean_cell_law.
  destruct (excluded valid_min valid_max v) eqn:E.
  - by rewrite excluded_NaN.
  - by rewrite E.
Qed.

(** X2. Filtering twice is filtering once: [clean_ci] keeps the attributes
    of the variable, and a second pass changes no cell. *)
Theorem clean_ci_idempotent (da : DataArray) :
  clean_ci (clean_ci da) = clean_ci da.
Proof.
  assert (H : ∀ a b : DataArray,
            da_attrs a = da_attrs b → da_values a = da_values b → a = b).
  { intros [] []; simpl; congruence. }
  apply H; [by rewrite !da_attrs_clean_ci|].
  rewrite (clean_ci_values (clean_ci da)), da_attrs_clean_ci, clean_ci_values.
  rewrite grid_map_map. unfold grid_map.
  apply list_fmap_ext. intros _ row _. apply list_fmap_ext. intros _ v _.
  apply clean_cell_idempotent.
Qed.

Lemma threshold_not_NaN valid_min : threshold valid_min ≠ NaN.
Proof.
  unfold threshold, finite_attr, fmax, noise_floor.
  destruct valid_min as [[| |q|]|]; simpl; try done.
  by destruct (flt _ _).
Qed.

Lemma fgt_above_floor valid_min v :
  fgt v (threshold valid_min) = true → fgt v noise_floor = true.
Proof.
  unfold threshold, finite_attr, fmax, noise_floor.
  destruct valid_min as [[| |m|]|]; simpl; try done.
  unfold flt, fgt. destruct v as [| |q|]; simpl;
    repeat match goal with
           | |- context [(?a ?= ?b)%Q] => destruct (Qcompare_spec a b); simpl
           end;
    try done; intros _; exfalso; lra.
Qed.

(** X3. A value that [clean_ci] lets through is the value of the same cell of
    the input, it is strictly above [5e-5] whatever the attributes say, and
    it lies within the finite [valid_min] and [valid_max] that the variable
    declares. *)
Theorem clean_ci_kept_values (da : DataArray) (i j : nat) (v : float) :
  cell_at (da_values (clean_ci da)) i j = Some v →
  v ≠ NaN →
  cell_at (da_values da) i j = Some v
  ∧ fgt v noise_floor = true
  ∧ (∀ m, da_attrs da !! "valid_min" = Some m → isfinite m = true → fge v m = true)
  ∧ (∀ M, da_attrs da !! "valid_max" = Some M → isfinite M = true → fle v M = true).
Proof.
  intros Hcell Hv. rewrite clean_ci_cell in Hcell.
  destruct (cell_at (da_values da) i j) as [v0|]; [|done]. simpl in Hcell.
  destruct (excluded _ _ v0) eqn:E; injection Hcell as <-; [done|].
  split; [done|]. unfold excluded in E.
  apply orb_false_iff in E as [E Ethr]. apply orb_false_iff in E as [Emin Emax].
  split; [|split].
  - apply (fgt_above_floor (da_attrs da !! "valid_min")).
    rewrite fle_not_fgt in Ethr by (done || apply threshold_not_NaN).
    by apply negb_false_iff in Ethr.
  - intros m Hm Hfin. rewrite Hm in Emin. simpl in Emin. rewrite Hfin in Emin.
    rewrite fge_not_flt by (by destruct m). by rewrite Emin.
  - intros M HM Hfin. rewrite HM in Emax. simpl in Emax. rewrite Hfin in Emax.
    rewrite fle_not_fgt by (by destruct M). by rewrite Emax.
Qed.

(** ** The bounding-box selector, both ways *)

Lemma cell_at_bbox_mask_bind lon lat minx miny maxx maxy i j :
  cell_at (bbox_mask lon lat (minx, miny, maxx, maxy)) i j
  = x ← cell_at lon i j; y ← cell_at lat i j;
    Some (fge x minx && fle x maxx && fge y miny && fle y maxy).
Proof.
  unfold bbox_mask, grid_and.
  rewrite !cell_at_grid_zip_with, !cell_at_grid_map.
  destruct (cell_at lon i j), (cell_at lat i j); reflexivity.
Qed.

Lemma bounds_shape (g : geometry) :
  bounds g = (NaN, NaN, NaN, NaN)
  ∨ ∃ minx miny maxx maxy, bounds g = (Num minx, Num miny, Num maxx, Num maxy).
Proof. unfold bounds. destruct (shell_points g); [left | right]; eauto. Qed.

(** X4. The selector of a lake selects exactly the cells whose longitude and
    latitude are finite numbers inside the closed box [geom.bounds]: a cell
    with a NaN or infinite coordinate is never selected, and an empty
    geometry selects nothing. *)
Theorem bbox_mask_selects
    (g : geometry) (lon lat : grid float) (i j : nat) :
  cell_at (bbox_mask lon lat (bounds g)) i j = Some true
  ↔ ∃ x y minx miny maxx maxy,
      cell_at lon i j = Some (Num x)
      ∧ cell_at lat i j = Some (Num y)
      ∧ bounds g = (Num minx, Num miny, Num maxx, Num maxy)
      ∧ in_box minx miny maxx maxy (x, y).
Proof.
  split.
  - destruct (bounds_shape g) as [Hb | (minx & miny & maxx & maxy & Hb)];
      rewrite Hb, cell_at_bbox_mask_bind;
      destruct (cell_at lon i j) as [x|]; try done;
      destruct (cell_at lat i j) as [y|]; try done; simpl.
    + by destruct x, y.
    + intros [= H].
      apply andb_true_iff in H as [H H4]. apply andb_true_iff in H as [H H3].
      apply andb_true_iff in H as [H1 H2].
      destruct x as [| |x|]; try discriminate H1; try discriminate H2.
      destruct y as [| |y|]; try discriminate H3; try discriminate H4.
      apply fge_Num in H1, H3. apply fle_Num in H2, H4.
      exists x, y, minx, miny, maxx, maxy. unfold in_box. simpl. auto 10.
  - intros (x & y & minx & miny & maxx & maxy & Hx & Hy & -> & H1 & H2 & H3 & H4).
    rewrite cell_at_bbox_mask_bind, Hx, Hy. simpl in *.
    apply fge_Num in H1, H3. apply fle_Num in H2, H4.
    by rewrite H1, H2, H3, H4.
Qed.

(** ** The core extraction: what makes it fail, what it returns *)

Section core_properties.
Variable np_nanmean : list float → float.
Variable np_nanquantile : list float → float → float.

Local Abbreviation core := (_extract_lakes_core_from_ds np_nanmean np_nanquantile).

Lemma lake_row_Ok_inv da lon lat nc_path col product t engine r row :
  lake_row np_nanmean np_nanquantile da lon lat nc_path col product t engine r = Ok row →
  ∃ lid geom,
    ft_attrs r !! col = Some lid ∧ ft_geometry r = Some geom
    ∧ row !! "lake_id" = Some lid
    ∧ row !! "time" = Some (VTime t)
    ∧ row !! "product" = Some (VStr product)
    ∧ row !! "n_valid"
      = Some (VInt (Z.of_nat (lake_stats np_nanmean np_nanquantile da lon lat geom).2)).
Proof.
  unfold lake_row. intros (lid & Hid%from_some_Ok & H)%bind_Ok_inv.
  apply bind_Ok_inv in H as (geom & Hgeom%from_some_Ok & H).
  destruct (lake_stats _ _ da lon lat geom) as [[mean_val p90] n_valid] eqn:E.
  injection H as <-. exists lid, geom. rewrite E. repeat split; done.
Qed.

(** X5. [_extract_lakes_core_from_ds] checks the dataset before it touches a
    lake: a missing [CI_cyano] raises its KeyError even when the coordinates
    are missing too, a missing [lat] or [lon] raises the other KeyError, and
    coordinate arrays of another shape raise the ValueError.  When it
    returns, the table has one row per lake of the layer, in their order;
    with no lake the table has no columns at all. *)
Theorem core_checks_then_rows
    (ds : Dataset) (nc_path : string) (lakes_gdf : list Feature)
    (lake_id_col product : string) (time_label : Timestamp) (engine : string) :
  let r := core ds nc_path lakes_gdf lake_id_col product time_label engine in
  (ds_data_vars ds !! "CI_cyano" = None →
   r = Raise (KeyError "CI_cyano not found in dataset data_vars"))
  ∧ (is_Some (ds_data_vars ds !! "CI_cyano") →
     ds_variable ds "lat" = None ∨ ds_variable ds "lon" = None →
     r = Raise (KeyError "lat / lon not found in dataset"))
  ∧ (∀ da lat lon,
       ds_data_vars ds !! "CI_cyano" = Some da →
       ds_variable ds "lat" = Some lat → ds_variable ds "lon" = Some lon →
       shape (da_values lat) ≠ shape (da_values da)
       ∨ shape (da_values lon) ≠ shape (da_values da) →
       r = Raise (ValueError "lat/lon shape not matching CI_cyano"))
  ∧ (∀ df, r = Ok df →
       Forall2 (λ lake row, row !! "lake_id" = ft_attrs lake !! lake_id_col
                            ∧ row !! "time" = Some (VTime time_label))
         lakes_gdf (df_rows df)
       ∧ df_columns df = match lakes_gdf with [] => [] | _ => core_columns end).
Proof.
  unfold _extract_lakes_core_from_ds. cbv zeta. split; [|split; [|split]].
  - by intros ->.
  - intros [da ->] [H|H]; cbn [from_some mbind result_bind]; rewrite H; [done|].
    by destruct (ds_variable ds "lat").
  - intros da lat lon -> -> -> Hshape. cbn [from_some mbind result_bind].
    rewrite shape_clean_ci, bool_decide_false; [done|]. tauto.
  - intros df (da & _ & H)%bind_Ok_inv.
    apply bind_Ok_inv in H as (lat & _ & H).
    apply bind_Ok_inv in H as (lon & _ & H).
    destruct (bool_decide _); [|done].
    apply bind_Ok_inv in H as (rows & Hrows%mapM_Ok & [= <-]).
    split.
    + cbn [df_rows pd_DataFrame]. eapply Forall2_impl; [exact Hrows|].
      intros lake row (lid & geom & Hid & _ & Hl & Ht & _)%lake_row_Ok_inv.
      by rewrite Hid.
    + unfold pd_DataFrame. cbn [df_columns].
      by destruct Hrows.
Qed.
End core_properties.

(** ** Time labels *)

(** X6. The label of a monthly product lies between the start and the end of
    the coverage, whichever of the two comes first; it is the start when the
    two are less than two nanoseconds apart. *)
Theorem midpoint_between (ts te : Timestamp) :
  ((ts <= te → ts <= midpoint ts te <= te)
   ∧ (te <= ts → te <= midpoint ts te <= ts)
   ∧ (-2 < te - ts < 2 → midpoint ts te = ts))%Z.
Proof.
  unfold midpoint, timedelta_half.
  repeat split; intros; Z.quot_rem_to_equations; lia.
Qed.

(** ** The fallback chain of [try_open_xarray] *)

(** X7. [try_open_xarray] returns the dataset of the first engine that
    decodes the file, netcdf4 before h5netcdf, and never calls h5netcdf when
    netcdf4 decodes; it returns [(None, None)] exactly when both engines
    raise, and only then probes the file with h5py; the skip line with the
    two errors is then the last thing it prints. *)
Theorem try_open_xarray_first_success
    (h5py_file : RasterFile → result unit) (fp : RasterFile) :
  let '(log, r) := try_open_xarray h5py_file fp in
  (∀ ds, f_decode fp netcdf4 = Some ds →
     r = Some (ds, netcdf4) ∧ log = [OpXarray netcdf4 (f_name fp)])
  ∧ (∀ ds, f_decode fp netcdf4 = None → f_decode fp h5netcdf = Some ds →
       r = Some (ds, h5netcdf)
       ∧ log = [OpXarray netcdf4 (f_name fp); OpXarray h5netcdf (f_name fp)])
  ∧ (r = None ↔ f_decode fp netcdf4 = None ∧ f_decode fp h5netcdf = None)
  ∧ (OpH5py (f_name fp) ∈ log ↔ r = None)
  ∧ (r = None → ∃ e1 e2, last log = Some (SkipFile (f_name fp) e1 e2)).
Proof.
  unfold try_open_xarray, decode.
  destruct (f_decode fp netcdf4) as [ds1|] eqn:E1;
    [|destruct (f_decode fp h5netcdf) as [ds2|] eqn:E2]; cbn [from_some];
    cbv beta iota zeta.
  - split; [by intros ? [= <-]|]. split; [done|]. split; [by split; [|intros [? _]]|].
    split; [|done]. by split; [intros [=]%list_elem_of_singleton|].
  - split; [done|]. split; [by intros ? _ [= <-]|].
    split; [by split; [|intros [_ ?]]|]. split; [|done].
    split; [|done]. intros H. apply elem_of_cons in H as [[=]|H].
    by apply list_elem_of_singleton in H.
  - split; [done|]. split; [done|]. split; [done|]. split.
    + split; [done|]. intros _. do 2 right. by left.
    + intros _. by eexists _, _.
Qed.

(** ** Tables: row counts and cells through the assembly *)

Lemma length_label_rows name e raw :
  length (df_rows (label_rows name e raw)) = length (df_rows raw).
Proof.
  unfold label_rows, df_assign. cbn [df_rows]. rewrite !length_fmap.
  destruct (_ && _); [|done]. unfold df_rename. cbn [df_rows]. by rewrite length_fmap.
Qed.

Lemma length_fold_fill cs df :
  length (df_rows (fold_left fill_step cs df)) = length (df_rows df).
Proof.
  revert df. induction cs as [|c cs IH]; intros df; [done|].
  cbn [fold_left]. rewrite IH. unfold fill_step.
  destruct (has_column df c); [done|].
  unfold df_assign. cbn [df_rows]. by rewrite length_fmap.
Qed.

Lemma length_bind_reindex cols dfs n :
  Forall (λ d, length (df_rows d) = n) dfs →
  length (dfs ≫= (λ df, reindex cols <$> df_rows df)) = (length dfs * n)%nat.
Proof.
  induction 1 as [|d dfs Hd _ IH]; [done|].
  rewrite bind_cons, length_app, length_fmap, IH, Hd. cbn [length]. lia.
Qed.

Lemma length_assemble tables n :
  Forall (λ d, length (df_rows d) = n) tables →
  length (df_rows (assemble tables)) = (length tables * n)%nat.
Proof.
  intros H. rewrite assemble_rows, length_fmap, fill_missing_fold, length_fold_fill.
  unfold pd_concat. cbn [df_rows]. by apply length_bind_reindex.
Qed.

Lemma elem_of_fold_union cols acc c :
  c ∈ fold_left (λ (acc : list string) c,
                   if bool_decide (c ∈ acc) then acc else (acc ++ [c])%list) cols acc
  ↔ c ∈ acc ∨ c ∈ cols.
Proof.
  revert acc. induction cols as [|c' cols IH]; intros acc; cbn [fold_left].
  { split; [by left | by intros [? | ?%elem_of_nil]]. }
  rewrite IH, elem_of_cons. case_bool_decide as Hc'.
  - split; [tauto|]. intros [? | [-> | ?]]; tauto.
  - rewrite elem_of_app, list_elem_of_singleton. tauto.
Qed.

Lemma elem_of_union_columns cols c : c ∈ union_columns cols ↔ c ∈ cols.
Proof.
  unfold union_columns. rewrite elem_of_fold_union.
  split; [by intros [?%elem_of_nil | ?] | by right].
Qed.

(** The loop over [keep_cols] changes no cell of a column that the table
    has. *)
Lemma fold_fill_rows cs df :
  ∃ g : gmap string value → gmap string value,
    df_rows (fold_left fill_step cs df) = g <$> df_rows df
    ∧ ∀ c r, has_column df c = true → g r !! c = r !! c.
Proof.
  revert df. induction cs as [|c' cs IH]; intros df; cbn [fold_left].
  { exists id. by rewrite list_fmap_id. }
  unfold fill_step at 2. destruct (has_column df c') eqn:Hc'; [apply IH|].
  destruct (IH (df_assign c' (null_marker c') df)) as (g & Hg & Hcell).
  exists (g ∘ <[c' := null_marker c']>). split.
  - rewrite Hg. unfold df_assign. cbn [df_rows]. by rewrite list_fmap_compose.
  - intros c r Hc. unfold compose. rewrite Hcell.
    + apply lookup_insert_ne. intros ->. congruence.
    + apply bool_decide_eq_true. apply bool_decide_eq_true in Hc.
      unfold df_assign. cbn [df_columns]. rewrite Hc'.
      apply elem_of_app. by left.
Qed.

(** Every row of the assembled table comes from a row of one of the tables,
    with the same cells in the columns which that table has. *)
Lemma assemble_cell tables r :
  r ∈ df_rows (assemble tables) →
  ∃ d r0, d ∈ tables ∧ r0 ∈ df_rows d
          ∧ ∀ c, c ∈ keep_cols → c ∈ df_columns d → r !! c = Some (cell r0 c).
Proof.
  rewrite assemble_rows, fill_missing_fold.
  destruct (fold_fill_rows keep_cols (pd_concat tables)) as (g & -> & Hg).
  intros (r1 & -> & (r2 & -> & Hr2)%list_elem_of_fmap)%list_elem_of_fmap.
  unfold pd_concat in Hr2. cbn [df_rows] in Hr2.
  apply list_elem_of_bind in Hr2 as (d & (r0 & -> & Hr0)%list_elem_of_fmap & Hd).
  exists d, r0. repeat split; try done. intros c Hkeep Hc.
  assert (Hin : c ∈ union_columns (tables ≫= df_columns)).
  { apply elem_of_union_columns, list_elem_of_bind. eauto. }
  rewrite lookup_reindex, bool_decide_true by done. f_equal. unfold cell at 1.
  rewrite Hg.
  - by rewrite lookup_reindex, bool_decide_true.
  - unfold has_column, pd_concat. cbn [df_columns]. by apply bool_decide_eq_true.
Qed.

Lemma select_dropna_kept lakes col gdf lake :
  select_dropna lakes col = Ok gdf → lake ∈ gdf →
  ∃ lid geom, ft_attrs lake !! col = Some lid ∧ is_null lid = false
              ∧ ft_geometry lake = Some geom.
Proof.
  unfold select_dropna. case_bool_decide; [|done]. intros [= <-].
  intros [_ Hf]%list_elem_of_In%filter_In. revert Hf.
  destruct (ft_attrs lake !! col) as [lid|]; [|done].
  destruct (ft_geometry lake) as [geom|]; [|done].
  intros Hf%negb_true_iff. by exists lid, geom.
Qed.

(** ** The run of the index pipeline as a whole *)

Section whole_run.
Variable parse_datetime : string → option Timestamp.
Variable np_nanmean : list float → float.
Variable np_nanquantile : list float → float → float.

Local Abbreviation contribution :=
  (file_contribution parse_datetime np_nanmean np_nanquantile).
Local Abbreviation tables_of :=
  (appended_tables parse_datetime np_nanmean np_nanquantile).
Local Abbreviation process := (process_file parse_datetime np_nanmean np_nanquantile).
Local Abbreviation loop := (file_loop parse_datetime np_nanmean np_nanquantile).
Local Abbreviation run := (run_daily parse_datetime np_nanmean np_nanquantile).

Lemma process_file_contribution daily_dir gdf col out_rows fp :
  outcome (process daily_dir gdf col out_rows fp)
  = Ok (out_rows ++ option_list (snd <$> contribution daily_dir gdf col fp))
  ∧ started_files (trace (process daily_dir gdf col out_rows fp)) = [f_name fp]
  ∧ run_messages (trace (process daily_dir gdf col out_rows fp)) = [].
Proof.
  pose proof (process_file_cases parse_datetime np_nanmean np_nanquantile
                daily_dir gdf col out_rows fp) as Hc.
  cbv zeta in Hc. unfold file_contribution.
  destruct Hc as [[H ->] | [(raw & H & H1 & ->) | [(e1 & raw & H & H1 & H2 & ->)
                 | (e1 & e2 & H & H1 & H2 & ->)]]];
    rewrite H, ?H1, ?H2; cbn [outcome trace fmap option_fmap option_map option_list snd];
    by rewrite ?app_nil_r.
Qed.

Lemma file_loop_contributions daily_dir gdf col files out_rows :
  outcome (loop daily_dir gdf col files out_rows)
  = Ok (out_rows ++ tables_of daily_dir gdf col files)
  ∧ started_files (trace (loop daily_dir gdf col files out_rows)) = f_name <$> files
  ∧ run_messages (trace (loop daily_dir gdf col files out_rows)) = [].
Proof.
  revert out_rows. induction files as [|fp files IH]; intros out_rows.
  { cbn. by rewrite app_nil_r. }
  destruct (process_file_total parse_datetime np_nanmean np_nanquantile
              daily_dir gdf col out_rows fp) as (t & out1 & Hp).
  destruct (process_file_contribution daily_dir gdf col out_rows fp) as (Ho & Hs & Hw).
  rewrite Hp in Ho, Hs, Hw. cbn [outcome trace] in Ho, Hs, Hw. injection Ho as ->.
  rewrite (file_loop_cons _ _ _ _ _ _ _ _ _ _ _ Hp). cbn [outcome trace].
  destruct (IH (out_rows ++ option_list (snd <$> contribution daily_dir gdf col fp)))
    as (IHo & IHs & IHw).
  rewrite IHo. unfold started_files, run_messages in *.
  rewrite bind_app, List.filter_app, Hs, Hw, IHs, IHw.
  repeat split; try done.
  rewrite <- app_assoc. do 2 f_equal. unfold appended_tables. cbn [omap list_omap].
  by destruct (contribution daily_dir gdf col fp) as [[e df]|].
Qed.

(** The run once the lake layer is read: what it prints apart from the lines
    of the files, and that it returns. *)
Lemma run_daily_normal_form w daily_dir col out_parquet lakes crs :
  w_lakes w = Ok lakes → gdf_crs lakes = Some crs → col ∈ gdf_columns lakes →
  ∃ gdf,
    select_dropna lakes col = Ok gdf
    ∧ outcome (run w daily_dir col out_parquet) = Ok tt
    ∧ started_files (trace (run w daily_dir col out_parquet)) = f_name <$> w_files w
    ∧ run_messages (trace (run w daily_dir col out_parquet))
      = match w_files w, tables_of daily_dir gdf col (w_files w) with
        | [], _ => [EvWarnNoFiles]
        | _ :: _, [] => [EvFound (length (w_files w)); EvNoValidRows]
        | _ :: _, (_ :: _) as tables =>
            [EvFound (length (w_files w));
             EvToParquet out_parquet (assemble tables);
             EvSaved out_parquet (length (df_rows (assemble tables)))
               (length (w_files w))]
        end.
Proof.
  intros Hw Hcrs Hcol. unfold run_daily, select_dropna.
  rewrite Hw, io_bind_lift_Ok, Hcrs, bool_decide_true by done.
  eexists. split; [reflexivity|]. rewrite io_bind_lift_Ok.
  set (gdf := List.filter _ _).
  destruct (w_files w) as [|fp files] eqn:Hfiles; [done|].
  rewrite io_bind_emit. cbn [trace outcome].
  destruct (file_loop_total parse_datetime np_nanmean np_nanquantile
              daily_dir gdf col (fp :: files) []) as (t & out & H).
  destruct (file_loop_contributions daily_dir gdf col (fp :: files) []) as (Ho & Hs & Hm).
  set (tables := tables_of daily_dir gdf col (fp :: files)) in *.
  rewrite H in Ho, Hs, Hm |- *. cbn [outcome trace] in Ho, Hs, Hm.
  assert (out = tables) as -> by (rewrite app_nil_l in Ho; congruence).
  unfold mbind, io_bind. cbn [outcome trace].
  unfold started_files, run_messages in *.
  destruct tables as [|d tables];
    cbn [trace outcome emit app];
    rewrite bind_cons, bind_app, Hs; cbn [List.filter is_file_event negb];
    rewrite List.filter_app, Hm; repeat split; try done;
    cbn [app mbind list_bind]; by rewrite app_nil_r.
Qed.

Lemma written_tables_messages t : written_tables (run_messages t) = written_tables t.
Proof.
  unfold written_tables, run_messages.
  induction t as [|ev t IH]; [done|]. rewrite bind_cons, <- IH.
  by destruct ev.
Qed.

Lemma tables_of_nonempty daily_dir gdf col files :
  tables_of daily_dir gdf col files ≠ []
  ↔ ∃ fp, fp ∈ files ∧ is_Some (contribution daily_dir gdf col fp).
Proof.
  unfold appended_tables. induction files as [|fp files IH]; cbn [omap list_omap].
  { split; [done | by intros (? & ?%elem_of_nil & _)]. }
  destruct (contribution daily_dir gdf col fp) as [[e d]|] eqn:E; cbn [fmap option_fmap option_map snd].
  - split; [|done]. intros _. exists fp. rewrite E. split; [left | eauto].
  - rewrite IH. split.
    + intros (fp' & Hin & Hs). exists fp'. split; [by right | done].
    + intros (fp' & [-> | Hin]%elem_of_cons & Hs); [|by exists fp'].
      rewrite E in Hs. by destruct Hs.
Qed.

(** X8. Once the lake layer is read, has a CRS and has the id column,
    [run_daily] returns whatever the raster files hold: every exception
    inside the loop is caught.  Every file of the directory gets its [start]
    line, once, in the order of the sorted listing. *)
Theorem run_daily_returns w daily_dir col out_parquet lakes crs :
  w_lakes w = Ok lakes → gdf_crs lakes = Some crs → col ∈ gdf_columns lakes →
  outcome (run w daily_dir col out_parquet) = Ok tt
  ∧ started_files (trace (run w daily_dir col out_parquet)) = f_name <$> w_files w.
Proof.
  intros Hw Hcrs Hcol.
  destruct (run_daily_normal_form w daily_dir col out_parquet lakes crs Hw Hcrs Hcol)
    as (gdf & _ & Ho & Hs & _).
  done.
Qed.

Lemma select_dropna_Ok lakes col gdf :
  select_dropna lakes col = Ok gdf → col ∈ gdf_columns lakes.
Proof. unfold select_dropna. by case_bool_decide. Qed.

(** X9. [run_daily] writes at most one table, to [out_parquet]: the
    assembled table of the files that were extracted when there is such a
    file, and nothing at all when every file was skipped or the directory is
    empty. *)
Theorem run_daily_writes_once w daily_dir col out_parquet lakes crs gdf :
  w_lakes w = Ok lakes → gdf_crs lakes = Some crs →
  select_dropna lakes col = Ok gdf →
  written_tables (trace (run w daily_dir col out_parquet))
  = match tables_of daily_dir gdf col (w_files w) with
    | [] => []
    | tables => [(out_parquet, assemble tables)]
    end
  ∧ (written_tables (trace (run w daily_dir col out_parquet)) ≠ []
     ↔ ∃ fp, fp ∈ w_files w ∧ is_Some (contribution daily_dir gdf col fp)).
Proof.
  intros Hw Hcrs Hsel.
  destruct (run_daily_normal_form w daily_dir col out_parquet lakes crs Hw Hcrs
              (select_dropna_Ok _ _ _ Hsel))
    as (gdf' & Hsel' & _ & _ & Hm).
  assert (gdf' = gdf) as -> by congruence.
  rewrite <- written_tables_messages, Hm, <- tables_of_nonempty.
  destruct (w_files w) as [|fp files]; [done|].
  by destruct (tables_of daily_dir gdf col (fp :: files)).
Qed.
End whole_run.

Lemma label_rows_core name e row rows :
  label_rows name e (pd_DataFrame core_columns (row :: rows))
  = {| df_columns := keep_cols;
       df_rows := (λ r, <["engine" := VStr (engine_name e)]> (
                        <["src" := VStr name]> (rename_key "time" "date" r)))
                  <$> (row :: rows) |}.
Proof.
  unfold label_rows, pd_DataFrame.
  change (has_column {| df_columns := core_columns; df_rows := row :: rows |} "time"
          && negb (has_column {| df_columns := core_columns; df_rows := row :: rows |}
                     "date")) with true.
  cbv iota zeta. unfold df_assign, df_rename, has_column. cbn [df_columns df_rows].
  f_equal. by rewrite <- !list_fmap_compose.
Qed.

Lemma label_rows_core_cells name e rows r0 :
  r0 ∈ df_rows (label_rows name e (pd_DataFrame core_columns rows)) →
  df_columns (label_rows name e (pd_DataFrame core_columns rows)) = keep_cols
  ∧ ∃ row, row ∈ rows
      ∧ r0 !! "src" = Some (VStr name)
      ∧ r0 !! "engine" = Some (VStr (engine_name e))
      ∧ r0 !! "lake_id" = row !! "lake_id"
      ∧ r0 !! "product" = row !! "product"
      ∧ ∀ v, row !! "time" = Some v → r0 !! "date" = Some v.
Proof.
  destruct rows as [|row1 rows].
  { pose proof (length_label_rows name e (pd_DataFrame core_columns [])) as Hl.
    destruct (df_rows (label_rows _ _ _)); [by intros ?%elem_of_nil | done]. }
  rewrite label_rows_core. cbn [df_columns df_rows].
  intros (row & -> & Hrow)%list_elem_of_fmap. split; [done|].
  exists row. split; [done|].
  rewrite lookup_insert_ne, lookup_insert_eq by done. rewrite lookup_insert_eq.
  rewrite !(lookup_insert_ne _ "engine"), !(lookup_insert_ne _ "src") by done.
  unfold rename_key. destruct (row !! "time") as [v|] eqn:Ht.
  - rewrite !(lookup_insert_ne _ "date") by done. rewrite lookup_insert_eq.
    rewrite !lookup_delete_ne by done. repeat split; done.
  - repeat split; done.
Qed.

(** ** Rows and their provenance *)

Section written_rows.
Variable parse_datetime : string → option Timestamp.
Variable np_nanmean : list float → float.
Variable np_nanquantile : list float → float → float.

Local Abbreviation core := (_extract_lakes_core_from_ds np_nanmean np_nanquantile).
Local Abbreviation contribution :=
  (file_contribution parse_datetime np_nanmean np_nanquantile).
Local Abbreviation tables_of :=
  (appended_tables parse_datetime np_nanmean np_nanquantile).
Local Abbreviation run := (run_daily parse_datetime np_nanmean np_nanquantile).

Lemma core_Ok_inv ds nc_path lakes col product t engine df :
  core ds nc_path lakes col product t engine = Ok df →
  ∃ da lat lon rows,
    ds_data_vars ds !! "CI_cyano" = Some da
    ∧ ds_variable ds "lat" = Some lat ∧ ds_variable ds "lon" = Some lon
    ∧ Forall2 (λ lake row,
         lake_row np_nanmean np_nanquantile (clean_ci da) (da_values lon)
           (da_values lat) nc_path col product t engine lake = Ok row) lakes rows
    ∧ df = pd_DataFrame core_columns rows.
Proof.
  unfold _extract_lakes_core_from_ds.
  intros (da & Hda%from_some_Ok & H)%bind_Ok_inv.
  apply bind_Ok_inv in H as (lat & Hlat%from_some_Ok & H).
  apply bind_Ok_inv in H as (lon & Hlon%from_some_Ok & H).
  destruct (bool_decide _); [|done].
  apply bind_Ok_inv in H as (rows & Hrows%mapM_Ok & [= <-]).
  by exists da, lat, lon, rows.
Qed.

Lemma contribution_inv daily_dir gdf col fp e d :
  contribution daily_dir gdf col fp = Some (e, d) →
  ∃ ds t raw,
    f_decode fp e = Some ds
    ∧ infer_time_label parse_datetime (daily_dir +:+ "/" +:+ f_name fp) ds "daily" = Ok t
    ∧ core ds (daily_dir +:+ "/" +:+ f_name fp) gdf col "daily" t (engine_name e) = Ok raw
    ∧ d = label_rows (f_name fp) e raw.
Proof.
  assert (Hinv : ∀ e raw,
    outcome (extract_with parse_datetime np_nanmean np_nanquantile e daily_dir fp
               gdf col "daily") = Ok raw →
    ∃ ds t, f_decode fp e = Some ds
      ∧ infer_time_label parse_datetime (daily_dir +:+ "/" +:+ f_name fp) ds "daily" = Ok t
      ∧ core ds (daily_dir +:+ "/" +:+ f_name fp) gdf col "daily" t (engine_name e)
        = Ok raw).
  { intros e' raw. rewrite extract_with_outcome.
    intros (ds & Hds%from_some_Ok & H)%bind_Ok_inv.
    apply bind_Ok_inv in H as (t & Ht & H). by exists ds, t. }
  unfold file_contribution. destruct (looks_like_hdf5 fp) as [[|]|]; try done.
  destruct (outcome (extract_with _ _ _ netcdf4 _ _ _ _ _)) as [raw|e1] eqn:E1.
  - intros [= <- <-]. destruct (Hinv _ _ E1) as (ds & t & ? & ? & ?). by exists ds, t, raw.
  - destruct (outcome (extract_with _ _ _ h5netcdf _ _ _ _ _)) as [raw|e2] eqn:E2;
      [|done].
    intros [= <- <-]. destruct (Hinv _ _ E2) as (ds & t & ? & ? & ?). by exists ds, t, raw.
Qed.

Lemma elem_of_tables_of daily_dir gdf col files d :
  d ∈ tables_of daily_dir gdf col files
  ↔ ∃ fp e, fp ∈ files ∧ contribution daily_dir gdf col fp = Some (e, d).
Proof.
  unfold appended_tables. rewrite list_elem_of_omap. split.
  - intros (fp & Hin & H). destruct (contribution daily_dir gdf col fp) as [[e d']|] eqn:E;
      [|done].
    injection H as <-. by exists fp, e.
  - intros (fp & e & Hin & H). exists fp. by rewrite H.
Qed.

Lemma contribution_rows daily_dir gdf col fp e d :
  contribution daily_dir gdf col fp = Some (e, d) →
  length (df_rows d) = length gdf.
Proof.
  intros (ds & t & raw & _ & _ & Hcore & ->)%contribution_inv.
  apply core_Ok_inv in Hcore as (da & lat & lon & rows & _ & _ & _ & Hrows & ->).
  rewrite length_label_rows. cbn [pd_DataFrame df_rows].
  symmetry. by eapply Forall2_length.
Qed.

Lemma run_daily_written w daily_dir col out_parquet lakes crs gdf path df :
  w_lakes w = Ok lakes → gdf_crs lakes = Some crs →
  select_dropna lakes col = Ok gdf →
  (path, df) ∈ written_tables (trace (run w daily_dir col out_parquet)) →
  path = out_parquet ∧ df = assemble (tables_of daily_dir gdf col (w_files w)).
Proof.
  intros Hw Hcrs Hsel.
  destruct (run_daily_normal_form parse_datetime np_nanmean np_nanquantile
              w daily_dir col out_parquet lakes crs Hw Hcrs
              (select_dropna_Ok _ _ _ Hsel))
    as (gdf' & Hsel' & _ & _ & Hm).
  assert (gdf' = gdf) as -> by congruence.
  rewrite <- written_tables_messages, Hm.
  destruct (w_files w) as [|fp files]; [by intros ?%elem_of_nil|].
  destruct (tables_of daily_dir gdf col (fp :: files)); [by intros ?%elem_of_nil|].
  unfold written_tables. cbn [mbind list_bind app].
  by intros [= -> ->]%list_elem_of_singleton.
Qed.

(** X10. The table that [run_daily] writes has one row for every lake of
    the layer that has an id and a geometry, for every file that was
    extracted: a lake without a single valid cell still has its row, and a
    layer without lakes gives a table without rows. *)
Theorem run_daily_row_count w daily_dir col out_parquet lakes crs gdf path df :
  w_lakes w = Ok lakes → gdf_crs lakes = Some crs →
  select_dropna lakes col = Ok gdf →
  (path, df) ∈ written_tables (trace (run w daily_dir col out_parquet)) →
  length (df_rows df)
  = (length (tables_of daily_dir gdf col (w_files w)) * length gdf)%nat.
Proof.
  intros Hw Hcrs Hsel [-> ->]%(run_daily_written _ _ _ _ _ _ _ _ _ Hw Hcrs Hsel).
  apply length_assemble, Forall_forall.
  intros d (fp & e & _ & H)%elem_of_tables_of. by eapply contribution_rows.
Qed.

(** X11. Every row of the table that [run_daily] writes is the row of one
    lake of the layer in one file of the directory: its [lake_id] is the id
    of that lake, which is not null; its [date] is the time label inferred
    for that file from the dataset of the engine that extracted it; its
    [src] is the name of the file, its [engine] the name of that engine, and
    its [product] is [daily]. *)
Theorem run_daily_row_provenance w daily_dir col out_parquet lakes crs gdf path df r :
  w_lakes w = Ok lakes → gdf_crs lakes = Some crs →
  select_dropna lakes col = Ok gdf →
  (path, df) ∈ written_tables (trace (run w daily_dir col out_parquet)) →
  r ∈ df_rows df →
  ∃ fp e ds t lake lid,
    fp ∈ w_files w ∧ f_decode fp e = Some ds
    ∧ infer_time_label parse_datetime (daily_dir +:+ "/" +:+ f_name fp) ds "daily" = Ok t
    ∧ lake ∈ gdf ∧ ft_attrs lake !! col = Some lid ∧ is_null lid = false
    ∧ r !! "lake_id" = Some lid
    ∧ r !! "date" = Some (VTime t)
    ∧ r !! "product" = Some (VStr "daily")
    ∧ r !! "src" = Some (VStr (f_name fp))
    ∧ r !! "engine" = Some (VStr (engine_name e)).
Proof.
  intros Hw Hcrs Hsel [-> ->]%(run_daily_written _ _ _ _ _ _ _ _ _ Hw Hcrs Hsel).
  intros (d & r0 & Hd & Hr0 & Hcell)%assemble_cell.
  apply elem_of_tables_of in Hd as (fp & e & Hfp & Hd).
  apply contribution_inv in Hd as (ds & t & raw & Hds & Ht & Hcore & ->).
  apply core_Ok_inv in Hcore as (da & lat & lon & rows & _ & _ & _ & Hrows & ->).
  apply label_rows_core_cells in Hr0
    as (Hcols & row & Hrow & Hsrc & Heng & Hid & Hprod & Hdate).
  rewrite Hcols in Hcell.
  apply list_elem_of_lookup in Hrow as [i Hi].
  destruct (Forall2_lookup_r _ _ _ i row Hrows Hi) as (lake & Hlake & Hlr).
  apply lake_row_Ok_inv in Hlr as (lid & geom & Hlid & _ & Hl & Htime & Hp & _).
  assert (Hin : lake ∈ gdf) by (by eapply list_elem_of_lookup_2).
  destruct (select_dropna_kept _ _ _ _ Hsel Hin) as (lid' & _ & Hlid' & Hnull & _).
  assert (lid' = lid) as -> by congruence.
  exists fp, e, ds, t, lake, lid. repeat split; try done.
  all: rewrite Hcell by (apply (bool_decide_unpack _); by vm_compute);
    unfold cell; f_equal.
  - by rewrite Hid, Hl.
  - by rewrite (Hdate _ Htime).
  - by rewrite Hprod, Hp.
  - by rewrite Hsrc.
  - by rewrite Heng.
Qed.
End written_rows.

(** ** The properties of the run on the example directory *)

Lemma clean_ci_kept_values_witness :
  cell_at (da_values da_mixed) 0 2 = Some (Num (1 # 100))
  ∧ fgt (Num (1 # 100)) noise_floor = true
  ∧ (∀ m, da_attrs da_mixed !! "valid_min" = Some m → isfinite m = true →
       fge (Num (1 # 100)) m = true)
  ∧ (∀ M, da_attrs da_mixed !! "valid_max" = Some M → isfinite M = true →
       fle (Num (1 # 100)) M = true).
Proof.
  apply (clean_ci_kept_values da_mixed 0 2 (Num (1 # 100)));
    [vm_compute; reflexivity | discriminate].
Defined.

Lemma select_dropna_plain : select_dropna lakes_plain "lake_id" = Ok [lake_erie].
Proof. vm_compute. reflexivity. Qed.

Lemma written_tables_C :
  written_tables
    (trace (run_daily to_datetime_ymd exact_mean exact_quantile world_C
              "/data/CONUS_DAY" "lake_id" "/out/lake_ci_daily.parquet"))
  = [("/out/lake_ci_daily.parquet", table_C)].
Proof. vm_compute. reflexivity. Qed.

Lemma df_rows_table_C : df_rows table_C = [row_C].
Proof. vm_compute. reflexivity. Qed.

Lemma run_daily_returns_witness :
  outcome (run_daily to_datetime_ymd exact_mean exact_quantile world_C
             "/data/CONUS_DAY" "lake_id" "/out/lake_ci_daily.parquet") = Ok tt
  ∧ started_files
      (trace (run_daily to_datetime_ymd exact_mean exact_quantile world_C
                "/data/CONUS_DAY" "lake_id" "/out/lake_ci_daily.parquet"))
    = f_name <$> w_files world_C.
Proof.
  apply (run_daily_returns to_datetime_ymd exact_mean exact_quantile world_C
           "/data/CONUS_DAY" "lake_id" "/out/lake_ci_daily.parquet" lakes_plain
           "EPSG:4326"); [reflexivity | reflexivity | left].
Defined.

Lemma run_daily_writes_once_witness :
  written_tables
    (trace (run_daily to_datetime_ymd exact_mean exact_quantile world_C
              "/data/CONUS_DAY" "lake_id" "/out/lake_ci_daily.parquet"))
  = match appended_tables to_datetime_ymd exact_mean exact_quantile
            "/data/CONUS_DAY" [lake_erie] "lake_id" (w_files world_C) with
    | [] => []
    | tables => [("/out/lake_ci_daily.parquet", assemble tables)]
    end
  ∧ (written_tables
       (trace (run_daily to_datetime_ymd exact_mean exact_quantile world_C
                 "/data/CONUS_DAY" "lake_id" "/out/lake_ci_daily.parquet")) ≠ []
     ↔ ∃ fp, fp ∈ w_files world_C
             ∧ is_Some (file_contribution to_datetime_ymd exact_mean exact_quantile
                          "/data/CONUS_DAY" [lake_erie] "lake_id" fp)).
Proof.
  apply (run_daily_writes_once to_datetime_ymd exact_mean exact_quantile world_C
           "/data/CONUS_DAY" "lake_id" "/out/lake_ci_daily.parquet" lakes_plain
           "EPSG:4326" [lake_erie]);
    [reflexivity | reflexivity | exact select_dropna_plain].
Defined.

Lemma run_daily_row_count_witness :
  length (df_rows table_C)
  = (length (appended_tables to_datetime_ymd exact_mean exact_quantile
               "/data/CONUS_DAY" [lake_erie] "lake_id" (w_files world_C))
     * length [lake_erie])%nat.
Proof.
  apply (run_daily_row_count to_datetime_ymd exact_mean exact_quantile world_C
           "/data/CONUS_DAY" "lake_id" "/out/lake_ci_daily.parquet" lakes_plain
           "EPSG:4326" [lake_erie] "/out/lake_ci_daily.parquet" table_C);
    [reflexivity | reflexivity | exact select_dropna_plain |].
  rewrite written_tables_C. left.
Defined.

Lemma run_daily_row_provenance_witness :
  ∃ fp e ds t lake lid,
    fp ∈ w_files world_C ∧ f_decode fp e = Some ds
    ∧ infer_time_label to_datetime_ymd ("/data/CONUS_DAY" +:+ "/" +:+ f_name fp)
        ds "daily" = Ok t
    ∧ lake ∈ [lake_erie] ∧ ft_attrs lake !! "lake_id" = Some lid
    ∧ is_null lid = false
    ∧ row_C !! "lake_id" = Some lid
    ∧ row_C !! "date" = Some (VTime t)
    ∧ row_C !! "product" = Some (VStr "daily")
    ∧ row_C !! "src" = Some (VStr (f_name fp))
    ∧ row_C !! "engine" = Some (VStr (engine_name e)).
Proof.
  apply (run_daily_row_provenance to_datetime_ymd exact_mean exact_quantile world_C
           "/data/CONUS_DAY" "lake_id" "/out/lake_ci_daily.parquet" lakes_plain
           "EPSG:4326" [lake_erie] "/out/lake_ci_daily.parquet" table_C row_C);
    [reflexivity | reflexivity | exact select_dropna_plain | |].
  - rewrite written_tables_C. left.
  - rewrite df_rows_table_C. left.
Defined.

(** ** File names *)

Lemma list_ascii_of_string_app (a b : string) :
  list_ascii_of_string (a +:+ b) = list_ascii_of_string a ++ list_ascii_of_string b.
Proof.
  induction a as [|c a IH]; [done|].
  change (c :: list_ascii_of_string (a +:+ b)
          = c :: (list_ascii_of_string a ++ list_ascii_of_string b)).
  by rewrite IH.
Qed.

Lemma last_component_aux_no_slash cs acc :
  "/"%char ∉ cs → last_component_aux cs acc = acc ++ cs.
Proof.
  revert acc. induction cs as [|c cs IH]; intros acc Hcs; cbn [last_component_aux].
  { by rewrite app_nil_r. }
  apply not_elem_of_cons in Hcs as [Hc Hcs].
  destruct (Ascii.eqb_spec c "/"); [congruence|].
  rewrite IH by done. by rewrite <- app_assoc.
Qed.

Lemma last_component_aux_slash pre cs acc :
  last_component_aux (pre ++ "/"%char :: cs) acc = last_component_aux cs [].
Proof.
  revert acc. induction pre as [|c pre IH]; intros acc; cbn [last_component_aux app].
  { done. }
  by destruct (Ascii.eqb c "/"); rewrite IH.
Qed.

(** X12. The file name that [infer_time_label] analyses, and that the core
    extraction writes to [src], is the name of the file itself, whatever the
    directory: [nc_path] is the directory joined with the name, and a file
    name holds no slash. *)
Theorem last_component_joined (daily_dir name : string) :
  "/"%char ∉ list_ascii_of_string name →
  last_component (daily_dir +:+ "/" +:+ name) = name.
Proof.
  intros H. unfold last_component.
  rewrite !list_ascii_of_string_app.
  change (list_ascii_of_string "/") with ["/"%char].
  rewrite (last_component_aux_slash _ (list_ascii_of_string name)).
  rewrite last_component_aux_no_slash by done.
  apply string_of_list_ascii_of_string.
Qed.

Lemma last_component_joined_witness :
  last_component ("/data/CONUS_DAY" +:+ "/" +:+ undated_name) = undated_name.
Proof.
  apply (last_component_joined "/data/CONUS_DAY" undated_name).
  apply (bool_decide_unpack _). by vm_compute.
Defined.

(** ** Products *)

(** X13. Only the product [monthly] is special: with any other product
    string [infer_time_label] does what it does for [daily]. *)
Theorem infer_time_label_other_product
    (parse_datetime : string → option Timestamp) (nc_path : string) (ds : Dataset)
    (product : string) :
  product ≠ "monthly" →
  infer_time_label parse_datetime nc_path ds product
  = infer_time_label parse_datetime nc_path ds "daily".
Proof.
  intros H. unfold infer_time_label, time_from_coverage, time_from_filename.
  apply String.eqb_neq in H. rewrite H.
  change ("daily" =? "monthly")%string with false. reflexivity.
Qed.

Lemma infer_time_label_other_product_witness :
  infer_time_label to_datetime_ymd july_path ds_A "weekly"
  = infer_time_label to_datetime_ymd july_path ds_A "daily".
Proof.
  apply (infer_time_label_other_product to_datetime_ymd july_path ds_A "weekly").
  discriminate.
Defined.
(** ** The filename patterns *)

Lemma match_here_spec ps cs :
  match_here ps cs = true
  ↔ ∃ m rest, cs = m ++ rest ∧ Forall2 (λ p c, pat_matches p c = true) ps m.
Proof.
  revert cs. induction ps as [|p ps IH]; intros cs.
  { split; [by exists [], cs | done]. }
  destruct cs as [|c cs]; cbn [match_here].
  { split; [done|]. intros (m & rest & Hcs & Hm). inversion Hm; subst; discriminate Hcs. }
  rewrite andb_true_iff, IH. split.
  - intros (Hp & m & rest & -> & Hm). exists (c :: m), rest. split; [done|].
    by constructor.
  - intros (m & rest & Hcs & Hm). inversion Hm as [|? c' ? m' Hp Hm']; subst.
    injection Hcs as -> ->. split; [done|]. by exists m', rest.
Qed.

Lemma re_search_spec ps cs m :
  re_search ps cs = Some m
  ↔ ∃ pre, cs = pre ++ m ∧ match_here ps m = true
           ∧ ∀ pre' m', cs = pre' ++ m' → match_here ps m' = true →
               (length pre ≤ length pre')%nat.
Proof.
  induction cs as [|c cs IH]; cbn [re_search].
  - destruct (match_here ps []) eqn:E.
    + split.
      * intros [= <-]. exists []. repeat split; try done. intros; cbn; lia.
      * by intros (pre & [-> ->]%eq_sym%app_nil & _).
    + split; [done|]. intros (pre & [-> ->]%eq_sym%app_nil & ? & _). congruence.
  - destruct (match_here ps (c :: cs)) eqn:E.
    + split.
      * intros [= <-]. exists []. repeat split; try done. intros; cbn; lia.
      * intros (pre & Hcs & _ & Hleft).
        specialize (Hleft [] (c :: cs) eq_refl E).
        destruct pre; [|cbn in Hleft; lia]. cbn in Hcs. congruence.
    + rewrite IH. split.
      * intros (pre & -> & Hm & Hleft). exists (c :: pre). repeat split; try done.
        intros [|c' pre'] m' Hcs Hm'.
        { cbn in Hcs. subst m'. congruence. }
        injection Hcs as <- Hcs. cbn. apply le_n_S. by eapply Hleft.
      * intros ([|c' pre] & Hcs & Hm & Hleft).
        { cbn in Hcs. subst m. congruence. }
        injection Hcs as <- Hcs. exists pre. repeat split; try done.
        intros pre' m' Hcs' Hm'.
        specialize (Hleft (c :: pre') m' (f_equal (cons c) Hcs') Hm').
        cbn in Hleft. lia.
Qed.

Lemma re_search_None ps cs :
  re_search ps cs = None ↔ ∀ pre m, cs = pre ++ m → match_here ps m = false.
Proof.
  induction cs as [|c cs IH]; cbn [re_search].
  - destruct (match_here ps []) eqn:E.
    + split; [done|]. intros H. by rewrite (H [] []) in E.
    + split; [|done]. by intros _ pre m [-> ->]%eq_sym%app_nil.
  - destruct (match_here ps (c :: cs)) eqn:E.
    + split; [done|]. intros H. by rewrite (H [] (c :: cs)) in E.
    + rewrite IH. split.
      * intros H [|c' pre] m Hcs; [cbn in Hcs; by subst|].
        injection Hcs as <- Hcs. by eapply H.
      * intros H pre m ->. by apply (H (c :: pre) m).
Qed.

Lemma Forall2_lits s m :
  Forall2 (λ p c, pat_matches p c = true) (lits s) m ↔ m = list_ascii_of_string s.
Proof.
  unfold lits. revert m.
  induction (list_ascii_of_string s) as [|c l IH]; intros m; cbn [fmap list_fmap].
  - split; [by inversion 1 | intros ->; constructor].
  - split.
    + inversion 1 as [|? c' ? m' Hp Hm']; subst. cbn in Hp.
      apply Ascii.eqb_eq in Hp as ->. f_equal. by apply IH.
    + intros ->. constructor; [apply Ascii.eqb_refl | by apply IH].
Qed.

Lemma Forall2_digits n m :
  Forall2 (λ p c, pat_matches p c = true) (replicate n PDigit) m
  ↔ length m = n ∧ forallb is_digit m = true.
Proof.
  revert m. induction n as [|n IH]; intros m; cbn [replicate].
  - split; [by inversion 1 | intros [->%nil_length_inv _]; constructor].
  - split.
    + inversion 1 as [|? c ? m' Hp Hm']; subst. apply IH in Hm' as [<- Hd].
      cbn in Hp |- *. by rewrite Hp, Hd.
    + destruct m as [|c m]; [by intros [[=] _]|]. cbn [length forallb].
      intros [[= Hl] [Hc Hm]%andb_true_iff]. constructor; [done|]. by apply IH.
Qed.

Lemma match_here_daily m :
  match_here daily_pattern m = true
  ↔ ∃ d post, length d = 8%nat ∧ forallb is_digit d = true
              ∧ m = "."%char :: d ++ list_ascii_of_string ".L3m.DAY." ++ post.
Proof.
  rewrite match_here_spec. unfold daily_pattern. split.
  - intros (m0 & post & -> & (k1 & k2 & ->%Forall2_lits & H & ->)%Forall2_app_inv_l).
    apply Forall2_app_inv_l in H as (d & k3 & [Hl Hd]%Forall2_digits & ->%Forall2_lits & ->).
    exists d, post. repeat split; try done.
    change (list_ascii_of_string ".") with ["."%char]. by rewrite <- !app_assoc.
  - intros (d & post & Hl & Hd & ->).
    exists ("."%char :: d ++ list_ascii_of_string ".L3m.DAY."), post.
    split; [by rewrite <- app_comm_cons, <- app_assoc|].
    change ("."%char :: d ++ list_ascii_of_string ".L3m.DAY.")
      with (list_ascii_of_string "." ++ d ++ list_ascii_of_string ".L3m.DAY.").
    apply Forall2_app; [by apply Forall2_lits|].
    apply Forall2_app; [by apply Forall2_digits | by apply Forall2_lits].
Qed.

Lemma stamp_at_match fn n d :
  stamp_at fn n d
  ↔ ∃ pre m post, length pre = n ∧ list_ascii_of_string fn = pre ++ m
      ∧ length (list_ascii_of_string d) = 8%nat
      ∧ forallb is_digit (list_ascii_of_string d) = true
      ∧ m = "."%char :: list_ascii_of_string d
                       ++ list_ascii_of_string ".L3m.DAY." ++ post.
Proof.
  unfold stamp_at. rewrite !list_ascii_of_string_app.
  change (list_ascii_of_string ".") with ["."%char]. split.
  - intros (Hl & Hd & pre & post & Hn & Hfn). eexists pre, _, post.
    repeat split; try done. rewrite Hfn. by rewrite <- !app_assoc.
  - intros (pre & m & post & Hn & Hfn & Hl & Hd & ->). repeat split; try done.
    exists pre, post. split; [done|]. rewrite Hfn. by rewrite <- !app_assoc.
Qed.

Lemma stamp_digits d post :
  length d = 8%nat →
  take 8 (drop 1 ("."%char :: d ++ post)) = d.
Proof.
  intros H. change (drop 1 ("."%char :: d ++ post)) with (d ++ post).
  by apply take_app_length'.
Qed.

(** X14. [daily_group] finds the eight digits of the leftmost place where
    the name reads [.dddddddd.L3m.DAY.], and finds nothing exactly when the
    name has no such place: a name with two date stamps is dated by the
    first. *)
Theorem daily_group_leftmost (fn : string) :
  (∀ d, daily_group fn = Some d
        ↔ ∃ n, stamp_at fn n d ∧ ∀ n' d', stamp_at fn n' d' → (n ≤ n')%nat)
  ∧ (daily_group fn = None ↔ ∀ n d, ¬ stamp_at fn n d).
Proof.
  unfold daily_group. split.
  - intros d. split.
    + destruct (re_search daily_pattern (list_ascii_of_string fn)) as [m|] eqn:E;
        [|done].
      apply re_search_spec in E as (pre & Hfn & Hm & Hleft).
      apply match_here_daily in Hm as (d0 & post & Hl & Hd & ->).
      cbn [mbind option_bind]. rewrite stamp_digits by done. intros [= <-].
      exists (length pre). split.
      * apply stamp_at_match. eexists pre, _, post.
        rewrite list_ascii_of_string_of_list_ascii. by repeat split.
      * intros n' d' (pre' & m' & post' & <- & Hfn' & Hl' & Hd' & ->)%stamp_at_match.
        apply (Hleft _ _ Hfn'). apply match_here_daily. by eexists _, _.
    + intros (n & (pre & m & post & <- & Hfn & Hl & Hd & ->)%stamp_at_match & Hleft).
      assert (E : re_search daily_pattern (list_ascii_of_string fn)
                  = Some ("."%char :: list_ascii_of_string d
                          ++ list_ascii_of_string ".L3m.DAY." ++ post)).
      { apply re_search_spec. exists pre. repeat split; try done.
        - apply match_here_daily. by eexists _, _.
        - intros pre' m' Hfn' (d' & post' & Hl' & Hd' & ->)%match_here_daily.
          apply (Hleft _ (string_of_list_ascii d')), stamp_at_match.
          eexists pre', _, post'. rewrite list_ascii_of_string_of_list_ascii.
          by repeat split. }
      rewrite E. cbn [mbind option_bind]. rewrite stamp_digits by done.
      by rewrite string_of_list_ascii_of_string.
  - destruct (re_search daily_pattern (list_ascii_of_string fn)) as [m|] eqn:E.
    + split; [done|]. intros H. exfalso.
      apply re_search_spec in E as (pre & Hfn & Hm & _).
      apply match_here_daily in Hm as (d0 & post & Hl & Hd & ->).
      apply (H (length pre) (string_of_list_ascii d0)), stamp_at_match.
      eexists pre, _, post. rewrite list_ascii_of_string_of_list_ascii.
      by repeat split.
    + split; [|done]. intros _ n d (pre & m & post & _ & Hfn & Hl & Hd & ->)%stamp_at_match.
      pose proof (proj1 (re_search_None _ _) E _ _ Hfn) as Hno.
      assert (Hyes : match_here daily_pattern
                ("."%char :: list_ascii_of_string d
                 ++ list_ascii_of_string ".L3m.DAY." ++ post) = true).
      { apply match_here_daily. by eexists _, _. }
      congruence.
Qed.
(** ** Calendar dates *)

Section calendar.
Local Open Scope Z_scope.

Lemma days_from_civil_alt y m d :
  days_from_civil y m d
  = year_start (if m <=? 2 then y - 1 else y)
    + (153 * ((m + 9) mod 12) + 2) / 5 + d - 1 - 719468.
Proof.
  unfold days_from_civil, year_start. cbv zeta.
  set (y' := if m <=? 2 then y - 1 else y).
  Z.div_mod_to_equations; lia.
Qed.

Lemma year_start_step y :
  year_start (y + 1) - year_start y = 365 + (if is_leap (y + 1) then 1 else 0).
Proof.
  unfold year_start, is_leap.
  destruct (Z.eqb_spec ((y + 1) mod 4) 0), (Z.eqb_spec ((y + 1) mod 100) 0),
    (Z.eqb_spec ((y + 1) mod 400) 0); cbn [andb orb negb];
    Z.div_mod_to_equations; lia.
Qed.

Lemma year_start_mono a b : a <= b → year_start a <= year_start b.
Proof.
  intros H. replace b with (a + Z.of_nat (Z.to_nat (b - a))) by lia.
  induction (Z.to_nat (b - a)) as [|n IH]; [rewrite Z.add_0_r; lia|].
  rewrite Nat2Z.inj_succ.
  pose proof (year_start_step (a + Z.of_nat n)) as Hs.
  replace (a + Z.succ (Z.of_nat n)) with (a + Z.of_nat n + 1) by lia.
  destruct (is_leap _); lia.
Qed.

Lemma month_fits y m :
  1 <= m <= 12 → m ≠ 2 →
  (153 * ((m + 9) mod 12) + 2) / 5 + days_in_month y m
  <= (153 * ((m + 9) mod 12 + 1) + 2) / 5.
Proof.
  intros Hm Hne.
  assert (m = 1 ∨ m = 3 ∨ m = 4 ∨ m = 5 ∨ m = 6 ∨ m = 7 ∨ m = 8
          ∨ m = 9 ∨ m = 10 ∨ m = 11 ∨ m = 12) as H by lia.
  destruct H as [->|[->|[->|[->|[->|[->|[->|[->|[->|[->| ->]]]]]]]]]];
    vm_compute; discriminate.
Qed.

(** Later dates are later days. *)
Lemma days_from_civil_lt y1 m1 d1 y2 m2 d2 :
  valid_date y1 m1 d1 → valid_date y2 m2 d2 →
  (y1 < y2 ∨ (y1 = y2 ∧ (m1 < m2 ∨ (m1 = m2 ∧ d1 < d2)))) →
  days_from_civil y1 m1 d1 < days_from_civil y2 m2 d2.
Proof.
  intros [Hm1 Hd1] [Hm2 Hd2] Hlt.
  rewrite !days_from_civil_alt.
  set (s1 := if m1 <=? 2 then y1 - 1 else y1).
  set (s2 := if m2 <=? 2 then y2 - 1 else y2).
  set (p1 := (m1 + 9) mod 12). set (p2 := (m2 + 9) mod 12).
  assert (Hp1 : 0 <= p1 <= 11 ∧ (m1 <= 2 → p1 = m1 + 9) ∧ (2 < m1 → p1 = m1 - 3))
    by (subst p1; Z.div_mod_to_equations; lia).
  assert (Hp2 : 0 <= p2 <= 11 ∧ (m2 <= 2 → p2 = m2 + 9) ∧ (2 < m2 → p2 = m2 - 3))
    by (subst p2; Z.div_mod_to_equations; lia).
  assert (Hcase : s1 < s2 ∨ (s1 = s2 ∧ (p1 < p2 ∨ (m1 = m2 ∧ d1 < d2)))).
  { subst s1 s2. destruct (Z.leb_spec m1 2), (Z.leb_spec m2 2); lia. }
  assert (Hfit : m1 ≠ 2 → (153 * p1 + 2) / 5 + d1 <= (153 * (p1 + 1) + 2) / 5).
  { intros Hne. pose proof (month_fits y1 m1 Hm1 Hne) as H. fold p1 in H. lia. }
  assert (Hfeb : m1 = 2 → (153 * p1 + 2) / 5 = 337 ∧ s1 + 1 = y1
                          ∧ d1 <= (if is_leap y1 then 29 else 28)).
  { intros ->. subst s1 p1. unfold days_in_month in Hd1.
    change (2 =? 2) with true in Hd1. cbv iota in Hd1.
    split; [reflexivity|]. split; [|lia]. change (2 <=? 2) with true. cbv iota. lia. }
  clearbody p1 p2.
  assert (Hdoy1 : (153 * p1 + 2) / 5 + d1 - 1
                  <= 364 + (if is_leap (s1 + 1) then 1 else 0)).
  { destruct (Z.eq_dec m1 2) as [E|E].
    - destruct (Hfeb E) as (-> & -> & Hd). destruct (is_leap y1); lia.
    - specialize (Hfit E). assert (p1 <= 10) by lia.
      assert ((153 * (p1 + 1) + 2) / 5 <= 337) by (Z.div_mod_to_equations; lia).
      destruct (is_leap (s1 + 1)); lia. }
  clearbody s1 s2.
  destruct Hcase as [Hs | [Hs [Hmp | [-> Hd]]]].
  - pose proof (year_start_step s1) as Hstep.
    pose proof (year_start_mono (s1 + 1) s2 ltac:(lia)).
    assert (0 <= (153 * p2 + 2) / 5) by (Z.div_mod_to_equations; lia).
    destruct (is_leap (s1 + 1)); lia.
  - rewrite Hs.
    assert (m1 ≠ 2) by lia.
    assert ((153 * (p1 + 1) + 2) / 5 <= (153 * p2 + 2) / 5)
      by (Z.div_mod_to_equations; lia).
    specialize (Hfit ltac:(done)). lia.
  - rewrite Hs. assert (p1 = p2) by lia. subst. lia.
Qed.

(** *** Digits *)

Lemma is_digit_value c : is_digit c = true → 0 <= digit_value c <= 9.
Proof.
  unfold is_digit, digit_value.
  intros [H1%Nat.leb_le H2%Nat.leb_le]%andb_true_iff. lia.
Qed.

Lemma digit_value_inj c1 c2 : digit_value c1 = digit_value c2 → c1 = c2.
Proof.
  unfold digit_value. intros H.
  rewrite <- (ascii_nat_embedding c1), <- (ascii_nat_embedding c2).
  f_equal. lia.
Qed.

Lemma fold_digits cs acc :
  fold_left (λ acc c, acc * 10 + digit_value c) cs acc
  = acc * 10 ^ Z.of_nat (length cs) + digits_value cs.
Proof.
  unfold digits_value. revert acc.
  induction cs as [|c cs IH]; intros acc; cbn [fold_left length].
  { change (10 ^ Z.of_nat 0) with 1. lia. }
  rewrite IH, (IH (0 * 10 + digit_value c)), Nat2Z.inj_succ, Z.pow_succ_r by lia.
  ring.
Qed.

Lemma digits_value_cons c cs :
  digits_value (c :: cs) = digit_value c * 10 ^ Z.of_nat (length cs) + digits_value cs.
Proof.
  unfold digits_value at 1. cbn [fold_left]. rewrite fold_digits. ring.
Qed.

Lemma digits_value_app cs1 cs2 :
  digits_value (cs1 ++ cs2)
  = digits_value cs1 * 10 ^ Z.of_nat (length cs2) + digits_value cs2.
Proof.
  unfold digits_value at 1. rewrite fold_left_app, fold_digits. reflexivity.
Qed.

Lemma digits_value_bound cs :
  forallb is_digit cs = true → 0 <= digits_value cs < 10 ^ Z.of_nat (length cs).
Proof.
  induction cs as [|c cs IH]; [by vm_compute|].
  cbn [forallb length]. intros [Hc%is_digit_value Hcs%IH]%andb_true_iff.
  rewrite digits_value_cons, Nat2Z.inj_succ, Z.pow_succ_r by lia. nia.
Qed.

Lemma digits_value_inj cs1 cs2 :
  length cs1 = length cs2 →
  forallb is_digit cs1 = true → forallb is_digit cs2 = true →
  digits_value cs1 = digits_value cs2 → cs1 = cs2.
Proof.
  revert cs2. induction cs1 as [|c1 cs1 IH]; intros [|c2 cs2]; try done.
  cbn [length forallb]. intros [= Hl] [Hc1 Hd1]%andb_true_iff [Hc2 Hd2]%andb_true_iff.
  rewrite !digits_value_cons, Hl.
  pose proof (digits_value_bound _ Hd1) as B1.
  pose proof (digits_value_bound _ Hd2) as B2. rewrite Hl in B1.
  apply is_digit_value in Hc1, Hc2.
  set (P := 10 ^ Z.of_nat (length cs2)) in *. intros H.
  assert (digit_value c1 = digit_value c2) as Hc by nia.
  f_equal; [by apply digit_value_inj|]. apply IH; try done. nia.
Qed.

(** The eight digits as one number. *)
Lemma digits_value_ymd cs :
  length cs = 8%nat →
  digits_value cs
  = digits_value (take 4 cs) * 10000 + digits_value (take 2 (drop 4 cs)) * 100
    + digits_value (drop 6 cs).
Proof.
  intros H.
  rewrite <- (take_drop 4 cs) at 1. rewrite digits_value_app.
  rewrite <- (take_drop 2 (drop 4 cs)) at 2. rewrite digits_value_app.
  rewrite drop_drop, !length_drop, H. change (10 ^ Z.of_nat (8 - 4)) with 10000.
  change (10 ^ Z.of_nat (8 - (4 + 2))) with 100. change (4 + 2)%nat with 6%nat. ring.
Qed.

Lemma days_in_month_bound y m : days_in_month y m <= 31.
Proof.
  unfold days_in_month. destruct (m =? 2); [by destruct (is_leap y)|].
  by destruct (_ || _).
Qed.

Lemma to_datetime_ymd_Some s t :
  to_datetime_ymd s = Some t →
  length (list_ascii_of_string s) = 8%nat
  ∧ forallb is_digit (list_ascii_of_string s) = true
  ∧ valid_date (ymd_of s).1.1 (ymd_of s).1.2 (ymd_of s).2
  ∧ t = days_from_civil (ymd_of s).1.1 (ymd_of s).1.2 (ymd_of s).2 * ns_per_day.
Proof.
  unfold to_datetime_ymd, ymd_of, valid_date. cbv zeta. cbn [fst snd].
  destruct (_ && forallb _ _) eqn:E; [|done].
  apply andb_true_iff in E as [Hl%Nat.eqb_eq Hd].
  destruct (_ && in_timestamp_bounds _) eqn:E2; [|done]. intros [= <-].
  apply andb_true_iff in E2 as [E2 _]. apply andb_true_iff in E2 as [E2 H4].
  apply andb_true_iff in E2 as [E2 H3]. apply andb_true_iff in E2 as [H1 H2].
  repeat split; try done; lia.
Qed.

(** X15. The conversion of the eight digits of a file name keeps dates
    apart and in order: two names with different digits never get the same
    time label, the labels are at least a day apart, and they compare as the
    digits compare when read as one number. *)
Theorem to_datetime_ymd_order (s1 s2 : string) (t1 t2 : Timestamp) :
  to_datetime_ymd s1 = Some t1 → to_datetime_ymd s2 = Some t2 →
  (t1 = t2 → s1 = s2)
  ∧ (t1 < t2 ↔ digits_value (list_ascii_of_string s1)
               < digits_value (list_ascii_of_string s2))
  ∧ (s1 ≠ s2 → ns_per_day <= Z.abs (t2 - t1)).
Proof.
  intros (Hl1 & Hd1 & Hv1 & ->)%to_datetime_ymd_Some
         (Hl2 & Hd2 & Hv2 & ->)%to_datetime_ymd_Some.
  pose proof (digits_value_ymd _ Hl1) as N1.
  pose proof (digits_value_ymd _ Hl2) as N2.
  assert (Hstr : list_ascii_of_string s1 = list_ascii_of_string s2 → s1 = s2).
  { intros H. rewrite <- (string_of_list_ascii_of_string s1),
      <- (string_of_list_ascii_of_string s2). by f_equal. }
  unfold ymd_of in Hv1, Hv2 |- *. cbn [fst snd] in Hv1, Hv2 |- *.
  set (y1 := digits_value (take 4 (list_ascii_of_string s1))) in *.
  set (m1 := digits_value (take 2 (drop 4 (list_ascii_of_string s1)))) in *.
  set (d1 := digits_value (drop 6 (list_ascii_of_string s1))) in *.
  set (y2 := digits_value (take 4 (list_ascii_of_string s2))) in *.
  set (m2 := digits_value (take 2 (drop 4 (list_ascii_of_string s2)))) in *.
  set (d2 := digits_value (drop 6 (list_ascii_of_string s2))) in *.
  pose proof (days_in_month_bound y1 m1) as B1.
  pose proof (days_in_month_bound y2 m2) as B2.
  pose proof Hv1 as [Hm1 Hdd1]. pose proof Hv2 as [Hm2 Hdd2].
  assert (Hlex : (y1 < y2 ∨ (y1 = y2 ∧ (m1 < m2 ∨ (m1 = m2 ∧ d1 < d2))))
                 ∨ (y1 = y2 ∧ m1 = m2 ∧ d1 = d2)
                 ∨ (y2 < y1 ∨ (y2 = y1 ∧ (m2 < m1 ∨ (m2 = m1 ∧ d2 < d1))))) by lia.
  unfold ns_per_day.
  destruct Hlex as [Hlt | [(Ey & Em & Ed) | Hgt]].
  - pose proof (days_from_civil_lt _ _ _ _ _ _ Hv1 Hv2 Hlt). repeat split; lia.
  - assert (s1 = s2) as Hs.
    { apply Hstr, digits_value_inj; try done; [congruence | lia]. }
    rewrite Ey, Em, Ed. repeat split; try done; lia.
  - pose proof (days_from_civil_lt _ _ _ _ _ _ Hv2 Hv1 Hgt). repeat split; lia.
Qed.
End calendar.

Lemma to_datetime_ymd_order_witness :
  (t_2024_06_01 = t_2024_06_03 → "20240601" = "20240603")
  ∧ ((t_2024_06_01 < t_2024_06_03)%Z
     ↔ (digits_value (list_ascii_of_string "20240601")
        < digits_value (list_ascii_of_string "20240603"))%Z)
  ∧ ("20240601" ≠ "20240603" → (ns_per_day <= Z.abs (t_2024_06_03 - t_2024_06_01))%Z).
Proof.
  apply (to_datetime_ymd_order "20240601" "20240603" t_2024_06_01 t_2024_06_03);
    vm_compute; reflexivity.
Defined.

(** ** The climate pipeline: the name column *)

Lemma head_filter_split {A} (P : A → bool) (l : list A) :
  match head (List.filter P l) with
  | Some x => ∃ pre post, l = pre ++ x :: post ∧ P x = true
                          ∧ Forall (λ y, P y = false) pre
  | None => Forall (λ y, P y = false) l
  end.
Proof.
  induction l as [|y l IH]; cbn [List.filter]; [constructor|].
  destruct (P y) eqn:E; cbn [head].
  - exists [], l. by repeat split.
  - destruct (head (List.filter P l)) as [x|].
    + destruct IH as (pre & post & -> & Hx & Hpre). exists (y :: pre), post.
      repeat split; try done. by constructor.
    + by constructor.
Qed.

Lemma find_name_col_Some columns c :
  find_name_col columns = Some c →
  c ∈ columns
  ∧ ∃ pre post, name_candidates = pre ++ c :: post ∧ Forall (λ c', c' ∉ columns) pre.
Proof.
  unfold find_name_col. intros H.
  pose proof (head_filter_split (λ cand, bool_decide (cand ∈ columns)) name_candidates)
    as Hs.
  rewrite H in Hs. destruct Hs as (pre & post & Hc & Hin%bool_decide_eq_true & Hpre).
  split; [done|]. exists pre, post. split; [done|].
  eapply Forall_impl; [exact Hpre|]. intros c' Hc'. by apply bool_decide_eq_false in Hc'.
Qed.

Lemma find_name_col_None columns :
  find_name_col columns = None → Forall (λ c, c ∉ columns) name_candidates.
Proof.
  unfold find_name_col. intros H.
  pose proof (head_filter_split (λ cand, bool_decide (cand ∈ columns)) name_candidates)
    as Hs.
  rewrite H in Hs.
  eapply Forall_impl; [exact Hs|]. intros c' Hc'. by apply bool_decide_eq_false in Hc'.
Qed.

(** X16. The name column of the climate pipeline is always one of the four
    candidates: the first of them, in the order [lake_name], [Lake_name],
    [name], [Name], that is a column of the layer, and [lake_name] when none
    is.  The layer is then cut down to the id and that column. *)
Theorem prepare_lakes_name_col (lakes lakes' : GeoDataFrame) (name_col : string) :
  prepare_lakes lakes = Ok (lakes', name_col) →
  gdf_columns lakes' = ["lake_id"; name_col]
  ∧ ∃ pre post,
      name_candidates = pre ++ name_col :: post
      ∧ Forall (λ c, c ∉ gdf_columns lakes) pre
      ∧ (name_col ∈ gdf_columns lakes
         ∨ (pre = [] ∧ Forall (λ c, c ∉ gdf_columns lakes) post)).
Proof.
  unfold prepare_lakes. case_bool_decide; [|done].
  destruct (find_name_col (gdf_columns lakes)) as [cand|] eqn:E; intros [= <- <-].
  - split; [done|]. apply find_name_col_Some in E as (Hin & pre & post & Hc & Hpre).
    exists pre, post. auto.
  - split; [done|]. apply find_name_col_None in E.
    exists [], ["Lake_name"; "name"; "Name"]. split; [done|]. split; [constructor|].
    right. split; [done|]. by apply Forall_cons in E as [_ E].
Qed.

Lemma prepare_lakes_name_col_witness :
  ∃ lakes',
    gdf_columns lakes' = ["lake_id"; "name"]
    ∧ ∃ pre post,
        name_candidates = pre ++ "name" :: post
        ∧ Forall (λ c, c ∉ gdf_columns lakes_unnamed) pre
        ∧ ("name" ∈ gdf_columns lakes_unnamed
           ∨ (pre = [] ∧ Forall (λ c, c ∉ gdf_columns lakes_unnamed) post)).
Proof.
  destruct (prepare_lakes lakes_unnamed) as [[lakes' name_col]|e] eqn:E;
    [|vm_compute in E; discriminate E].
  assert (name_col = "name") as -> by (vm_compute in E; congruence).
  exists lakes'. exact (prepare_lakes_name_col lakes_unnamed lakes' "name" E).
Defined.

Lemma prepare_lakes_features lakes lakes' name_col row' :
  prepare_lakes lakes = Ok (lakes', name_col) → row' ∈ gdf_features lakes' →
  ∃ row, row ∈ gdf_features lakes
    ∧ ft_attrs row' !! "lake_id" = ft_attrs row !! "lake_id"
    ∧ (name_col ∈ gdf_columns lakes →
       ft_attrs row' !! name_col = ft_attrs row !! name_col).
Proof.
  unfold prepare_lakes. case_bool_decide; [|done].
  destruct (find_name_col (gdf_columns lakes)) as [cand|] eqn:E; intros [= <- <-].
  - unfold select_columns. cbn [gdf_features].
    intros (row & -> & Hrow)%list_elem_of_fmap. exists row. split; [done|].
    cbn [ft_attrs]. split; [|intros _].
    + destruct (ft_attrs row !! "lake_id") as [v|] eqn:Hv.
      * apply map_lookup_filter_Some. split; [done|]. cbn. set_solver.
      * apply map_lookup_filter_None. left. done.
    + destruct (ft_attrs row !! cand) as [v|] eqn:Hv.
      * apply map_lookup_filter_Some. split; [done|]. cbn. set_solver.
      * apply map_lookup_filter_None. left. done.
  - apply find_name_col_None in E. apply Forall_cons in E as [E _].
    unfold select_columns, copy_column. cbn [gdf_features].
    intros (row1 & -> & (row & -> & Hrow)%list_elem_of_fmap)%list_elem_of_fmap.
    exists row. split; [done|]. cbn [ft_attrs]. split; [|done].
    destruct (ft_attrs row !! "lake_id") as [v|] eqn:Hv.
    + apply map_lookup_filter_Some. split; [|cbn; set_solver].
      by rewrite lookup_insert_ne.
    + apply map_lookup_filter_None. left. done.
Qed.

(** ** The climate pipeline: the table *)

Lemma merge_outer_columns on left right :
  df_columns (merge_outer on left right) = df_columns left ++ value_columns on right.
Proof. reflexivity. Qed.

Section climate_table.
Variable np_nanmean : list float → float.
Variable buffer0 : geometry → geometry.
Variable open_daymet : string → result DaymetFile.

Local Abbreviation per_var := (compute_lake_daily_for_var np_nanmean open_daymet).
Local Abbreviation masks_of := (build_masks buffer0).
Local Abbreviation main := (daymet_main np_nanmean buffer0 open_daymet).

(** X17. The table of the climate pipeline has the three key columns and
    then one column per variable, in the order of [VAR_FILES]. *)
Theorem daymet_columns (lakes : GeoDataFrame) (df : DataFrame) :
  main lakes = Ok df →
  df_columns df
  = ["lake_id"; "lake_name"; "date"; "tmin"; "tmax"; "prcp"; "srad"; "vp"; "dayl"].
Proof.
  intros (lakes' & name_col & lake_masks & dfs & df0 & _ & Hdfs & Hred & ->)%daymet_main_inv.
  apply mapM_Ok in Hdfs. cbn [sort_values df_columns].
  assert (Hcols : Forall2 (λ v d, df_columns d = ["lake_id"; "lake_name"; "date"; v])
                    (fst <$> VAR_FILES) dfs).
  { eapply Forall2_impl; [exact Hdfs|]. intros v d Hd.
    by apply (compute_lake_daily_rows np_nanmean open_daymet) in Hd as [? _]. }
  clear Hdfs. cbn in Hcols.
  repeat match goal with
         | H : Forall2 _ (_ :: _) _ |- _ =>
             apply Forall2_cons_inv_l in H as (? & ? & ? & H & ->)
         | H : Forall2 _ [] _ |- _ => apply Forall2_nil_inv_l in H as ->
         end.
  injection Hred as <-. cbn [fold_left]. rewrite !merge_outer_columns.
  unfold value_columns.
  repeat match goal with H : df_columns _ = _ |- _ => rewrite H; clear H end.
  reflexivity.
Qed.

(** X18. With a layer that has no lake the climate pipeline stops at the
    first variable: there is nothing to concatenate, and the ValueError of
    [pd.concat] ends the script before any table is written.  (The index
    pipeline, given such a layer, writes a table without rows.) *)
Theorem daymet_empty_layer (lakes : GeoDataFrame) (ds : DaymetFile)
    (lat lon : grid float) :
  "lake_id" ∈ gdf_columns lakes → gdf_features lakes = [] →
  open_daymet "daymet_v4_daily_na_tmin_2024.nc" = Ok ds →
  dm_lat ds = Some lat → dm_lon ds = Some lon → is_Some (dm_vars ds !! "tmin") →
  main lakes = Raise (ValueError "No objects to concatenate").
Proof.
  intros Hid Hnone Hopen Hlat Hlon [cube Hcube].
  assert (∃ l n, prepare_lakes lakes = Ok (l, n) ∧ gdf_features l = [])
    as (l & n & Hprep & Hfeat).
  { unfold prepare_lakes. rewrite bool_decide_true by done.
    destruct (find_name_col _); eexists _, _; (split; [reflexivity|]);
      unfold select_columns, copy_column; cbn [gdf_features]; by rewrite Hnone. }
  unfold daymet_main. rewrite Hprep. cbn [mbind result_bind].
  rewrite Hopen. cbn [mbind result_bind].
  rewrite Hlat, Hlon. cbn [from_some mbind result_bind].
  rewrite Hfeat. cbn [build_masks mbind result_bind].
  change (fst <$> VAR_FILES) with ["tmin"; "tmax"; "prcp"; "srad"; "vp"; "dayl"].
  cbn [mapM].
  assert (Htmin : per_var l n [] "tmin" = Raise (ValueError "No objects to concatenate")).
  { unfold compute_lake_daily_for_var.
    change (snd <$> head (List.filter (λ kv : string * string, String.eqb kv.1 "tmin")
                            VAR_FILES))
      with (Some "daymet_v4_daily_na_tmin_2024.nc").
    cbn [from_some mbind result_bind]. rewrite Hopen. cbn [mbind result_bind].
    rewrite Hcube, Hfeat. reflexivity. }
  by rewrite Htmin.
Qed.

Lemma build_masks_app rows lon lat acc :
  (∃ masks, masks_of rows lon lat acc = Ok (acc ++ masks)
     ∧ Forall2 (λ row kv, ∃ geom, ft_attrs row !! "lake_id" = Some kv.1
                  ∧ ft_geometry row = Some geom
                  ∧ kv.2 = contains_mask (buffer0 geom) lon lat) rows masks)
  ∨ ∃ e, masks_of rows lon lat acc = Raise e.
Proof.
  revert acc. induction rows as [|row rows IH]; intros acc; cbn [build_masks].
  { left. exists []. by rewrite app_nil_r. }
  destruct (ft_attrs row !! "lake_id") as [lake_id|] eqn:Hid; [|right; by eexists].
  destruct (ft_geometry row) as [geom|] eqn:Hgeom; [|right; by eexists].
  cbn [from_some mbind result_bind]. unfold dict_set.
  destruct (IH (acc ++ [(lake_id, contains_mask (buffer0 geom) lon lat)]))
    as [(masks & -> & Hm) | [e ->]]; [left | right; by eexists].
  exists ((lake_id, contains_mask (buffer0 geom) lon lat) :: masks).
  split; [by rewrite <- app_assoc|]. constructor; [|done]. by exists geom.
Qed.

(** X19. [lake_masks] is keyed by the lake id, so of two lakes with the
    same id the later one wins: the mask that either of them is given in
    [compute_lake_daily_for_var] is the mask of the last lake of the layer
    with that id. *)
Theorem build_masks_last_wins
    (pre post : list Feature) (row : Feature) (lon lat : grid float)
    (lake_masks : list (value * grid bool)) (s : string) (geom : geometry) :
  masks_of (pre ++ row :: post) lon lat [] = Ok lake_masks →
  ft_attrs row !! "lake_id" = Some (VStr s) → ft_geometry row = Some geom →
  Forall (λ r, ft_attrs r !! "lake_id" ≠ Some (VStr s)) post →
  dict_get (VStr s) lake_masks = Ok (contains_mask (buffer0 geom) lon lat).
Proof.
  intros Hm Hid Hgeom Hpost.
  destruct (build_masks_app (pre ++ row :: post) lon lat [])
    as [(masks & Hm' & Hall) | [e He]]; [|congruence].
  rewrite Hm in Hm'. injection Hm' as ->. cbn [app].
  apply Forall2_app_inv_l in Hall as (m1 & m2 & H1 & H2 & ->).
  apply Forall2_cons_inv_l in H2 as ([k m] & m3 & (geom' & Hk & Hg & Hmask) & H3 & ->).
  cbn [fst snd] in Hk, Hmask. rewrite Hid in Hk. injection Hk as <-.
  rewrite Hgeom in Hg. injection Hg as <-. subst m.
  unfold dict_get. rewrite reverse_app, reverse_cons, <- app_assoc, !List.filter_app.
  assert (Hnone : List.filter (λ kv : value * grid bool, key_eqb (VStr s) kv.1)
                    (reverse m3) = []).
  { clear -H3 Hpost. revert m3 H3.
    induction Hpost as [|r post Hr _ IH]; intros m3 H3.
    - by apply Forall2_nil_inv_l in H3 as ->.
    - apply Forall2_cons_inv_l in H3 as ([k m] & m4 & (g & Hk & _) & H4 & ->).
      rewrite reverse_cons, List.filter_app, (IH _ H4). cbn [List.filter app fst].
      unfold key_eqb. rewrite (bool_decide_false (VStr s = k)); [by rewrite andb_false_r|].
      intros <-. by rewrite Hk in Hr. }
  rewrite Hnone. cbn [app List.filter fst].
  unfold key_eqb. rewrite bool_decide_false by done.
  rewrite (bool_decide_true (VStr s = VStr s)) by done. reflexivity.
Qed.

(** X20. Every row of the climate table is the row of a lake of the layer:
    its [lake_id] is the id of that lake, and its [lake_name] is what the
    lake has in the name column, or its id when the layer has no name
    column. *)
Theorem daymet_rows_are_lakes
    (lakes lakes' : GeoDataFrame) (name_col : string) (df : DataFrame) :
  prepare_lakes lakes = Ok (lakes', name_col) →
  main lakes = Ok df →
  ∀ r, r ∈ df_rows df →
    ∃ row, row ∈ gdf_features lakes
      ∧ ft_attrs row !! "lake_id" = Some (cell r "lake_id")
      ∧ (name_col ∈ gdf_columns lakes →
         ft_attrs row !! name_col = Some (cell r "lake_name"))
      ∧ (name_col ∉ gdf_columns lakes → cell r "lake_name" = cell r "lake_id").
Proof.
  intros Hprep Hmain r. revert Hmain.
  intros (lakes1 & name_col1 & lake_masks & dfs & df0 & Hprep1 & Hdfs & Hred & ->)%daymet_main_inv.
  rewrite Hprep in Hprep1. injection Hprep1 as <- <-.
  apply mapM_Ok in Hdfs. rewrite sort_values_rows.
  set (Q := λ k : list value,
         ∃ row, row ∈ gdf_features lakes
           ∧ Some (ft_attrs row !! "lake_id") = Some <$> k !! 0%nat
           ∧ (name_col ∈ gdf_columns lakes →
              Some (ft_attrs row !! name_col) = Some <$> k !! 1%nat)
           ∧ (name_col ∉ gdf_columns lakes → k !! 1%nat = k !! 0%nat)).
  assert (Hrows : ∀ d r, d ∈ dfs → r ∈ df_rows d → Q (row_key merge_keys r)).
  { intros d r0 [i Hi]%list_elem_of_lookup Hr.
    destruct (Forall2_lookup_r _ _ _ _ _ Hdfs Hi) as (var_name & _ & Hd).
    apply (compute_lake_daily_rows np_nanmean open_daymet) in Hd as [_ Hd].
    destruct (Hd r0 Hr) as (row' & lake_id & lake_name & Hrow' & Hid & Hname & Hr1 & Hr2).
    destruct (prepare_lakes_features _ _ _ _ Hprep Hrow') as (row & Hrow & Hid' & Hname').
    exists row. unfold row_key, merge_keys, cell. cbn [fmap list_fmap lookup list_lookup].
    rewrite Hr1, Hr2. cbn [default option_fmap option_map fmap].
    split; [done|]. split; [by rewrite <- Hid', Hid|]. split.
    - intros Hin. by rewrite <- (Hname' Hin), Hname.
    - intros Hnot. f_equal.
      destruct (find_name_col (gdf_columns lakes)) as [cand|] eqn:E.
      + exfalso. apply Hnot. unfold prepare_lakes in Hprep. rewrite E in Hprep.
        destruct (bool_decide _); [|done]. injection Hprep as _ <-.
        by apply find_name_col_Some in E as [? _].
      + destruct (prepare_lakes_synthesized lakes lakes' name_col E Hprep) as [-> Hsyn].
        rewrite (Hsyn row' lake_id Hrow' Hid) in Hname. congruence. }
  destruct dfs as [|d0 dfs]; [done|]. injection Hred as <-. intros Hr.
  apply (fold_merge_key_invariant merge_keys Q dfs d0) in Hr.
  - destruct Hr as (row & Hrow & Hid & Hname & Hsyn). exists row.
    unfold row_key, merge_keys in Hid, Hname, Hsyn.
    cbn [fmap list_fmap lookup list_lookup option_fmap option_map] in Hid, Hname, Hsyn.
    split; [done|]. split; [congruence|]. split.
    + intros Hin. specialize (Hname Hin). congruence.
    + intros Hnot. specialize (Hsyn Hnot). congruence.
  - intros r0 Hr0. apply (Hrows d0); [by left | done].
  - intros d r0 Hd Hr0. apply (Hrows d); [by right | done].
Qed.
End climate_table.

Lemma daymet_columns_witness :
  ∃ df,
    daymet_main exact_mean id example_daymet lakes_plain = Ok df
    ∧ df_columns df
      = ["lake_id"; "lake_name"; "date"; "tmin"; "tmax"; "prcp"; "srad"; "vp"; "dayl"].
Proof.
  destruct (daymet_main exact_mean id example_daymet lakes_plain) as [df|e] eqn:E;
    [|vm_compute in E; discriminate E].
  exists df. split; [reflexivity|].
  exact (daymet_columns exact_mean id example_daymet lakes_plain df E).
Defined.

Lemma daymet_empty_layer_witness :
  daymet_main exact_mean id example_daymet lakes_none
  = Raise (ValueError "No objects to concatenate").
Proof.
  eapply (daymet_empty_layer exact_mean id example_daymet lakes_none);
    [left | reflexivity | reflexivity | reflexivity | reflexivity |].
  eexists. vm_compute. reflexivity.
Defined.

Lemma build_masks_last_wins_witness :
  ∃ lake_masks,
    build_masks id lakes_twice lon3 lat3 [] = Ok lake_masks
    ∧ dict_get (VStr "erie") lake_masks = Ok (contains_mask (id far_lake) lon3 lat3).
Proof.
  destruct (build_masks id lakes_twice lon3 lat3 []) as [lake_masks|e] eqn:E;
    [|vm_compute in E; discriminate E].
  exists lake_masks. split; [reflexivity|].
  apply (build_masks_last_wins id [lake_erie] []
           (mkFeature {[ "lake_id" := VStr "erie" ]} (Some far_lake))
           lon3 lat3 lake_masks "erie" far_lake);
    [exact E | vm_compute; reflexivity | reflexivity | constructor].
Defined.

Lemma daymet_rows_are_lakes_witness :
  ∃ lakes' df,
    prepare_lakes lakes_unnamed = Ok (lakes', "name")
    ∧ daymet_main exact_mean id example_daymet lakes_unnamed = Ok df
    ∧ ∀ r, r ∈ df_rows df →
        ∃ row, row ∈ gdf_features lakes_unnamed
          ∧ ft_attrs row !! "lake_id" = Some (cell r "lake_id")
          ∧ ("name" ∈ gdf_columns lakes_unnamed →
             ft_attrs row !! "name" = Some (cell r "lake_name"))
          ∧ ("name" ∉ gdf_columns lakes_unnamed →
             cell r "lake_name" = cell r "lake_id").
Proof.
  destruct (prepare_lakes lakes_unnamed) as [[lakes' name_col]|e] eqn:Ep;
    [|vm_compute in Ep; discriminate Ep].
  assert (name_col = "name") as -> by (vm_compute in Ep; congruence).
  destruct (daymet_main exact_mean id example_daymet lakes_unnamed) as [df|e] eqn:E;
    [|vm_compute in E; discriminate E].
  exists lakes', df. split; [reflexivity|]. split; [reflexivity|].
  exact (daymet_rows_are_lakes exact_mean id example_daymet lakes_unnamed lakes'
           "name" df Ep E).
Defined.

(** ** The second engine *)

Lemma mapM_Raise_ext {A B} (f g : A → result B) (l : list A) (e : exn) :
  (∀ x e, f x = Raise e → g x = Raise e) →
  (∀ x y, f x = Ok y → ∃ y', g x = Ok y') →
  mapM f l = Raise e → mapM g l = Raise e.
Proof.
  intros Hraise Hok. induction l as [|x l IH]; [done|]. cbn [mapM].
  destruct (f x) as [y|e'] eqn:E.
  - destruct (Hok x y E) as [y' ->]. cbn [mbind result_bind].
    destruct (mapM f l) as [k|e'']; [done|]. intros [= ->]. by rewrite IH.
  - intros [= ->]. by rewrite (Hraise x e E).
Qed.

Section second_engine.
Variable parse_datetime : string → option Timestamp.
Variable np_nanmean : list float → float.
Variable np_nanquantile : list float → float → float.

Local Abbreviation core := (_extract_lakes_core_from_ds np_nanmean np_nanquantile).
Local Abbreviation extract := (extract_with parse_datetime np_nanmean np_nanquantile).

Lemma core_Raise_engine ds nc_path lakes col product t engine1 engine2 e :
  core ds nc_path lakes col product t engine1 = Raise e →
  core ds nc_path lakes col product t engine2 = Raise e.
Proof.
  unfold _extract_lakes_core_from_ds.
  destruct (from_some (ds_data_vars ds !! "CI_cyano") _) as [da|]; [|done].
  cbn [mbind result_bind].
  destruct (from_some (ds_variable ds "lat") _) as [lat|]; [|done].
  destruct (from_some (ds_variable ds "lon") _) as [lon|]; [|done].
  cbn [mbind result_bind]. destruct (bool_decide _); [|done].
  destruct (mapM _ lakes) as [rows|e1] eqn:E1; [done|]. intros [= ->].
  erewrite mapM_Raise_ext; [done | | | exact E1].
  - intros r e'. unfold lake_row.
    destruct (from_some (ft_attrs r !! col) _); [|done]. cbn [mbind result_bind].
    destruct (from_some (ft_geometry r) _) as [geom|]; [|done]. cbn [mbind result_bind].
    by destruct (lake_stats _ _ _ _ _ geom) as [[? ?] ?].
  - intros r row. unfold lake_row.
    destruct (from_some (ft_attrs r !! col) _); [|done]. cbn [mbind result_bind].
    destruct (from_some (ft_geometry r) _) as [geom|]; [|done]. cbn [mbind result_bind].
    destruct (lake_stats _ _ _ _ _ geom) as [[? ?] ?]. by eexists.
Qed.

(** X21. The second engine can only help with a file that the first engine
    cannot decode: when [netcdf4] decodes the file and its extraction fails
    (no time label, no [CI_cyano], no coordinates, coordinates of another
    shape), and [h5netcdf] decodes the same dataset, its extraction fails
    with the same error and the file is skipped. *)
Theorem fallback_repeats_failure
    (daily_dir : string) (fp : RasterFile) (gdf : list Feature)
    (lake_id_col : string) (ds : Dataset) (e : exn) :
  f_decode fp netcdf4 = Some ds → f_decode fp h5netcdf = Some ds →
  outcome (extract netcdf4 daily_dir fp gdf lake_id_col "daily") = Raise e →
  outcome (extract h5netcdf daily_dir fp gdf lake_id_col "daily") = Raise e
  ∧ file_contribution parse_datetime np_nanmean np_nanquantile daily_dir gdf
      lake_id_col fp = None.
Proof.
  intros H1 H2 He.
  assert (He2 : outcome (extract h5netcdf daily_dir fp gdf lake_id_col "daily")
                = Raise e).
  { revert He. rewrite !extract_with_outcome, H1, H2. cbn [from_some mbind result_bind].
    destruct (infer_time_label _ _ ds "daily") as [t|]; [|done].
    cbn [mbind result_bind]. apply core_Raise_engine. }
  split; [done|]. unfold file_contribution. rewrite He, He2.
  by destruct (looks_like_hdf5 fp) as [[|]|].
Qed.
End second_engine.

Lemma fallback_repeats_failure_witness :
  outcome (extract_with to_datetime_ymd exact_mean exact_quantile h5netcdf
             "/data/CONUS_DAY" file_undated [lake_erie] "lake_id" "daily")
  = Raise (ValueError ("Cannot infer time from dataset or filename: " +:+ undated_name))
  ∧ file_contribution to_datetime_ymd exact_mean exact_quantile "/data/CONUS_DAY"
      [lake_erie] "lake_id" file_undated = None.
Proof.
  apply (fallback_repeats_failure to_datetime_ymd exact_mean exact_quantile
           "/data/CONUS_DAY" file_undated [lake_erie] "lake_id" ds_A);
    [reflexivity | reflexivity | vm_compute; reflexivity].
Defined.

(** ** The climate pipeline: one row per lake and day *)

Lemma NoDup_fmap_inj_on {A B} (f : A → B) (l : list A) (x y : A) :
  NoDup (f <$> l) → x ∈ l → y ∈ l → f x = f y → x = y.
Proof.
  induction l as [|z l IH]; [by intros _ ?%elem_of_nil|].
  rewrite fmap_cons, NoDup_cons. intros [Hnew Hnd].
  intros [-> | Hx]%elem_of_cons [-> | Hy]%elem_of_cons Hf; try done.
  - exfalso. apply Hnew. rewrite Hf. by apply list_elem_of_fmap_2.
  - exfalso. apply Hnew. rewrite <- Hf. by apply list_elem_of_fmap_2.
  - by apply IH.
Qed.

Lemma partners_unique on (rows : list (gmap string value)) (k : list value) :
  NoDup (row_key on <$> rows) → k ∈ row_key on <$> rows →
  ∃ r, row_key on r = k
       ∧ List.filter (λ r', bool_decide (row_key on r' = k)) rows = [r].
Proof.
  induction rows as [|r0 rows IH]; [by intros _ ?%elem_of_nil|].
  rewrite fmap_cons, NoDup_cons. intros [Hnew Hnd] Hk. cbn [List.filter].
  case_bool_decide as Hr0.
  - exists r0. split; [done|]. f_equal. subst k.
    clear -Hnew. induction rows as [|r rows IH]; [done|].
    rewrite fmap_cons in Hnew. apply not_elem_of_cons in Hnew as [Hne Hnew].
    cbn [List.filter]. rewrite bool_decide_false by done. by apply IH.
  - apply elem_of_cons in Hk as [Hk | Hk]; [by subst|]. by apply IH.
Qed.

Lemma paired_keys on (right : DataFrame) (ls : list (gmap string value)) :
  NoDup (row_key on <$> df_rows right) →
  (∀ l, l ∈ ls → row_key on l ∈ row_key on <$> df_rows right) →
  row_key on <$> (ls ≫= (λ l,
      match partners on l (df_rows right) with
      | [] => [fill_nan (value_columns on right) l]
      | rs => (λ r, l ∪ r) <$> rs
      end))
  = row_key on <$> ls.
Proof.
  intros Hnd. induction ls as [|l ls IH]; intros Hin; [done|].
  rewrite bind_cons, fmap_app, fmap_cons, IH
    by (intros l' Hl'; apply Hin; by right).
  destruct (partners_unique on (df_rows right) (row_key on l) Hnd)
    as (r & Hr & Hp); [apply Hin; by left|].
  unfold partners. rewrite Hp. cbn [fmap list_fmap app].
  by rewrite row_key_union.
Qed.

Lemma right_only_empty on (left : list (gmap string value))
    (rs : list (gmap string value)) :
  (∀ r, r ∈ rs → row_key on r ∈ row_key on <$> left) →
  List.filter (λ r, match partners on r left with [] => true | _ => false end) rs = [].
Proof.
  induction rs as [|r rs IH]; intros Hin; [done|]. cbn [List.filter].
  destruct (partners on r left) as [|p ps] eqn:E.
  - exfalso. assert (Hr : row_key on r ∈ row_key on <$> left) by (apply Hin; by left).
    apply list_elem_of_fmap in Hr as (l & Hl & Hin').
    assert (Hp : l ∈ partners on r left) by (by apply elem_of_partners).
    rewrite E in Hp. by apply elem_of_nil in Hp.
  - apply IH. intros r' Hr'. apply Hin. by right.
Qed.

(** Joining two tables with the same keys, each once, pairs their rows. *)
Lemma merge_outer_same_keys on (left right : DataFrame) :
  NoDup (row_key on <$> df_rows left) →
  NoDup (row_key on <$> df_rows right) →
  row_key on <$> df_rows left ≡ₚ row_key on <$> df_rows right →
  row_key on <$> df_rows (merge_outer on left right) ≡ₚ row_key on <$> df_rows left.
Proof.
  intros Hl Hr Hperm. unfold merge_outer. cbn [df_rows].
  rewrite stable_sort_Permutation, fmap_app.
  rewrite right_only_empty.
  - rewrite fmap_nil, app_nil_r. rewrite paired_keys; [done | done |].
    intros l Hin. rewrite <- Hperm. by apply list_elem_of_fmap_2.
  - intros r Hin. rewrite Hperm. by apply list_elem_of_fmap_2.
Qed.

Lemma fold_merge_same_keys on (dfs : list DataFrame) (acc : DataFrame)
    (K : list (list value)) :
  NoDup K → row_key on <$> df_rows acc ≡ₚ K →
  Forall (λ d, row_key on <$> df_rows d ≡ₚ K) dfs →
  row_key on <$> df_rows (fold_left (merge_outer on) dfs acc) ≡ₚ K.
Proof.
  intros HK Hacc Hdfs. revert acc Hacc.
  induction Hdfs as [|d dfs Hd _ IH]; intros acc Hacc; [done|].
  cbn [fold_left]. apply IH.
  rewrite merge_outer_same_keys; [done | by rewrite Hacc | by rewrite Hd |].
  by rewrite Hacc, Hd.
Qed.

Lemma lake_series_keys np_nanmean var_name times cube mask lake_id lake_name :
  (length times ≤ length cube)%nat →
  row_key merge_keys
    <$> lake_series np_nanmean var_name times cube mask lake_id lake_name
  = (λ t, [lake_id; lake_name; VTime t]) <$> times.
Proof.
  unfold lake_series. revert cube.
  induction times as [|t times IH]; intros [|slice cube] Hlen; try done.
  { cbn in Hlen. lia. }
  cbn [zip_with fmap list_fmap]. f_equal.
  - unfold row_key, merge_keys, cell. cbn [fmap list_fmap].
    rewrite lookup_insert_eq.
    rewrite (lookup_insert_ne _ "lake_id" "lake_name") by done.
    rewrite lookup_insert_eq.
    rewrite (lookup_insert_ne _ "lake_id" "date") by done.
    rewrite (lookup_insert_ne _ "lake_name" "date") by done.
    by rewrite lookup_insert_eq.
  - apply IH. cbn in Hlen. lia.
Qed.

Lemma length_lake_day_keys lakes name_col times :
  length (lake_day_keys lakes name_col times)
  = (length (gdf_features lakes) * length times)%nat.
Proof.
  unfold lake_day_keys. induction (gdf_features lakes) as [|row rows IH]; [done|].
  rewrite bind_cons, length_app, IH. cbn [length Nat.mul]. f_equal.
  clear. induction times as [|t times IH]; [done|].
  rewrite bind_cons, length_app, IH. done.
Qed.

Lemma NoDup_lake_day_keys lakes name_col times :
  NoDup times →
  NoDup ((λ row, cell (ft_attrs row) "lake_id") <$> gdf_features lakes) →
  NoDup (lake_day_keys lakes name_col times).
Proof.
  intros Ht Hid. unfold lake_day_keys.
  assert (Hkey : ∀ row k,
    k ∈ (times ≫= λ t, [[cell (ft_attrs row) "lake_id";
                          cell (ft_attrs row) name_col; VTime t]]) →
    ∃ t, t ∈ times
         ∧ k = [cell (ft_attrs row) "lake_id"; cell (ft_attrs row) name_col; VTime t]).
  { intros row k (t & ->%list_elem_of_singleton & Hin)%list_elem_of_bind. eauto. }
  apply NoDup_bind.
  - intros r1 r2 k Hr1 Hr2 (t1 & _ & ->)%Hkey (t2 & _ & [= Hc _ _])%Hkey.
    by eapply (NoDup_fmap_inj_on (λ row, cell (ft_attrs row) "lake_id")).
  - intros row _. apply NoDup_bind.
    + intros t1 t2 k _ _ ->%list_elem_of_singleton [= ->]%list_elem_of_singleton.
      done.
    + intros t _. apply NoDup_singleton.
    + done.
  - by eapply NoDup_fmap_1.
Qed.

Lemma prepare_lakes_ids lakes lakes' name_col :
  prepare_lakes lakes = Ok (lakes', name_col) →
  (λ row, ft_attrs row !! "lake_id") <$> gdf_features lakes'
  = (λ row, ft_attrs row !! "lake_id") <$> gdf_features lakes.
Proof.
  unfold prepare_lakes. case_bool_decide; [|done].
  assert (Hsel : ∀ (cols : list string) (m : gmap string value),
            "lake_id" ∈ cols →
            filter (λ kv : string * value, kv.1 ∈ cols) m !! "lake_id" = m !! "lake_id").
  { intros cols m Hin. destruct (m !! "lake_id") as [v|] eqn:Hv.
    - by apply map_lookup_filter_Some.
    - apply map_lookup_filter_None. by left. }
  destruct (find_name_col (gdf_columns lakes)) as [cand|]; intros [= <- <-];
    unfold select_columns, copy_column; cbn [gdf_features];
    rewrite <- ?list_fmap_compose; apply list_fmap_ext; intros _ row _;
    unfold compose; cbn [ft_attrs]; rewrite Hsel by (by left); [done|].
  destruct (ft_attrs row !! "lake_id") as [v|] eqn:Hv; [|done].
  rewrite lookup_insert_ne by done. done.
Qed.

Section one_row_per_day.
Variable np_nanmean : list float → float.
Variable buffer0 : geometry → geometry.
Variable open_daymet : string → result DaymetFile.

Local Abbreviation per_var := (compute_lake_daily_for_var np_nanmean open_daymet).
Local Abbreviation main := (daymet_main np_nanmean buffer0 open_daymet).

(** The rows of the table of a variable, by their keys. *)
Lemma per_var_keys
    (lakes : GeoDataFrame) (name_col : string)
    (lake_masks : list (value * grid bool)) (var_name : string) (d : DataFrame) :
  per_var lakes name_col lake_masks var_name = Ok d →
  ∃ fname ds cube,
    (var_name, fname) ∈ VAR_FILES
    ∧ open_daymet fname = Ok ds
    ∧ dm_vars ds !! var_name = Some cube
    ∧ Forall (λ row, is_Some (ft_attrs row !! "lake_id")) (gdf_features lakes)
    ∧ ((length (dm_time ds) ≤ length cube)%nat →
       row_key merge_keys <$> df_rows d = lake_day_keys lakes name_col (dm_time ds)).
Proof.
  unfold compute_lake_daily_for_var.
  intros (fname & Hfname%from_some_Ok & H)%bind_Ok_inv.
  apply bind_Ok_inv in H as (ds & Hds & H).
  apply bind_Ok_inv in H as (cube & Hcube%from_some_Ok & H).
  apply bind_Ok_inv in H as (rows & Hrows%mapM_Ok & H).
  exists fname, ds, cube.
  assert (Hin : (var_name, fname) ∈ VAR_FILES).
  { pose proof (head_filter_split (λ kv : string * string, String.eqb kv.1 var_name)
                  VAR_FILES) as Hs.
    destruct (head (List.filter _ VAR_FILES)) as [[v f]|]; [|done].
    injection Hfname as ->. destruct Hs as (pre & post & -> & Heq%String.eqb_eq & _).
    cbn [fst] in Heq. subst v. apply elem_of_app. right. by left. }
  repeat split; try done.
  - clear H. induction Hrows as [|row rs features rows Hrow _ IH]; constructor; [|done].
    apply bind_Ok_inv in Hrow as (lake_id & Hid%from_some_Ok & _). eauto.
  - intros Hlen. assert (Hd : df_rows d = concat rows).
    { destruct rows; [done|]. by injection H as <-. }
    rewrite Hd. clear H Hd. unfold lake_day_keys.
    induction Hrows as [|row rs features rows Hrow _ IH]; [done|].
    cbn [concat]. rewrite fmap_app, bind_cons, IH. f_equal.
    apply bind_Ok_inv in Hrow as (lake_id & Hid%from_some_Ok & Hrow).
    apply bind_Ok_inv in Hrow as (lake_name & Hname%from_some_Ok & Hrow).
    apply bind_Ok_inv in Hrow as (mask & _ & [= <-]).
    rewrite lake_series_keys by done. unfold cell. rewrite Hid, Hname. cbn [default].
    clear. induction (dm_time ds) as [|t times IH]; [done|].
    by rewrite fmap_cons, bind_cons, IH.
Qed.

(** X22. The table of one variable has a row for every lake of the layer
    and every time step of the file of the variable, lake by lake and in
    the order of the time axis: no lake and no day is left out, whatever the
    mask of the lake selects. *)
Theorem compute_lake_daily_keys
    (lakes : GeoDataFrame) (name_col : string)
    (lake_masks : list (value * grid bool)) (var_name : string) (d : DataFrame) :
  per_var lakes name_col lake_masks var_name = Ok d →
  ∃ fname ds cube,
    (var_name, fname) ∈ VAR_FILES
    ∧ open_daymet fname = Ok ds
    ∧ dm_vars ds !! var_name = Some cube
    ∧ ((length (dm_time ds) ≤ length cube)%nat →
       row_key merge_keys <$> df_rows d = lake_day_keys lakes name_col (dm_time ds)
       ∧ length (df_rows d)
         = (length (gdf_features lakes) * length (dm_time ds))%nat).
Proof.
  intros (fname & ds & cube & Hin & Hds & Hcube & _ & Hkeys)%per_var_keys.
  exists fname, ds, cube. repeat split; try done; [by apply Hkeys|].
  rewrite <- (length_fmap (row_key merge_keys)), Hkeys by done.
  apply length_lake_day_keys.
Qed.

(** X23. When the six files share one time axis without repeated days,
    each variable has a slice for each of them, and no two lakes of the
    layer share an id, the climate table has exactly one row for every lake
    and day: the outer join pairs the rows of the six variables and adds
    none. *)
Theorem daymet_one_row_per_lake_and_day
    (lakes lakes' : GeoDataFrame) (name_col : string) (df : DataFrame)
    (times : list Timestamp) :
  prepare_lakes lakes = Ok (lakes', name_col) →
  main lakes = Ok df →
  (∀ var_name fname ds cube,
     (var_name, fname) ∈ VAR_FILES → open_daymet fname = Ok ds →
     dm_vars ds !! var_name = Some cube →
     dm_time ds = times ∧ length cube = length times) →
  NoDup times →
  NoDup ((λ row, ft_attrs row !! "lake_id") <$> gdf_features lakes) →
  row_key merge_keys <$> df_rows df ≡ₚ lake_day_keys lakes' name_col times
  ∧ NoDup (row_key merge_keys <$> df_rows df)
  ∧ length (df_rows df) = (length (gdf_features lakes) * length times)%nat.
Proof.
  intros Hprep Hmain Hfiles Htimes Hids. revert Hmain.
  intros (lakes1 & name_col1 & lake_masks & dfs & df0 & Hprep1 & Hdfs & Hred & ->)%daymet_main_inv.
  rewrite Hprep in Hprep1. injection Hprep1 as <- <-.
  apply mapM_Ok in Hdfs. rewrite sort_values_rows.
  set (K := lake_day_keys lakes' name_col times).
  assert (Hkeys : Forall (λ d, row_key merge_keys <$> df_rows d = K
                              ∧ Forall (λ row, is_Some (ft_attrs row !! "lake_id"))
                                  (gdf_features lakes')) dfs).
  { apply Forall_forall. intros d [i Hi]%list_elem_of_lookup.
    destruct (Forall2_lookup_r _ _ _ _ _ Hdfs Hi) as (var_name & _ & Hd).
    apply per_var_keys in Hd
      as (fname & ds & cube & Hin & Hds & Hcube & Hsome & Hk).
    destruct (Hfiles _ _ _ _ Hin Hds Hcube) as [Ht Hlen].
    split; [|done]. subst K. rewrite <- Ht. apply Hk. rewrite Ht, Hlen. done. }
  destruct dfs as [|d0 dfs]; [done|]. injection Hred as <-.
  apply Forall_cons in Hkeys as [[Hd0 Hsome] Hkeys].
  assert (HK : NoDup K).
  { apply NoDup_lake_day_keys; [done|].
    rewrite <- (prepare_lakes_ids _ _ _ Hprep) in Hids.
    apply NoDup_fmap_2_strong; [|by eapply NoDup_fmap_1].
    intros r1 r2 Hr1 Hr2. unfold cell.
    rewrite Forall_forall in Hsome.
    destruct (Hsome _ Hr1) as [v1 Hv1], (Hsome _ Hr2) as [v2 Hv2].
    rewrite Hv1, Hv2. intros Heq. change (v1 = v2) in Heq. subst v2.
    eapply (NoDup_fmap_inj_on (λ row, ft_attrs row !! "lake_id")); try done.
    by rewrite Hv1, Hv2. }
  assert (Hperm : row_key merge_keys
                    <$> df_rows (fold_left (merge_outer merge_keys) dfs d0) ≡ₚ K).
  { apply fold_merge_same_keys; [done | by rewrite Hd0 |].
    eapply Forall_impl; [exact Hkeys|]. by intros d [-> _]. }
  split; [done|]. split; [by rewrite Hperm|].
  rewrite <- (length_fmap (row_key merge_keys)), Hperm. subst K.
  rewrite length_lake_day_keys. f_equal.
  by rewrite <- (length_fmap (λ row, ft_attrs row !! "lake_id")),
    (prepare_lakes_ids _ _ _ Hprep), length_fmap.
Qed.
End one_row_per_day.

Lemma compute_lake_daily_keys_witness :
  ∃ d fname ds cube,
    compute_lake_daily_for_var exact_mean example_daymet lakes_unnamed "name"
      [(VStr "erie", contains_mask centre_lake lon3 lat3)] "tmin" = Ok d
    ∧ ("tmin", fname) ∈ VAR_FILES
    ∧ example_daymet fname = Ok ds
    ∧ dm_vars ds !! "tmin" = Some cube
    ∧ ((length (dm_time ds) ≤ length cube)%nat →
       row_key merge_keys <$> df_rows d
       = lake_day_keys lakes_unnamed "name" (dm_time ds)
       ∧ length (df_rows d)
         = (length (gdf_features lakes_unnamed) * length (dm_time ds))%nat).
Proof.
  destruct (compute_lake_daily_for_var exact_mean example_daymet lakes_unnamed "name"
              [(VStr "erie", contains_mask centre_lake lon3 lat3)] "tmin")
    as [d|e] eqn:E; [|vm_compute in E; discriminate E].
  destruct (compute_lake_daily_keys exact_mean example_daymet lakes_unnamed "name"
              [(VStr "erie", contains_mask centre_lake lon3 lat3)] "tmin" d E)
    as (fname & ds & cube & H).
  exists d, fname, ds, cube. split; [reflexivity | exact H].
Defined.

Lemma example_daymet_axis var_name fname ds cube :
  (var_name, fname) ∈ VAR_FILES → example_daymet fname = Ok ds →
  dm_vars ds !! var_name = Some cube →
  dm_time ds = [t_2024_05_01; t_2024_06_01]
  ∧ length cube = length [t_2024_05_01; t_2024_06_01].
Proof.
  intros Hin [= <-]. split; [reflexivity|]. revert H.
  repeat (apply elem_of_cons in Hin as [[= -> ->] | Hin];
          [vm_compute; by intros [= <-]|]).
  by apply elem_of_nil in Hin.
Qed.

Lemma daymet_one_row_per_lake_and_day_witness :
  ∃ lakes' name_col df,
    daymet_main exact_mean id example_daymet lakes_plain = Ok df
    ∧ row_key merge_keys <$> df_rows df
      ≡ₚ lake_day_keys lakes' name_col [t_2024_05_01; t_2024_06_01]
    ∧ NoDup (row_key merge_keys <$> df_rows df)
    ∧ length (df_rows df)
      = (length (gdf_features lakes_plain) * length [t_2024_05_01; t_2024_06_01])%nat.
Proof.
  destruct (prepare_lakes lakes_plain) as [[lakes' name_col]|e] eqn:Ep;
    [|vm_compute in Ep; discriminate Ep].
  destruct (daymet_main exact_mean id example_daymet lakes_plain) as [df|e] eqn:E;
    [|vm_compute in E; discriminate E].
  exists lakes', name_col, df. split; [reflexivity|].
  apply (daymet_one_row_per_lake_and_day exact_mean id example_daymet lakes_plain
           lakes' name_col df [t_2024_05_01; t_2024_06_01] Ep E).
  - exact example_daymet_axis.
  - apply (bool_decide_unpack _). by vm_compute.
  - vm_compute. apply NoDup_singleton.
Defined.
